(** * Download validation and auto-repair of [software_manager_v3.py]

    A shallow embedding of the classes [FileValidator], [AutoCorrector]
    and [SoftwareDownloader] and the properties of the validation / retry
    subsystem.

    Conventions of the embedding.
    - A Python [str] is a [string]; every character stands for one code
      point in the range 0..255 (Latin-1), on which [str.isalnum] and
      [str.lower] are tabulated exactly.
    - File contents and HTTP bodies are [list byte].
    - Python integers are [Z].
    - The functions of the Python standard library and of [requests] that
      the code calls but does not define ([hashlib], [urllib.parse],
      [os.path], [pathlib]) are the fields of the class [PyLibrary]; the
      program is embedded over an arbitrary instance of it.
    - The file system, the network and the observable effects live in a
      [world]; methods are computations in the monad [M], which threads the
      world and carries raised exceptions.  Every call of the operating
      system may raise, [path.exists()] included: it passes on every
      [OSError] that does not mean that the path is missing. *)

From Stdlib Require Import ZArith Lia Ascii String.
From stdpp Require Import base gmap strings list fin_maps.

Local Open Scope string_scope.
Local Open Scope Z_scope.

(* ===================================================================== *)
(** * Python built-ins on strings *)
(* ===================================================================== *)

Module Py.

(** The code point of a character. *)
Definition ord (c : ascii) : N := N_of_ascii c.

(** [c.isalnum()] for a code point below 256: the digits and letters of
    ASCII, and in the upper half the letters, superscript digits and
    vulgar fractions of Latin-1. *)
Definition isalnum (c : ascii) : bool :=
  let n := ord c in
  ((48 <=? n) && (n <=? 57) || (65 <=? n) && (n <=? 90)
   || (97 <=? n) && (n <=? 122)
   || (n =? 170) || (n =? 178) || (n =? 179) || (n =? 181)
   || (n =? 185) || (n =? 186) || (188 <=? n) && (n <=? 190)
   || (192 <=? n) && (n <=? 214) || (216 <=? n) && (n <=? 246)
   || (248 <=? n) && (n <=? 255))%N.

(** [c.lower()] for a code point below 256. *)
Definition lower_char (c : ascii) : ascii :=
  let n := ord c in
  if ((65 <=? n) && (n <=? 90) || (192 <=? n) && (n <=? 214)
      || (216 <=? n) && (n <=? 222))%N
  then ascii_of_N (n + 32) else c.

(** [s.lower()] *)
Fixpoint lower (s : string) : string :=
  match s with
  | EmptyString => EmptyString
  | String c s' => String (lower_char c) (lower s')
  end.

(** [s.startswith(p)] *)
Fixpoint startswith (p s : string) : bool :=
  match p, s with
  | EmptyString, _ => true
  | String a p', String b s' => bool_decide (a = b) && startswith p' s'
  | String _ _, EmptyString => false
  end.

(** [sub in s] for strings: [sub] occurs in [s] as a contiguous run. *)
Fixpoint contains (sub s : string) : bool :=
  startswith sub s ||
  match s with
  | EmptyString => false
  | String _ s' => contains sub s'
  end.

(** [c in s] for a single character [c]. *)
Fixpoint char_in (c : ascii) (s : string) : bool :=
  match s with
  | EmptyString => false
  | String b s' => bool_decide (c = b) || char_in c s'
  end.

(** [''.join(f(c) for c in s)] for a character-to-character [f]. *)
Fixpoint map_chars (f : ascii -> ascii) (s : string) : string :=
  match s with
  | EmptyString => EmptyString
  | String c s' => String (f c) (map_chars f s')
  end.

(** [''.join(c for c in s if keep(c))] *)
Fixpoint filter_chars (keep : ascii -> bool) (s : string) : string :=
  match s with
  | EmptyString => EmptyString
  | String c s' =>
      if keep c then String c (filter_chars keep s') else filter_chars keep s'
  end.

(** Truth value of a string: [bool(s)]. *)
Definition truthy (s : string) : bool :=
  match s with EmptyString => false | String _ _ => true end.

(** [s.endswith(suffix)], as a proposition. *)
Definition ends_with (s suffix : string) : Prop :=
  exists stem : string, s = stem +:+ suffix.

(** [s[s.rfind('.'):]] for an [s] that has a dot, the empty string for
    one that has none. *)
Fixpoint from_last_dot (s : string) : string :=
  match s with
  | EmptyString => EmptyString
  | String c s' =>
      if char_in "."%char s' then from_last_dot s'
      else if bool_decide (c = "."%char) then s else EmptyString
  end.

(** [s[-1]], for a non-empty [s]. *)
Fixpoint last_char (s : string) : option ascii :=
  match s with
  | EmptyString => None
  | String c EmptyString => Some c
  | String _ s' => last_char s'
  end.

(** [s * n] *)
Fixpoint times (s : string) (n : nat) : string :=
  match n with
  | O => EmptyString
  | S n' => s +:+ times s n'
  end.

(** [range(n)]: empty when [n <= 0]. *)
Definition range (n : Z) : list Z := Z.of_nat <$> seq 0 (Z.to_nat n).

End Py.

(* ===================================================================== *)
(** * Exceptions and results *)
(* ===================================================================== *)

(** The exception classes that the modelled operations raise; all of them
    derive from [Exception]. *)
Inductive exn : Type :=
| PermissionError
| FileNotFoundError
| OSError
| RequestException
| ValueError.

(** The outcome of a call: a returned value or a raised exception. *)
Inductive result (A : Type) : Type :=
| Ok (a : A)
| Raise (e : exn).
Arguments Ok {A} a.
Arguments Raise {A} e.

(* ===================================================================== *)
(** * Library functions the code calls *)
(* ===================================================================== *)

Class PyLibrary : Type := {
  (** [hashlib.new('sha256')] fed with the whole content, then
      [hexdigest()] *)
  hexdigest : list Byte.byte -> string;
  (** [urlparse(url).path]; [urlsplit] raises [ValueError] on some inputs *)
  urlparse_path : string -> result string;
  (** [os.path.basename] *)
  basename : string -> string;
  (** [download_path / filename] of [pathlib] *)
  joinpath : string -> string -> string;
  (** [file_path.parent] of [pathlib] *)
  parent : string -> string
}.

(* ===================================================================== *)
(** * Software records *)
(* ===================================================================== *)

(** One entry of the catalog: the dictionary [software_info].  [name] is
    the key of a record and every record has it, so the default of
    [software_info.get('name', 'unknown')] is never taken and
    [software_info['name']] in the log lines never fails; the other keys
    may be absent ([None]), which is what [software_info.get(key)]
    observes.  Values have the types of the data model: strings, and an
    integer size. *)
Record software_info : Type := {
  si_name : string;
  si_url : option string;
  si_filename : option string;
  si_hash : option string;
  si_size : option Z
}.

(* ===================================================================== *)
(** * AutoCorrector._generate_filename *)
(* ===================================================================== *)

Section GenerateFilename.
Context {L : PyLibrary}.

Definition common_extensions : list string :=
  [".exe"; ".msi"; ".zip"; ".rar"; ".7z"; ".dmg"; ".pkg"; ".deb"; ".rpm"].

(** [''.join(c if c.isalnum() or c in '._- ' else '_' for c in name)] *)
Definition safe_char (c : ascii) : ascii :=
  if Py.isalnum c || Py.char_in c "._- " then c else "_"%char.

Definition safe_name (software_name : string) : string :=
  Py.map_chars safe_char software_name.

(** The [for ext in common_extensions: if ext in url_path.lower(): ...
    break] search: the first extension of the list that occurs in the
    lowered path. *)
Definition found_ext (url_path : string) : option string :=
  List.find (fun ext => Py.contains ext (Py.lower url_path)) common_extensions.

Definition _generate_filename (info : software_info) : result string :=
  let filename := default "" (si_filename info) in
  if Py.truthy filename then Ok filename
  else
    let software_name := si_name info in
    let url := default "" (si_url info) in
    if Py.truthy url && negb (bool_decide (url = "builtin")) then
      match urlparse_path url with
      | Raise e => Raise e
      | Ok url_path =>
          let b := basename url_path in
          if Py.truthy b && Py.char_in "."%char b then Ok b
          else
            match found_ext url_path with
            | Some ext => Ok (safe_name software_name +:+ ext)
            | None => Ok (safe_name software_name +:+ ".exe")
            end
      end
    else Ok (safe_name software_name +:+ ".exe").

End GenerateFilename.

(* ===================================================================== *)
(** * The world: file system, network, observable effects *)
(* ===================================================================== *)

(** A regular file: its content and whether the process may open it for
    reading and may unlink it. *)
Record file : Type := {
  f_data : list Byte.byte;
  f_readable : bool;
  f_removable : bool
}.

(** The file that [open(path, 'wb')] followed by writes leaves behind. *)
Definition fresh_file (data : list Byte.byte) : file :=
  {| f_data := data; f_readable := true; f_removable := true |}.

(** What one [requests.get(url, stream=True, timeout=30)] does: the call
    or [raise_for_status()] raises, or the body arrives as the chunks of
    [iter_content], after which the transfer may break off with an
    exception. *)
Inductive http_response : Type :=
| RequestFails (e : exn)
| Streams (chunks : list (list Byte.byte)) (abort : option exn).

(** Effects in the order they happen. *)
Inductive event : Type :=
| EvUnlink (path : string)
| EvGet (url : string)
| EvWrite (path : string) (data : list Byte.byte)
| EvSleep (seconds : Z)
| EvProgress (completed total : Z) (name : string) (success : bool).

Record world : Type := {
  (** the regular files, by path *)
  files : gmap string file;
  (** the paths at which the system finds something else than a regular
      file: the directories, and the paths it refuses to examine *)
  dirs : gset string;
  (** for a path of [dirs]: the error with which the system refuses to
      examine it, if it does.  These are the errors of [stat] that
      [path.exists()] does not take for an absence, that is every
      [OSError] but ENOENT, ENOTDIR, EBADF and ELOOP: a directory on the
      way that may not be searched ([PermissionError]), a name longer
      than the file system takes ([OSError], ENAMETOOLONG), ... *)
  stat_fault : string -> option exn;
  (** [st_size] that [stat()] reports for a directory *)
  dir_size : string -> Z;
  (** creating or truncating an entry at this path is refused with this
      exception (permissions, read-only medium, ...) *)
  deny : string -> option exn;
  (** the response to the k-th GET since the trace began, k from 0 *)
  network : nat -> string -> http_response;
  (** everything done so far, oldest first *)
  trace : list event
}.

Definition set_files (fs : gmap string file) (w : world) : world :=
  {| files := fs; dirs := dirs w; stat_fault := stat_fault w;
     dir_size := dir_size w; deny := deny w;
     network := network w; trace := trace w |}.

Definition set_dirs (ds : gset string) (w : world) : world :=
  {| files := files w; dirs := ds; stat_fault := stat_fault w;
     dir_size := dir_size w; deny := deny w;
     network := network w; trace := trace w |}.

Definition record_event (ev : event) (w : world) : world :=
  {| files := files w; dirs := dirs w; stat_fault := stat_fault w;
     dir_size := dir_size w; deny := deny w;
     network := network w; trace := trace w ++ [ev] |}.

Definition is_get (ev : event) : bool :=
  match ev with EvGet _ => true | _ => false end.

(** Number of HTTP GET requests in a run of events. *)
Definition http_gets (evs : list event) : nat :=
  length (List.filter is_get evs).

(* ===================================================================== *)
(** * Computations: world passing with exceptions *)
(* ===================================================================== *)

Definition M (A : Type) : Type := world -> result A * world.

Definition ret {A} (a : A) : M A := fun w => (Ok a, w).

Definition raise {A} (e : exn) : M A := fun w => (Raise e, w).

Definition bind {A B} (m : M A) (k : A -> M B) : M B :=
  fun w =>
    match m w with
    | (Ok a, w') => k a w'
    | (Raise e, w') => (Raise e, w')
    end.

(** [try: body except Exception as e: handler(e)] *)
Definition try_except {A} (body : M A) (handler : exn -> M A) : M A :=
  fun w =>
    match body w with
    | (Ok a, w') => (Ok a, w')
    | (Raise e, w') => handler e w'
    end.

(** A call that touches no state. *)
Definition pure_call {A} (r : result A) : M A := fun w => (r, w).

Notation "'let!' x ':=' m 'in' k" := (bind m (fun x => k))
  (at level 10, x pattern, m at level 100, k at level 200).
Notation "'run!' m 'in' k" := (bind m (fun _ => k))
  (at level 10, m at level 100, k at level 200).

(** ** Operations of the operating system and of the network *)

(** [path.exists()]: true for a file and for a directory, false where
    nothing is, and the error of [stat] raised on to the caller where the
    system refuses to examine the path. *)
Definition path_exists (path : string) : M bool :=
  fun w =>
    match files w !! path with
    | Some _ => (Ok true, w)
    | None =>
        if bool_decide (path ∈ dirs w) then
          match stat_fault w path with
          | Some e => (Raise e, w)
          | None => (Ok true, w)
          end
        else (Ok false, w)
    end.

(** [path.stat().st_size] *)
Definition stat_size (path : string) : M Z :=
  fun w =>
    match files w !! path with
    | Some f => (Ok (Z.of_nat (length (f_data f))), w)
    | None =>
        if bool_decide (path ∈ dirs w) then
          match stat_fault w path with
          | Some e => (Raise e, w)
          | None => (Ok (dir_size w path), w)
          end
        else (Raise FileNotFoundError, w)
    end.

(** [open(path, 'rb')] and reading from it: the content, or the exception
    of [open]. *)
Definition open_read (path : string) : M (list Byte.byte) :=
  fun w =>
    match files w !! path with
    | Some f =>
        if f_readable f then (Ok (f_data f), w) else (Raise PermissionError, w)
    | None =>
        if bool_decide (path ∈ dirs w) then
          match stat_fault w path with
          | Some e => (Raise e, w)
          | None => (Raise OSError, w)
          end
        else (Raise FileNotFoundError, w)
    end.

(** [path.unlink(missing_ok=...)] *)
Definition unlink (missing_ok : bool) (path : string) : M unit :=
  fun w =>
    match files w !! path with
    | Some f =>
        if f_removable f
        then (Ok tt, record_event (EvUnlink path)
                       (set_files (delete path (files w)) w))
        else (Raise PermissionError, w)
    | None =>
        if bool_decide (path ∈ dirs w) then
          match stat_fault w path with
          | Some e => (Raise e, w)
          | None => (Raise PermissionError, w)
          end
        else if missing_ok then (Ok tt, w)
        else (Raise FileNotFoundError, w)
    end.

(** [with open(path, 'wb') as f: f.write(data)]: creates or truncates. *)
Definition write_file (path : string) (data : list Byte.byte) : M unit :=
  fun w =>
    match deny w path with
    | Some e => (Raise e, w)
    | None =>
        if bool_decide (path ∈ dirs w) then (Raise OSError, w)
        else (Ok tt, record_event (EvWrite path data)
                       (set_files (<[path := fresh_file data]> (files w)) w))
    end.

(** [path.mkdir(parents=True, exist_ok=True)]: nothing to do for a path
    of [dirs]; that nothing can be created below a path that the system
    refuses to examine is for [deny] to say. *)
Definition mkdir_parents (path : string) : M unit :=
  fun w =>
    if bool_decide (path ∈ dirs w) then (Ok tt, w)
    else if bool_decide (is_Some (files w !! path)) then (Raise OSError, w)
    else match deny w path with
         | Some e => (Raise e, w)
         | None => (Ok tt, set_dirs ({[path]} ∪ dirs w) w)
         end.

(** [requests.get(url, stream=True, timeout=30)] with
    [response.raise_for_status()]: the call is recorded as one GET, also
    when it raises; the answer is the chunk stream or the exception. *)
Definition requests_get (url : string)
  : M (list (list Byte.byte) * option exn) :=
  fun w =>
    let w' := record_event (EvGet url) w in
    match network w (http_gets (trace w)) url with
    | RequestFails e => (Raise e, w')
    | Streams chunks abort => (Ok (chunks, abort), w')
    end.

(** [time.sleep(seconds)] *)
Definition sleep (seconds : Z) : M unit :=
  fun w => (Ok tt, record_event (EvSleep seconds) w).

(* ===================================================================== *)
(** * Messages *)
(* ===================================================================== *)

(** The second component of the pairs the methods return.  Each
    constructor is one message of the source; the arguments are the values
    its f-string interpolates. *)
Inductive message : Type :=
| MsgFileMissing                                 (* 文件不存在 *)
| MsgSizeMismatch (expected actual : Z)          (* 文件大小不匹配: 期望 .., 实际 .. *)
| MsgHashMismatch (expected actual : string)     (* 文件哈希不匹配: 期望 .., 实际 .. *)
| MsgValidationFailed (e : exn)                  (* 文件验证失败: e *)
| MsgFileOk                                      (* 文件完整 *)
| MsgCorrected                                   (* 纠错成功 *)
| MsgExhausted (max_retries : Z)                 (* 经过 .. 次尝试后仍然失败 *)
| MsgDownloaded                                  (* 下载成功 *)
| MsgStr (e : exn)                               (* str(e) *)
| MsgPathWritable                                (* 路径可写 *)
| MsgPathDenied                                  (* 路径无写入权限 *)
| MsgNoInfo.                                     (* 软件信息不存在 *)

(* ===================================================================== *)
(** * FileValidator *)
(* ===================================================================== *)

Section FileValidator.
Context {L : PyLibrary}.

(** [calculate_file_hash(file_path)] with the default algorithm: the
    digest of the content, or the empty string when opening or reading
    raises. *)
Definition calculate_file_hash (file_path : string) : M string :=
  try_except
    (let! data := open_read file_path in
     ret (hexdigest data))
    (fun _ => ret "").

Definition validate_file_integrity (file_path : string)
    (expected_hash : option string) (expected_size : option Z)
  : M (bool * message) :=
  let! present := path_exists file_path in
  if negb present then ret (false, MsgFileMissing)
  else
    try_except
      (let check_readable : M (bool * message) :=
         run! open_read file_path in
         ret (true, MsgFileOk) in
       let check_hash : M (bool * message) :=
         if Py.truthy (default "" expected_hash) then
           let expected := default "" expected_hash in
           let! actual_hash := calculate_file_hash file_path in
           if bool_decide (Py.lower actual_hash ≠ Py.lower expected)
           then ret (false, MsgHashMismatch expected actual_hash)
           else check_readable
         else check_readable in
       match expected_size with
       | Some expected =>
           let! actual_size := stat_size file_path in
           if bool_decide (actual_size ≠ expected)
           then ret (false, MsgSizeMismatch expected actual_size)
           else check_hash
       | None => check_hash
       end)
      (fun e => ret (false, MsgValidationFailed e)).

End FileValidator.

(* ===================================================================== *)
(** * AutoCorrector *)
(* ===================================================================== *)

Section AutoCorrector.
Context {L : PyLibrary}.

(** What the loop [for chunk in response.iter_content(...): if chunk:
    f.write(chunk)] has written once the chunks are consumed. *)
Definition received (chunks : list (list Byte.byte)) : list Byte.byte :=
  foldl (fun written chunk =>
           match chunk with [] => written | _ => (written ++ chunk)%list end)
        [] chunks.

(** [_download_file(url, file_path, expected_size)].  [expected_size]
    only decides whether a warning is logged. *)
Definition _download_file (url file_path : string) (expected_size : Z)
  : M (bool * message) :=
  try_except
    (let! (chunks, abort) := requests_get url in
     run! mkdir_parents (parent file_path) in
     run! write_file file_path (received chunks) in
     run! match abort with Some e => raise e | None => ret tt end in
     ret (true, MsgDownloaded))
    (fun e => ret (false, MsgStr e)).

(** The statements from the re-download comment to the end of the
    [try] block: download, and validate what was downloaded. *)
Definition redownload (info : software_info) (file_path : string)
  : M (option (bool * message)) :=
  let! (success, error_msg) :=
    _download_file (default "" (si_url info)) file_path
                   (default 0 (si_size info)) in
  if success then
    let! (is_valid, msg) :=
      validate_file_integrity file_path (si_hash info) (si_size info) in
    if is_valid then ret (Some (true, MsgCorrected)) else ret None
  else ret None.

(** The body of one iteration of [for attempt in range(max_retries)] up
    to the end of its [try] statement: [Some r] when the body executes
    [return r], [None] when control reaches the statements after the
    [try]. *)
Definition attempt_body (info : software_info) (file_path : string)
  : M (option (bool * message)) :=
  try_except
    (let! present := path_exists file_path in
     if present then
       let! (is_valid, msg) :=
         validate_file_integrity file_path (si_hash info) (si_size info) in
       if is_valid then ret (Some (true, MsgFileOk))
       else
         run! unlink true file_path in
         redownload info file_path
     else redownload info file_path)
    (fun _ => ret None).

(** The [for] loop over the remaining values of [attempt], followed by
    the final [return False, ...]. *)
Fixpoint attempts (info : software_info) (file_path : string)
    (max_retries : Z) (remaining : list Z) : M (bool * message) :=
  match remaining with
  | [] => ret (false, MsgExhausted max_retries)
  | attempt :: later =>
      let! r := attempt_body info file_path in
      match r with
      | Some outcome => ret outcome
      | None =>
          run! (if bool_decide (attempt < max_retries - 1)
                then sleep (2 ^ attempt) else ret tt) in
          attempts info file_path max_retries later
      end
  end.

Definition auto_correct_download (info : software_info)
    (download_path : string) (max_retries : Z) : M (bool * message) :=
  let! filename := pure_call (_generate_filename info) in
  let file_path := joinpath download_path filename in
  attempts info file_path max_retries (Py.range max_retries).

(** The four bytes of [write_text("test")]. *)
Definition test_bytes : list Byte.byte :=
  [Byte.x74; Byte.x65; Byte.x73; Byte.x74].

Definition correct_path_issues (download_path : string)
  : M (bool * message) :=
  try_except
    (let! present := path_exists download_path in
     run! (if negb present then mkdir_parents download_path else ret tt) in
     let test_file := joinpath download_path "test_write.tmp" in
     try_except
       (run! write_file test_file test_bytes in
        run! unlink false test_file in
        ret (true, MsgPathWritable))
       (fun e =>
          match e with
          | PermissionError => ret (false, MsgPathDenied)
          | _ => raise e
          end))
    (fun e => ret (false, MsgStr e)).

End AutoCorrector.

(* ===================================================================== *)
(** * SoftwareDownloader *)
(* ===================================================================== *)

Section SoftwareDownloader.
Context {L : PyLibrary}.

(** The caller's [progress_callback(completed, total, name, success)]:
    what it raises, if anything. *)
Definition callback : Type := Z -> Z -> string -> bool -> option exn.

Definition notify (progress_callback : option callback)
    (completed total : Z) (software_name : string) (success : bool)
  : M unit :=
  match progress_callback with
  | None => ret tt
  | Some cb =>
      fun w =>
        let w' := record_event
                    (EvProgress completed total software_name success) w in
        match cb completed total software_name success with
        | Some e => (Raise e, w')
        | None => (Ok tt, w')
        end
  end.

(** [{software: (False, path_message) for software in software_list}] *)
Definition all_failed (software_list : list string) (msg : message)
  : gmap string (bool * message) :=
  foldl (fun d software => <[software := (false, msg)]> d) ∅ software_list.

(** The loop [for software_name in software_list] with the loop-carried
    [completed_count] and [results], then [return results]. *)
Fixpoint download_each (remaining : list string) (download_path : string)
    (software_data : gmap string software_info)
    (progress_callback : option callback)
    (total_count completed_count : Z)
    (results : gmap string (bool * message))
  : M (gmap string (bool * message)) :=
  match remaining with
  | [] => ret results
  | software_name :: later =>
      match software_data !! software_name with
      | None =>
          download_each later download_path software_data progress_callback
            total_count completed_count
            (<[software_name := (false, MsgNoInfo)]> results)
      | Some info =>
          let! (success, msg) :=
            auto_correct_download info download_path 3 in
          let results := <[software_name := (success, msg)]> results in
          let completed_count := completed_count + 1 in
          run! notify progress_callback completed_count total_count
                 software_name success in
          download_each later download_path software_data progress_callback
            total_count completed_count results
      end
  end.

Definition download_software (software_list : list string)
    (download_path : string) (software_data : gmap string software_info)
    (progress_callback : option callback)
  : M (gmap string (bool * message)) :=
  let! (path_valid, path_message) := correct_path_issues download_path in
  if negb path_valid then ret (all_failed software_list path_message)
  else
    download_each software_list download_path software_data
      progress_callback (Z.of_nat (length software_list)) 0 ∅.

End SoftwareDownloader.

(* ===================================================================== *)
(** * A reference instance of the library *)
(* ===================================================================== *)

(** One concrete [PyLibrary], on which the program can be evaluated.  The
    path functions follow [posixpath] and [pathlib.PurePosixPath];
    [urlparse_path] follows [urllib.parse.urlsplit] / [urlparse] of
    CPython 3.11 for URLs whose network location is ASCII and has no
    well-formed bracketed host (the validation of a bracketed IPv6 literal
    is left out).  The digest is a stand-in, not SHA-256. *)
Module Reference.

(** The prefix of [s] before the first character that occurs in
    [stops]; all of [s] when there is none. *)
Fixpoint before_any (stops s : string) : string :=
  match s with
  | EmptyString => EmptyString
  | String c s' =>
      if Py.char_in c stops then EmptyString
      else String c (before_any stops s')
  end.

(** The suffix of [s] from the first character that occurs in [stops];
    empty when there is none. *)
Fixpoint from_any (stops s : string) : string :=
  match s with
  | EmptyString => EmptyString
  | String c s' => if Py.char_in c stops then s else from_any stops s'
  end.

(** [s.lstrip(chars)] where [strip c] tells the characters to strip. *)
Fixpoint lstrip (strip : ascii -> bool) (s : string) : string :=
  match s with
  | EmptyString => EmptyString
  | String c s' => if strip c then lstrip strip s' else s
  end.

(** [posixpath.basename]: what follows the last slash. *)
Fixpoint posix_basename (p : string) : string :=
  match p with
  | EmptyString => EmptyString
  | String c p' =>
      if Py.char_in "/"%char p' then posix_basename p'
      else if bool_decide (c = "/"%char) then p' else p
  end.

(** The prefix of [p] up to and including its last slash. *)
Fixpoint upto_last_slash (p : string) : string :=
  match p with
  | EmptyString => EmptyString
  | String c p' =>
      if Py.char_in "/"%char p' then String c (upto_last_slash p')
      else if bool_decide (c = "/"%char) then "/" else EmptyString
  end.

Definition is_ascii_alpha (c : ascii) : bool :=
  let n := Py.ord c in
  ((65 <=? n) && (n <=? 90) || (97 <=? n) && (n <=? 122))%N.

(** Membership in [scheme_chars]. *)
Definition is_scheme_char (c : ascii) : bool :=
  let n := Py.ord c in
  is_ascii_alpha c || ((48 <=? n) && (n <=? 57))%N || Py.char_in c "+-.".

Fixpoint all_chars (ok : ascii -> bool) (s : string) : bool :=
  match s with
  | EmptyString => true
  | String c s' => ok c && all_chars ok s'
  end.

Definition uses_params : list string :=
  [""; "ftp"; "hdl"; "prospero"; "http"; "imap"; "https"; "shttp"; "rtsp";
   "rtspu"; "sip"; "sips"; "mms"; "sftp"; "tel"].

(** The scheme and the rest, as [urlsplit] separates them. *)
Definition split_scheme (url : string) : string * string :=
  let head := before_any ":" url in
  let tail := from_any ":" url in
  match head, tail with
  | String c0 _, String _ rest =>
      if is_ascii_alpha c0 && all_chars is_scheme_char head
      then (Py.lower head, rest) else (EmptyString, url)
  | _, _ => (EmptyString, url)
  end.

(** [_splitparams(url)[0]] *)
Definition drop_params (url : string) : string :=
  upto_last_slash url +:+ before_any ";" (posix_basename url).

Definition urlsplit_path (url0 : string) : result string :=
  let url := lstrip (fun c => (Py.ord c <=? 32)%N) url0 in
  let url := Py.filter_chars
               (fun c => negb ((Py.ord c =? 9) || (Py.ord c =? 10)
                               || (Py.ord c =? 13))%N) url in
  let (scheme, url) := split_scheme url in
  let located :=
    match url with
    | String "/" (String "/" after) =>
        let netloc := before_any "/?#" after in
        if xorb (Py.char_in "["%char netloc) (Py.char_in "]"%char netloc)
        then Raise ValueError
        else Ok (from_any "/?#" after)
    | _ => Ok url
    end in
  match located with
  | Raise e => Raise e
  | Ok url =>
      let url := before_any "#" url in
      let url := before_any "?" url in
      if bool_decide (scheme ∈ uses_params) && Py.char_in ";"%char url
      then Ok (drop_params url) else Ok url
  end.

(** [PurePosixPath(d) / f] on normalised arguments: an absolute [f]
    replaces [d]. *)
Definition posix_joinpath (d f : string) : string :=
  match f with
  | String "/" _ => f
  | _ => d +:+ "/" +:+ f
  end.

(** [PurePosixPath(p).parent]: [p] without its last component. *)
Definition posix_parent (p : string) : string :=
  match upto_last_slash p with
  | EmptyString => "."
  | "/" => "/"
  | d => String.substring 0 (String.length d - 1) d
  end.

(** Stand-in for the digest: the bytes themselves, read as characters. *)
Definition plain_digest (data : list Byte.byte) : string :=
  string_of_list_ascii (ascii_of_byte <$> data).

#[export] Instance library : PyLibrary := {|
  hexdigest := plain_digest;
  urlparse_path := urlsplit_path;
  basename := posix_basename;
  joinpath := posix_joinpath;
  parent := posix_parent
|}.

End Reference.

(* ===================================================================== *)
(** * Vocabulary of the properties *)
(* ===================================================================== *)

(** Something is at the path: a file, a directory, or an entry that the
    system refuses to examine.  Where nothing is, [path.exists()] is
    false. *)
Definition present (w : world) (path : string) : Prop :=
  is_Some (files w !! path) \/ path ∈ dirs w.

(** The system refuses to examine the path, with the error [e]:
    [path.exists()] raises [e]. *)
Definition refused (w : world) (path : string) (e : exn) : Prop :=
  files w !! path = None /\ path ∈ dirs w /\ stat_fault w path = Some e.

(** [path.exists()] answers true. *)
Definition found (w : world) (path : string) : Prop :=
  path_exists path w = (Ok true, w).

(** [path.exists()] answers, with true or with false. *)
Definition examinable (w : world) (path : string) : Prop :=
  forall e : exn, ~ refused w path e.

(** The record carries no usable [filename]: the key is absent or its
    value is the empty string. *)
Definition no_filename (info : software_info) : Prop :=
  si_filename info = None \/ si_filename info = Some "".

(** The record carries no URL to parse: the key is absent, or its value is
    empty or the marker [builtin]. *)
Definition no_url (info : software_info) : Prop :=
  si_url info = None \/ si_url info = Some "" \/ si_url info = Some "builtin".

(** The message names a hash that differs from the expected one. *)
Definition names_hash_mismatch (msg : message) : Prop :=
  exists expected actual : string, msg = MsgHashMismatch expected actual.

(** The size check of the validator lets the file through: no expected
    size, or [stat()] reports exactly that size. *)
Definition size_passes (w : world) (path : string) (expected_size : option Z)
  : Prop :=
  forall n : Z, expected_size = Some n -> stat_size path w = (Ok n, w).

(** The hash check of the validator lets the file through: no expected
    hash (absent or empty), or the computed digest equals it up to case. *)
Definition hash_passes `{L : PyLibrary} (w : world) (path : string)
    (expected_hash : option string) : Prop :=
  forall e : string,
    expected_hash = Some e -> e <> "" ->
    exists d : string,
      calculate_file_hash path w = (Ok d, w) /\ Py.lower d = Py.lower e.

(** The validator accepts, respectively rejects, the file at [file_path]
    against the optional hash and size of the record. *)
Definition accepts `{L : PyLibrary} (info : software_info)
    (file_path : string) (w : world) : Prop :=
  exists msg : message,
    validate_file_integrity file_path (si_hash info) (si_size info) w
    = (Ok (true, msg), w).

Definition rejects `{L : PyLibrary} (info : software_info)
    (file_path : string) (w : world) : Prop :=
  exists msg : message,
    validate_file_integrity file_path (si_hash info) (si_size info) w
    = (Ok (false, msg), w).

(** Two worlds hold the same thing at [path]: the same file, or no file
    and the same answer about a directory there. *)
Definition same_entry (path : string) (w1 w2 : world) : Prop :=
  files w1 !! path = files w2 !! path /\
  (files w1 !! path = None ->
   (path ∈ dirs w1 <-> path ∈ dirs w2) /\
   stat_fault w1 path = stat_fault w2 path /\
   dir_size w1 path = dir_size w2 path).

(** No GET occurs in [evs] before the first unlink of [path]. *)
Fixpoint unlink_first (path : string) (evs : list event) : bool :=
  match evs with
  | [] => true
  | EvUnlink q :: rest => bool_decide (q = path) || unlink_first path rest
  | EvGet _ :: _ => false
  | _ :: rest => unlink_first path rest
  end.

(** [ext] is what the search over the allow-list yields on [url_path],
    with [.exe] standing in when nothing is found. *)
Definition guessed (url_path ext : string) : Prop :=
  (exists i : nat,
      common_extensions !! i = Some ext /\
      Py.contains ext (Py.lower url_path) = true /\
      forall (j : nat) (other : string),
        (j < i)%nat -> common_extensions !! j = Some other ->
        Py.contains other (Py.lower url_path) = false)
  \/ (ext = ".exe" /\
      forall other : string,
        other ∈ common_extensions ->
        Py.contains other (Py.lower url_path) = false).

Section StatedDerivation.
Context {L : PyLibrary}.

(** The software name with its non-alphanumeric characters stripped. *)
Definition stripped_name (software_name : string) : string :=
  Py.filter_chars Py.isalnum software_name.

(** The basename has a recognizable extension: its last dot is not its
    first character and is followed by one character or more.  So
    [setup.exe] and [a.tar.gz] have one; [setup], [setup.], [.], [..]
    and [.profile] have none. *)
Definition has_extension (b : string) : bool :=
  match b with
  | EmptyString => false
  | String _ rest => (1 <? String.length (Py.from_last_dot rest))%nat
  end.

(** The filename as the specification words it: the explicit filename
    field if present; else the basename of the URL path when it has a
    recognizable extension; else the stripped software name with the
    guessed extension, [.exe] by default. *)
Definition stated_filename (info : software_info) : result string :=
  match si_filename info with
  | Some filename => Ok filename
  | None =>
      match urlparse_path (default "" (si_url info)) with
      | Raise e => Raise e
      | Ok url_path =>
          let b := basename url_path in
          if has_extension b then Ok b
          else Ok (stripped_name (si_name info)
                   +:+ default ".exe" (found_ext url_path))
      end
  end.

End StatedDerivation.

(* ===================================================================== *)
(** * Sample records and worlds *)
(* ===================================================================== *)

Module Samples.

Definition tool : software_info :=
  {| si_name := "Demo Tool"; si_url := Some "https://example.org/get/tool";
     si_filename := None; si_hash := Some "AB"; si_size := Some 2 |}.

Definition plus_name : software_info :=
  {| si_name := "a+b"; si_url := None; si_filename := None;
     si_hash := None; si_size := None |}.

Definition empty_filename : software_info :=
  {| si_name := "x"; si_url := Some "https://example.org/files/setup.exe";
     si_filename := Some ""; si_hash := None; si_size := None |}.

Definition explicit_name : software_info :=
  {| si_name := "x"; si_url := Some "https://example.org/files/setup.exe";
     si_filename := Some "my file?"; si_hash := None; si_size := None |}.

(** The URL path ends with a dot. *)
Definition trailing_dot : software_info :=
  {| si_name := "Setup"; si_url := Some "https://example.org/files/setup.";
     si_filename := None; si_hash := None; si_size := None |}.

Definition broken_url : software_info :=
  {| si_name := "broken"; si_url := Some "http://[::1/setup.exe";
     si_filename := None; si_hash := None; si_size := None |}.

Definition catalog : gmap string software_info :=
  <["broken" := broken_url]> (<["tool" := tool]> ∅).

Definition tool_path : string := "/dl/Demo Tool.exe".

(** A server that always answers with the two bytes [ab], in three
    chunks of which one is empty. *)
Definition serves_ab : nat -> string -> http_response :=
  fun _ _ => Streams [[Byte.x61]; []; [Byte.x62]] None.

Definition world_with (fs : gmap string file) : world :=
  {| files := fs; dirs := {["/dl"]}; stat_fault := fun _ => None;
     dir_size := fun _ => 4096;
     deny := fun _ => None; network := serves_ab; trace := [] |}.

(** The target holds one wrong byte. *)
Definition stale_world : world :=
  world_with {[ tool_path := fresh_file [Byte.x00] ]}.

(** The target holds [ab], whose stand-in digest is [ab]. *)
Definition good_world : world :=
  world_with {[ tool_path := fresh_file [Byte.x61; Byte.x62] ]}.

(** The target has the expected size and another content. *)
Definition wrong_hash_world : world :=
  world_with {[ tool_path := fresh_file [Byte.x61; Byte.x63] ]}.

Definition empty_world : world := world_with ∅.

(** A path whose last component has 304 characters, more than the 255
    that the file systems of Linux take. *)
Definition long_path : string := "/dl/" +:+ Py.times "a" 300 +:+ ".exe".

(** The directory [/dl], and the refusal of the system to examine
    [long_path]: [stat] fails there with ENAMETOOLONG. *)
Definition long_name_world : world :=
  {| files := ∅; dirs := {[ "/dl"; long_path ]};
     stat_fault := fun p => if bool_decide (p = long_path) then Some OSError
                            else None;
     dir_size := fun _ => 4096;
     deny := fun p => if bool_decide (p = long_path) then Some OSError
                      else None;
     network := serves_ab; trace := [] |}.

End Samples.

(* ===================================================================== *)
(** * More of the program: executables, existing downloads, statistics *)
(* ===================================================================== *)

(** [file_path.suffix] of [pathlib], a library function beside those of
    [PyLibrary]. *)
Class PathSuffix : Type := {
  suffix : string -> string
}.

(** The messages of [FileValidator.validate_executable]. *)
Inductive exec_message : Type :=
| ExecMissing                       (* 文件不存在 *)
| ExecUnsupported (suffix : string) (* 不支持的文件类型: .. *)
| ExecEmpty                         (* 文件大小为0 *)
| ExecBadHeader                     (* 无效的PE文件头 *)
| ExecValid                         (* 可执行文件有效 *)
| ExecFailed (e : exn).             (* 可执行文件验证失败: e *)

(** The message of an entry of [validate_existing_downloads]: that of the
    integrity check or that of the executable check. *)
Inductive report : Type :=
| Integrity (m : message)
| Executable (m : exec_message).

(** A Python dictionary where the order of its items matters: the items
    in insertion order. *)
Definition odict (V : Type) : Type := list (string * V).

(** Equality of bytes is decidable, for [header != b'MZ']. *)
#[export] Instance byte_eq_decision : EqDecision Byte.byte :=
  Stdlib.Strings.Byte.byte_eq_dec.

(** [d[k] = v]: replaces the value of an existing key in place, appends a
    new key. *)
Fixpoint odict_set {V} (k : string) (v : V) (d : odict V) : odict V :=
  match d with
  | [] => [(k, v)]
  | (k', v') :: rest =>
      if bool_decide (k' = k) then (k', v) :: rest
      else (k', v') :: odict_set k v rest
  end.

(** [d.get(k)] *)
Fixpoint odict_get {V} (k : string) (d : odict V) : option V :=
  match d with
  | [] => None
  | (k', v') :: rest =>
      if bool_decide (k' = k) then Some v' else odict_get k rest
  end.

Section Executables.
Context {L : PyLibrary} {S : PathSuffix}.

Definition valid_extensions : gset string :=
  {[ ".exe"; ".msi"; ".zip"; ".rar"; ".7z" ]}.

(** The two bytes [b'MZ']. *)
Definition mz_header : list Byte.byte := [Byte.x4d; Byte.x5a].

Definition validate_executable (file_path : string)
  : M (bool * exec_message) :=
  let! present := path_exists file_path in
  if negb present then ret (false, ExecMissing)
  else
    try_except
      (if negb (bool_decide (Py.lower (suffix file_path) ∈ valid_extensions))
       then ret (false, ExecUnsupported (suffix file_path))
       else
         let! size := stat_size file_path in
         if bool_decide (size = 0) then ret (false, ExecEmpty)
         else if bool_decide (Py.lower (suffix file_path) = ".exe") then
           let! data := open_read file_path in
           let header := take 2 data in
           if bool_decide (header ≠ mz_header)
           then ret (false, ExecBadHeader)
           else ret (true, ExecValid)
         else ret (true, ExecValid))
      (fun e => ret (false, ExecFailed e)).

(** The body of the loop of [validate_existing_downloads] for one item of
    the catalog. *)
Definition validate_existing_item (download_path : string)
    (software_name : string) (software_info : software_info)
    (results : odict (bool * report)) : M (odict (bool * report)) :=
  let! filename := pure_call (_generate_filename software_info) in
  let file_path := joinpath download_path filename in
  let! present := path_exists file_path in
  if present then
    let! (is_valid, msg) :=
      validate_file_integrity file_path (si_hash software_info)
        (si_size software_info) in
    let! (is_valid, msg) :=
      (if is_valid then
         let! (is_executable, exec_msg) := validate_executable file_path in
         if negb is_executable then ret (false, Executable exec_msg)
         else ret (is_valid, Integrity msg)
       else ret (is_valid, Integrity msg)) in
    ret (odict_set software_name (is_valid, msg) results)
  else
    ret (odict_set software_name (false, Integrity MsgFileMissing) results).

Fixpoint validate_existing_loop (download_path : string)
    (items : odict software_info) (results : odict (bool * report))
  : M (odict (bool * report)) :=
  match items with
  | [] => ret results
  | (software_name, software_info) :: later =>
      let! results :=
        validate_existing_item download_path software_name software_info
          results in
      validate_existing_loop download_path later results
  end.

(** [validate_existing_downloads(download_path, software_data)];
    [software_data] is given by its items. *)
Definition validate_existing_downloads (download_path : string)
    (software_data : odict software_info) : M (odict (bool * report)) :=
  let! present := path_exists download_path in
  if negb present then ret []
  else validate_existing_loop download_path software_data [].

(** One element of the list [stats["files"]]. *)
Record file_stat : Type := {
  fs_name : string;
  fs_filename : string;
  fs_size : Z;
  fs_valid : bool;
  fs_message : report
}.

(** The dictionary [stats]. *)
Record statistics : Type := {
  total_files : Z;
  valid_files : Z;
  invalid_files : Z;
  total_size : Z;
  stat_files : list file_stat
}.

Definition empty_statistics : statistics :=
  {| total_files := 0; valid_files := 0; invalid_files := 0;
     total_size := 0; stat_files := [] |}.

(** The updates of [stats] for one file that exists. *)
Definition count_file (stats : statistics) (software_name filename : string)
    (file_size : Z) (is_valid : bool) (msg : report) : statistics :=
  {| total_files := total_files stats + 1;
     valid_files := if is_valid then valid_files stats + 1
                    else valid_files stats;
     invalid_files := if is_valid then invalid_files stats
                      else invalid_files stats + 1;
     total_size := total_size stats + file_size;
     stat_files := (stat_files stats
                    ++ [{| fs_name := software_name; fs_filename := filename;
                           fs_size := file_size; fs_valid := is_valid;
                           fs_message := msg |}])%list |}.

(** The loop of [get_download_statistics] over the items of
    [validation_results]. *)
Fixpoint statistics_loop (path : string) (software_data : odict software_info)
    (validation_results : odict (bool * report)) (stats : statistics)
  : M statistics :=
  match validation_results with
  | [] => ret stats
  | (software_name, (is_valid, msg)) :: later =>
      match odict_get software_name software_data with
      | Some software_info =>
          let! filename := pure_call (_generate_filename software_info) in
          let file_path := joinpath path filename in
          let! present := path_exists file_path in
          if present then
            let! file_size := stat_size file_path in
            statistics_loop path software_data later
              (count_file stats software_name filename file_size is_valid msg)
          else statistics_loop path software_data later stats
      | None => statistics_loop path software_data later stats
      end
  end.

(** [SoftwareManagerV3.get_download_statistics(download_path)] with
    [self.software_data] given by its items. *)
Definition get_download_statistics (software_data : odict software_info)
    (download_path : string) : M statistics :=
  let! present := path_exists download_path in
  if negb present then ret empty_statistics
  else
    let! validation_results :=
      validate_existing_downloads download_path software_data in
    statistics_loop download_path software_data validation_results
      empty_statistics.

End Executables.

(* ===================================================================== *)
(** * The validator of the wizard ([wizard_ui_v3.py]) *)
(* ===================================================================== *)

Module Wizard.

(** The dataclass [DownloadItem]. *)
Record DownloadItem : Type := {
  item_name : string;
  item_url : string;
  item_size : Z;
  item_checksum : string;
  item_category : string;
  item_description : string;
  item_version : string
}.

Section WizardValidator.
Context {L : PyLibrary}.

(** [download_path / f"{item.name}.exe"] *)
Definition item_path (download_path : string) (item : DownloadItem)
  : string :=
  joinpath download_path (item_name item +:+ ".exe").

(** [FileValidator.validate_file]: whether the path exists. *)
Definition validate_file (file_path : string) : M bool :=
  let! present := path_exists file_path in
  if negb present then ret false else ret true.

Fixpoint validate_directory_loop (download_path : string)
    (items : list DownloadItem) (results : odict bool) : M (odict bool) :=
  match items with
  | [] => ret results
  | item :: later =>
      let! ok := validate_file (item_path download_path item) in
      validate_directory_loop download_path later
        (odict_set (item_name item) ok results)
  end.

Definition validate_directory (download_path : string)
    (items : list DownloadItem) : M (odict bool) :=
  validate_directory_loop download_path items [].

Fixpoint auto_repair_loop (download_path : string)
    (failed_items : list DownloadItem) (repaired : list string)
  : M (list string) :=
  match failed_items with
  | [] => ret repaired
  | item :: later =>
      let! repaired :=
        try_except
          (let file_path := item_path download_path item in
           let! present := path_exists file_path in
           run! (if present then unlink false file_path else ret tt) in
           ret (repaired ++ [item_name item])%list)
          (fun _ => ret repaired) in
      auto_repair_loop download_path later repaired
  end.

Definition auto_repair (download_path : string)
    (failed_items : list DownloadItem) : M (list string) :=
  auto_repair_loop download_path failed_items [].

End WizardValidator.

(** The enumeration [PageType]. *)
Inductive PageType : Type :=
| WELCOME | SOFTWARE_SELECTION | DOWNLOAD_SETTINGS | CONNECTIVITY_CHECK
| DOWNLOAD_PROGRESS | VALIDATION | COMPLETION | AGREEMENT | PRIVACY.

(** The attributes of [ModernSoftwareManager] that
    [can_proceed_to_page] reads. *)
Record steps : Type := {
  current_page : PageType;
  software_selected : bool;
  download_path_set : bool;
  connectivity_checked : bool;
  download_completed : bool;
  validation_completed : bool
}.

Definition page_flow : list PageType :=
  [WELCOME; SOFTWARE_SELECTION; DOWNLOAD_SETTINGS; CONNECTIVITY_CHECK;
   DOWNLOAD_PROGRESS; VALIDATION; COMPLETION].

Definition page_eqb (a b : PageType) : bool :=
  match a, b with
  | WELCOME, WELCOME | SOFTWARE_SELECTION, SOFTWARE_SELECTION
  | DOWNLOAD_SETTINGS, DOWNLOAD_SETTINGS
  | CONNECTIVITY_CHECK, CONNECTIVITY_CHECK
  | DOWNLOAD_PROGRESS, DOWNLOAD_PROGRESS | VALIDATION, VALIDATION
  | COMPLETION, COMPLETION | AGREEMENT, AGREEMENT | PRIVACY, PRIVACY => true
  | _, _ => false
  end.

(** [flow.index(page) if page in flow else 0] *)
Fixpoint index_or_zero (page : PageType) (flow : list PageType) : nat :=
  match flow with
  | [] => 0
  | p :: rest =>
      if page_eqb p page then 0
      else if existsb (page_eqb page) rest then Datatypes.S (index_or_zero page rest)
      else 0
  end.

(** The reasons [can_proceed_to_page] gives. *)
Inductive refusal : Type :=
| NoRefusal           (* the empty string *)
| NeedSoftware        (* 请先选择要下载的软件 *)
| NeedPath            (* 请先设置有效的下载路径 *)
| NeedConnectivity    (* 请先完成连接性检查 *)
| NeedDownload        (* 请先完成软件下载 *)
| NeedValidation.     (* 请先完成文件校验 *)

Definition can_proceed_to_page (self : steps) (target_page : PageType)
  : bool * refusal :=
  let current_index := index_or_zero (current_page self) page_flow in
  let target_index := index_or_zero target_page page_flow in
  if (target_index <=? current_index)%nat then (true, NoRefusal)
  else
    match target_page with
    | DOWNLOAD_SETTINGS =>
        if negb (software_selected self) then (false, NeedSoftware)
        else (true, NoRefusal)
    | CONNECTIVITY_CHECK =>
        if negb (software_selected self) then (false, NeedSoftware)
        else if negb (download_path_set self) then (false, NeedPath)
        else (true, NoRefusal)
    | DOWNLOAD_PROGRESS =>
        if negb (software_selected self) then (false, NeedSoftware)
        else if negb (download_path_set self) then (false, NeedPath)
        else if negb (connectivity_checked self) then (false, NeedConnectivity)
        else (true, NoRefusal)
    | VALIDATION =>
        if negb (software_selected self) then (false, NeedSoftware)
        else if negb (download_path_set self) then (false, NeedPath)
        else if negb (connectivity_checked self) then (false, NeedConnectivity)
        else if negb (download_completed self) then (false, NeedDownload)
        else (true, NoRefusal)
    | COMPLETION =>
        if negb (software_selected self) then (false, NeedSoftware)
        else if negb (download_path_set self) then (false, NeedPath)
        else if negb (connectivity_checked self) then (false, NeedConnectivity)
        else if negb (download_completed self) then (false, NeedDownload)
        else if negb (validation_completed self) then (false, NeedValidation)
        else (true, NoRefusal)
    | _ => (true, NoRefusal)
    end.

End Wizard.

(* ===================================================================== *)
(** * Vocabulary of the further properties *)
(* ===================================================================== *)

(** The durations of the sleeps in a run of events, in order. *)
Definition sleeps (evs : list event) : list Z :=
  omap (fun ev => match ev with EvSleep s => Some s | _ => None end) evs.


(** The record asks for no check of the content: no size, and no hash or
    an empty one. *)
Definition unchecked (info : software_info) : Prop :=
  si_size info = None /\ (si_hash info = None \/ si_hash info = Some "").

(** Every file other than the one at [path] is the same in both
    worlds. *)
Definition same_files_except (path : string) (w w' : world) : Prop :=
  forall q : string, q <> path -> files w' !! q = files w !! q.

(** A computation changes no file other than the one at [path]. *)
Definition touches_only {A} (path : string) (m : M A) : Prop :=
  forall w : world, same_files_except path w (snd (m w)).

(** A computation only appends to the trace, and only events that
    satisfy [ok]. *)
Definition only_events {A} (ok : event -> Prop) (m : M A) : Prop :=
  forall w : world,
    exists evs : list event,
      trace (snd (m w)) = (trace w ++ evs)%list /\ Forall ok evs.

(** A computation only appends to the trace, and at most [n] GETs. *)
Definition issues_at_most {A} (n : nat) (m : M A) : Prop :=
  forall w : world,
    exists evs : list event,
      trace (snd (m w)) = (trace w ++ evs)%list /\ (http_gets evs <= n)%nat.

(** The event is no sleep. *)
Definition not_sleep (ev : event) : Prop :=
  match ev with EvSleep _ => False | _ => True end.

(** The event is no unlink and no write of a path other than [path]. *)
Definition about (path : string) (ev : event) : Prop :=
  match ev with
  | EvUnlink q | EvWrite q _ => q = path
  | _ => True
  end.

(** The sum of the sizes listed in [stats["files"]]. *)
Definition listed_size (l : list file_stat) : Z :=
  foldr (fun f acc => fs_size f + acc) 0 l.

(** The number of listed files reported valid. *)
Definition listed_valid (l : list file_stat) : Z :=
  Z.of_nat (length (List.filter fs_valid l)).

(** The counters of [stats] agree with the list [stats["files"]]. *)
Definition consistent (st : statistics) : Prop :=
  total_files st = Z.of_nat (length (stat_files st)) /\
  valid_files st + invalid_files st = total_files st /\
  valid_files st = listed_valid (stat_files st) /\
  total_size st = listed_size (stat_files st).

(** From [w] to [w'] the directories stay and files are only removed, and
    only files that may be unlinked. *)
Definition only_removes (w w' : world) : Prop :=
  dirs w' = dirs w /\
  forall q : string,
    files w' !! q = files w !! q \/
    (files w' !! q = None /\
     exists f : file, files w !! q = Some f /\ f_removable f = true).

(** No path is a file and a directory at once. *)
Definition well_formed (w : world) : Prop :=
  forall q : string, is_Some (files w !! q) -> q ∉ dirs w.

(* ===================================================================== *)
(** * More of the reference library, more samples *)
(* ===================================================================== *)

Module ReferenceSuffix.

(** [PurePosixPath(p).suffix] of CPython 3.11: with [name] the last
    component and [i = name.rfind('.')], [name[i:]] when
    [0 < i < len(name) - 1], else the empty string. *)
Definition posix_suffix (p : string) : string :=
  match Reference.posix_basename p with
  | EmptyString => EmptyString
  | String _ rest =>
      let s := Py.from_last_dot rest in
      if (1 <? String.length s)%nat then s else EmptyString
  end.

#[export] Instance path_suffix : PathSuffix := {| suffix := posix_suffix |}.

End ReferenceSuffix.

Module MoreSamples.

(** A record with neither hash nor size. *)
Definition plain : software_info :=
  {| si_name := "Plain"; si_url := Some "https://example.org/plain.zip";
     si_filename := None; si_hash := None; si_size := None |}.

Definition plain_path : string := "/dl/plain.zip".

(** A server whose transfer breaks off after the first byte. *)
Definition breaks_off : nat -> string -> http_response :=
  fun _ _ => Streams [[Byte.x61]] (Some RequestException).

Definition broken_transfer_world : world :=
  {| files := ∅; dirs := {["/dl"]}; stat_fault := fun _ => None;
     dir_size := fun _ => 4096;
     deny := fun _ => None; network := breaks_off; trace := [] |}.



(** No directory [/dl], and creating anything is refused. *)
Definition readonly_world : world :=
  {| files := ∅; dirs := ∅; stat_fault := fun _ => None;
     dir_size := fun _ => 4096;
     deny := fun _ => Some PermissionError; network := Samples.serves_ab;
     trace := [] |}.

(** The target of [Samples.tool] cannot be read. *)
Definition unreadable_world : world :=
  Samples.world_with
    {[ Samples.tool_path :=
         {| f_data := [Byte.x61; Byte.x62]; f_readable := false;
            f_removable := true |} ]}.

(** An installer with the [MZ] header at the place [plain] is stored. *)
Definition installer_world : world :=
  Samples.world_with
    {[ plain_path := fresh_file [Byte.x4d; Byte.x5a; Byte.x00] ]}.

Definition plain_catalog : odict software_info := [("Plain", plain)].

Definition item (n : string) : Wizard.DownloadItem :=
  {| Wizard.item_name := n; Wizard.item_url := ""; Wizard.item_size := 0;
     Wizard.item_checksum := ""; Wizard.item_category := "";
     Wizard.item_description := ""; Wizard.item_version := "" |}.

Definition wizard_world : world :=
  Samples.world_with {[ "/dl/a.exe" := fresh_file [Byte.x00] ]}.

Definition all_done : Wizard.steps :=
  {| Wizard.current_page := Wizard.WELCOME;
     Wizard.software_selected := true; Wizard.download_path_set := true;
     Wizard.connectivity_checked := true; Wizard.download_completed := true;
     Wizard.validation_completed := true |}.

End MoreSamples.

(* ===================================================================== *)
(** * Properties of filename derivation *)
(* ===================================================================== *)

Lemma truthy_true_iff (s : string) : Py.truthy s = true <-> s <> "".
Proof. destruct s; simpl; split; intros H; congruence. Qed.

Lemma truthy_false_iff (s : string) : Py.truthy s = false <-> s = "".
Proof. destruct s; simpl; split; intros H; congruence. Qed.

(** What [List.find] returns is the first element that passes the test. *)
Lemma find_first {A} (f : A -> bool) (l : list A) (x : A) :
  List.find f l = Some x ->
  exists i : nat,
    l !! i = Some x /\ f x = true /\
    forall (j : nat) (y : A), (j < i)%nat -> l !! j = Some y -> f y = false.
Proof.
  induction l as [|a l IH]; simpl; [discriminate|].
  destruct (f a) eqn:Ha.
  - intros [= ->]. exists 0%nat. repeat split; [done|]. intros j y Hj. lia.
  - intros Hfind. destruct (IH Hfind) as (i & Hi & Hx & Hbefore).
    exists (S i). repeat split; [done..|].
    intros [|j] y Hj Hy; simpl in Hy.
    + by injection Hy as <-.
    + apply (Hbefore j); [lia|done].
Qed.

Lemma find_none {A} (f : A -> bool) (l : list A) (y : A) :
  List.find f l = None -> y ∈ l -> f y = false.
Proof.
  induction l as [|a l IH]; simpl; intros Hfind Hy.
  - by apply elem_of_nil in Hy.
  - destruct (f a) eqn:Ha; [discriminate|].
    apply elem_of_cons in Hy as [->|Hy]; [done|by apply IH].
Qed.

Lemma found_ext_guessed (url_path : string) :
  guessed url_path (default ".exe" (found_ext url_path)).
Proof.
  unfold guessed, found_ext.
  destruct (List.find _ common_extensions) as [ext|] eqn:Hfind; simpl.
  - left. by apply find_first in Hfind.
  - right. split; [done|]. intros other Hother.
    by apply (find_none _ _ other) in Hfind.
Qed.

Lemma guessed_allowed (url_path ext : string) :
  guessed url_path ext -> ext ∈ common_extensions.
Proof.
  intros [(i & Hi & _)|[-> _]].
  - by eapply list_elem_of_lookup_2.
  - unfold common_extensions. set_solver.
Qed.

Lemma safe_name_length (s : string) :
  String.length (safe_name s) = String.length s.
Proof.
  unfold safe_name. induction s as [|c s IH]; simpl; [done|by rewrite IH].
Qed.

Lemma safe_name_get (s : string) (i : nat) :
  String.get i (safe_name s) = safe_char <$> String.get i s.
Proof.
  unfold safe_name. revert i.
  induction s as [|c s IH]; intros [|i]; simpl; done.
Qed.

Lemma from_last_dot_has_dot (s : string) :
  Py.from_last_dot s <> "" -> Py.char_in "."%char s = true.
Proof.
  induction s as [|c s IH]; simpl; [done|].
  destruct (Py.char_in "."%char s); [by rewrite orb_true_r|].
  case_bool_decide as Hc; [|done]. subst c. intros _.
  by rewrite bool_decide_eq_true_2.
Qed.

(** A recognizable extension passes the test of the code: the basename is
    not empty and has a dot. *)
Lemma has_extension_dotted (b : string) :
  has_extension b = true ->
  Py.truthy b = true /\ Py.char_in "."%char b = true.
Proof.
  destruct b as [|c rest]; simpl; [discriminate|]. intros Hlen.
  split; [done|]. rewrite from_last_dot_has_dot; [apply orb_true_r|].
  intros Hnone. by rewrite Hnone in Hlen.
Qed.

Lemma truthy_trailing_dot (stem : string) : Py.truthy (stem +:+ ".") = true.
Proof. by destruct stem. Qed.

Lemma char_in_trailing_dot (stem : string) :
  Py.char_in "."%char (stem +:+ ".") = true.
Proof.
  induction stem as [|c stem IH]; simpl; [done|].
  rewrite IH. apply orb_true_r.
Qed.

Lemma from_last_dot_trailing_dot (stem : string) :
  Py.from_last_dot (stem +:+ ".") = ".".
Proof.
  induction stem as [|c stem IH]; simpl; [done|].
  by rewrite char_in_trailing_dot.
Qed.

Lemma has_extension_trailing_dot (stem : string) :
  has_extension (stem +:+ ".") = false.
Proof.
  destruct stem as [|c stem]; simpl; [done|].
  by rewrite from_last_dot_trailing_dot.
Qed.

Lemma last_char_app (s t : string) :
  t <> "" -> Py.last_char (s +:+ t) = Py.last_char t.
Proof.
  intros Ht. induction s as [|c s IH]; [done|].
  assert (s +:+ t <> "") as Hst by (destruct s, t; done).
  change (String c s +:+ t) with (String c (s +:+ t)).
  cbn [Py.last_char]. rewrite IH. by destruct (s +:+ t).
Qed.

Lemma last_char_trailing_dot (stem : string) :
  Py.last_char (stem +:+ ".") = Some "."%char.
Proof. by rewrite last_char_app. Qed.

Section FilenameProperties.
Context {L : PyLibrary}.

Lemma generate_filename_explicit (info : software_info) (f : string) :
  si_filename info = Some f -> f <> "" -> _generate_filename info = Ok f.
Proof.
  intros Hf Hne. unfold _generate_filename. rewrite Hf. simpl.
  apply truthy_true_iff in Hne. by rewrite Hne.
Qed.

Lemma generate_filename_no_filename (info : software_info) :
  no_filename info ->
  _generate_filename info =
    let url := default "" (si_url info) in
    if Py.truthy url && negb (bool_decide (url = "builtin")) then
      match urlparse_path url with
      | Raise e => Raise e
      | Ok url_path =>
          if Py.truthy (basename url_path)
             && Py.char_in "."%char (basename url_path)
          then Ok (basename url_path)
          else Ok (safe_name (si_name info)
                   +:+ default ".exe" (found_ext url_path))
      end
    else Ok (safe_name (si_name info) +:+ ".exe").
Proof.
  intros [Hf|Hf]; unfold _generate_filename; rewrite Hf; simpl;
    destruct (Py.truthy _ && negb _); try done;
    destruct (urlparse_path _); try done;
    destruct (Py.truthy _ && Py.char_in _ _); try done;
    by destruct (found_ext _).
Qed.

(** Without a usable [filename], a URL that is looked at and parses
    decides by the basename of its path. *)
Lemma generate_filename_parsed (info : software_info) (u url_path : string) :
  no_filename info -> si_url info = Some u ->
  u <> "" -> u <> "builtin" -> urlparse_path u = Ok url_path ->
  _generate_filename info =
    if Py.truthy (basename url_path)
       && Py.char_in "."%char (basename url_path)
    then Ok (basename url_path)
    else Ok (safe_name (si_name info)
             +:+ default ".exe" (found_ext url_path)).
Proof.
  intros Hf Hu Hne Hnb Hparse.
  rewrite (generate_filename_no_filename _ Hf), Hu. simpl.
  apply truthy_true_iff in Hne. rewrite Hne.
  rewrite bool_decide_eq_false_2 by done. simpl. by rewrite Hparse.
Qed.

Lemma generate_filename_no_url (info : software_info) :
  no_filename info -> no_url info ->
  _generate_filename info = Ok (safe_name (si_name info) +:+ ".exe").
Proof.
  intros Hf Hu. rewrite (generate_filename_no_filename _ Hf).
  by destruct Hu as [->|[->| ->]].
Qed.

(** C6, as amended: the sources of the filename, in the order the code
    tries them.  A non-empty [filename] value is returned as it is.
    Without one, a URL that is non-empty and not [builtin] and that
    [urlparse] accepts is looked at: when the basename of its path has a
    recognizable extension, the basename is the filename.  When that
    basename is empty or has no dot, and when there is no URL to look
    at, the filename is the software name, in which every character that
    is neither alphanumeric nor one of [. _ -] and the space has been
    replaced by an underscore (the length is unchanged), followed by the
    first extension of the allow-list that occurs in the lower-cased URL
    path, or by [.exe] when there is none or no URL was looked at. *)
Theorem generate_filename_cases (info : software_info) :
  (forall f : string,
      si_filename info = Some f -> f <> "" ->
      _generate_filename info = Ok f)
  /\ (forall u url_path : string,
        no_filename info -> si_url info = Some u ->
        u <> "" -> u <> "builtin" -> urlparse_path u = Ok url_path ->
        has_extension (basename url_path) = true ->
        _generate_filename info = Ok (basename url_path))
  /\ (forall u url_path : string,
        no_filename info -> si_url info = Some u ->
        u <> "" -> u <> "builtin" -> urlparse_path u = Ok url_path ->
        basename url_path = ""
        \/ Py.char_in "."%char (basename url_path) = false ->
        exists ext : string,
          guessed url_path ext /\
          _generate_filename info = Ok (safe_name (si_name info) +:+ ext))
  /\ (no_filename info -> no_url info ->
      _generate_filename info = Ok (safe_name (si_name info) +:+ ".exe"))
  /\ (forall s : string,
        String.length (safe_name s) = String.length s /\
        forall (i : nat) (c : ascii),
          String.get i s = Some c ->
          String.get i (safe_name s)
          = Some (if Py.isalnum c || Py.char_in c "._- "
                  then c else "_"%char)).
Proof.
  split; [apply generate_filename_explicit|].
  split; [|split; [|split; [apply generate_filename_no_url|]]].
  - intros u url_path Hf Hu Hne Hnb Hparse Hext.
    apply has_extension_dotted in Hext as [Hb Hdot].
    rewrite (generate_filename_parsed _ _ _ Hf Hu Hne Hnb Hparse).
    by rewrite Hb, Hdot.
  - intros u url_path Hf Hu Hne Hnb Hparse Hbase.
    rewrite (generate_filename_parsed _ _ _ Hf Hu Hne Hnb Hparse).
    assert (Py.truthy (basename url_path)
            && Py.char_in "."%char (basename url_path) = false) as ->.
    { destruct Hbase as [Hb|Hb]; rewrite Hb; [done|apply andb_false_r]. }
    eexists. split; [apply found_ext_guessed|done].
  - intros s. split; [apply safe_name_length|].
    intros i c Hc. by rewrite safe_name_get, Hc.
Qed.

(** C7: a record without a usable [filename] whose URL path has a
    basename that ends with a dot ([setup.], also [.] and [..]) gets that
    basename as its filename, although it has no extension: the test for
    an extension looks for a dot anywhere in the basename.  The filename
    then ends with no extension of the allow-list. *)
Theorem dotted_basename_kept (info : software_info)
    (u url_path stem : string) :
  no_filename info -> si_url info = Some u ->
  u <> "" -> u <> "builtin" -> urlparse_path u = Ok url_path ->
  basename url_path = stem +:+ "." ->
  _generate_filename info = Ok (stem +:+ ".") /\
  has_extension (stem +:+ ".") = false /\
  forall ext : string,
    ext ∈ common_extensions -> ~ Py.ends_with (stem +:+ ".") ext.
Proof.
  intros Hf Hu Hne Hnb Hparse Hbase.
  split; [|split].
  - rewrite (generate_filename_parsed _ _ _ Hf Hu Hne Hnb Hparse), Hbase.
    by rewrite truthy_trailing_dot, char_in_trailing_dot.
  - apply has_extension_trailing_dot.
  - intros ext Hext [stem' Heq].
    assert (Py.last_char (stem' +:+ ext) = Some "."%char) as Hlast
      by (by rewrite <- Heq, last_char_trailing_dot).
    assert (ext <> "") as Hnonempty.
    { intros ->. unfold common_extensions in Hext.
      repeat (apply elem_of_cons in Hext as [Hext|Hext]; [discriminate|]).
      by apply elem_of_nil in Hext. }
    rewrite last_char_app in Hlast by done.
    unfold common_extensions in Hext.
    repeat (apply elem_of_cons in Hext as [->|Hext]; [discriminate|]).
    by apply elem_of_nil in Hext.
Qed.

(** C10: a non-empty [filename] value is the derived filename, character
    for character, whatever it contains and whatever the URL is; it is
    the name the download is stored under in the target directory. *)
Theorem explicit_filename_verbatim (info : software_info) (f : string) :
  si_filename info = Some f -> f <> "" ->
  _generate_filename info = Ok f /\
  forall (download_path : string) (max_retries : Z) (w : world),
    auto_correct_download info download_path max_retries w
    = attempts info (joinpath download_path f) max_retries
        (Py.range max_retries) w.
Proof.
  intros Hf Hne.
  pose proof (generate_filename_explicit _ _ Hf Hne) as Hgen.
  split; [done|]. intros download_path max_retries w.
  unfold auto_correct_download, bind, pure_call. by rewrite Hgen.
Qed.

End FilenameProperties.

(** C6, as stated, fails: the code turns the name [a+b] into [a_b], where
    stripping yields [ab]; and it treats an empty [filename] value as no
    filename at all. *)
Lemma stated_filename_differs :
  @_generate_filename Reference.library Samples.plus_name = Ok "a_b.exe"
  /\ @stated_filename Reference.library Samples.plus_name = Ok "ab.exe"
  /\ @_generate_filename Reference.library Samples.empty_filename
     = Ok "setup.exe"
  /\ @stated_filename Reference.library Samples.empty_filename = Ok "".
Proof. repeat split; vm_compute; reflexivity. Qed.

Lemma dotted_basename_kept_witness :
  @_generate_filename Reference.library Samples.trailing_dot = Ok "setup."
  /\ has_extension "setup." = false
  /\ forall ext : string,
      ext ∈ common_extensions -> ~ Py.ends_with "setup." ext.
Proof.
  apply (@dotted_basename_kept Reference.library Samples.trailing_dot
           "https://example.org/files/setup." "/files/setup." "setup").
  - by left.
  - reflexivity.
  - discriminate.
  - discriminate.
  - vm_compute. reflexivity.
  - vm_compute. reflexivity.
Defined.

Lemma explicit_filename_verbatim_witness :
  @_generate_filename Reference.library Samples.explicit_name = Ok "my file?"
  /\ forall (download_path : string) (max_retries : Z) (w : world),
      @auto_correct_download Reference.library Samples.explicit_name
        download_path max_retries w
      = @attempts Reference.library Samples.explicit_name
          (@joinpath Reference.library download_path "my file?") max_retries
          (Py.range max_retries) w.
Proof.
  apply (@explicit_filename_verbatim Reference.library
           Samples.explicit_name "my file?"); [reflexivity|discriminate].
Defined.

(* ===================================================================== *)
(** * Properties of the validator *)
(* ===================================================================== *)

Lemma path_exists_file (w : world) (path : string) (f : file) :
  files w !! path = Some f -> found w path.
Proof. intros Hf. unfold found, path_exists. by rewrite Hf. Qed.

Lemma path_exists_false (w : world) (path : string) :
  ~ present w path -> path_exists path w = (Ok false, w).
Proof.
  intros Hno. unfold path_exists, present in *.
  destruct (files w !! path) as [f|]; [exfalso; eauto|].
  rewrite bool_decide_eq_false_2; [done|tauto].
Qed.

Lemma path_exists_refused (w : world) (path : string) (e : exn) :
  refused w path e -> path_exists path w = (Raise e, w).
Proof.
  intros (Hf & Hd & He). unfold path_exists.
  by rewrite Hf, bool_decide_eq_true_2, He.
Qed.

(** The three answers of [path.exists()]. *)
Lemma path_exists_cases (w : world) (path : string) :
  (found w path /\ present w path /\ examinable w path)
  \/ (path_exists path w = (Ok false, w) /\ ~ present w path)
  \/ (exists e : exn, path_exists path w = (Raise e, w) /\ refused w path e).
Proof.
  unfold found, path_exists, present, examinable, refused.
  destruct (files w !! path) as [f|] eqn:Hf.
  { left. split; [done|]. split; [eauto|]. by intros e [? _]. }
  case_bool_decide as Hd.
  - destruct (stat_fault w path) as [e|] eqn:He.
    + right. right. by exists e.
    + left. split; [done|]. split; [by right|]. by intros e (_ & _ & ?).
  - right. left. split; [done|]. by intros [[f ?]|?].
Qed.

Lemma refused_present (w : world) (path : string) (e : exn) :
  refused w path e -> present w path.
Proof. intros (_ & Hd & _). by right. Qed.

Lemma open_read_unchanged (path : string) (w : world) :
  exists r, open_read path w = (r, w).
Proof. unfold open_read. repeat case_match; eauto. Qed.

(** What [exists()] has found, [stat()] sizes. *)
Lemma stat_size_found (path : string) (w : world) :
  found w path -> exists a : Z, stat_size path w = (Ok a, w).
Proof.
  unfold found, path_exists, stat_size.
  destruct (files w !! path) as [f|]; [eauto|].
  case_bool_decide; [|discriminate].
  destruct (stat_fault w path); [discriminate|eauto].
Qed.

Lemma stat_size_file (path : string) (w : world) (f : file) :
  files w !! path = Some f ->
  stat_size path w = (Ok (Z.of_nat (length (f_data f))), w).
Proof. intros Hf. unfold stat_size. by rewrite Hf. Qed.

Section ValidatorProperties.
Context {L : PyLibrary}.

Lemma calculate_file_hash_total (path : string) (w : world) :
  exists d : string, calculate_file_hash path w = (Ok d, w).
Proof.
  unfold calculate_file_hash, try_except, bind, ret.
  destruct (open_read_unchanged path w) as [[data|e] ->]; eauto.
Qed.

(** Evaluating the validator on a path that [exists()] has found. *)
Ltac step_validate Hp :=
  unfold validate_file_integrity, bind;
  rewrite Hp; simpl;
  unfold try_except, ret.

Lemma validate_missing (path : string) (expected_hash : option string)
    (expected_size : option Z) (w : world) :
  ~ present w path ->
  validate_file_integrity path expected_hash expected_size w
  = (Ok (false, MsgFileMissing), w).
Proof.
  intros Hp. unfold validate_file_integrity, bind at 1.
  by rewrite (path_exists_false _ _ Hp).
Qed.

(** The call of [exists()] stands before the [try]: what it raises
    leaves the validator. *)
Lemma validate_refused (path : string) (expected_hash : option string)
    (expected_size : option Z) (w : world) (e : exn) :
  refused w path e ->
  validate_file_integrity path expected_hash expected_size w = (Raise e, w).
Proof.
  intros Href. unfold validate_file_integrity, bind at 1.
  by rewrite (path_exists_refused _ _ _ Href).
Qed.

Lemma validate_size_mismatch (path : string)
    (expected_hash : option string) (w : world) (n a : Z) :
  found w path -> stat_size path w = (Ok a, w) -> a <> n ->
  validate_file_integrity path expected_hash (Some n) w
  = (Ok (false, MsgSizeMismatch n a), w).
Proof.
  intros Hp Hstat Hne. step_validate Hp.
  rewrite Hstat. by rewrite bool_decide_eq_true_2.
Qed.

(** Past the size check, the size plays no part any more. *)
Lemma validate_size_passes (path : string) (expected_hash : option string)
    (expected_size : option Z) (w : world) :
  found w path -> size_passes w path expected_size ->
  validate_file_integrity path expected_hash expected_size w
  = validate_file_integrity path expected_hash None w.
Proof.
  intros Hp Hsize. destruct expected_size as [n|]; [|done].
  step_validate Hp. rewrite (Hsize n eq_refl).
  rewrite bool_decide_eq_false_2 by (intros Hne; by apply Hne). done.
Qed.

Lemma validate_hash_mismatch (path : string) (w : world) (e d : string) :
  found w path -> e <> "" ->
  calculate_file_hash path w = (Ok d, w) -> Py.lower d <> Py.lower e ->
  validate_file_integrity path (Some e) None w
  = (Ok (false, MsgHashMismatch e d), w).
Proof.
  intros Hp He Hcalc Hne. step_validate Hp.
  apply truthy_true_iff in He. rewrite He, Hcalc.
  by rewrite bool_decide_eq_true_2.
Qed.

Lemma validate_checks_pass (path : string) (expected_hash : option string)
    (w : world) :
  found w path -> hash_passes w path expected_hash ->
  validate_file_integrity path expected_hash None w
  = match open_read path w with
    | (Ok _, _) => (Ok (true, MsgFileOk), w)
    | (Raise x, _) => (Ok (false, MsgValidationFailed x), w)
    end.
Proof.
  intros Hp Hhash. step_validate Hp.
  destruct (open_read_unchanged path w) as [r Hr].
  destruct (Py.truthy (default "" expected_hash)) eqn:Htruthy.
  - destruct expected_hash as [e|]; [|done]. simpl in *.
    apply truthy_true_iff in Htruthy.
    destruct (Hhash e eq_refl Htruthy) as (d & Hcalc & Heq).
    rewrite Hcalc.
    rewrite bool_decide_eq_false_2 by (intros Hne; by apply Hne).
    rewrite Hr. by destruct r.
  - rewrite Hr. by destruct r.
Qed.

Lemma validate_hash_rejects (path : string) (expected_hash : option string)
    (expected_size : option Z) (w : world) (e d : string) :
  found w path -> size_passes w path expected_size ->
  expected_hash = Some e -> e <> "" ->
  calculate_file_hash path w = (Ok d, w) -> Py.lower d <> Py.lower e ->
  validate_file_integrity path expected_hash expected_size w
  = (Ok (false, MsgHashMismatch e d), w).
Proof.
  intros Hp Hsize -> He Hcalc Hne.
  rewrite validate_size_passes by done. by apply validate_hash_mismatch.
Qed.

Lemma validate_passes (path : string) (expected_hash : option string)
    (expected_size : option Z) (w : world) :
  found w path -> size_passes w path expected_size ->
  hash_passes w path expected_hash ->
  validate_file_integrity path expected_hash expected_size w
  = match open_read path w with
    | (Ok _, _) => (Ok (true, MsgFileOk), w)
    | (Raise x, _) => (Ok (false, MsgValidationFailed x), w)
    end.
Proof.
  intros Hp Hsize Hh. rewrite validate_size_passes by done.
  by apply validate_checks_pass.
Qed.

(** Once [exists()] has answered true, the validator answers with a pair
    and leaves the world as it found it. *)
Lemma validate_found (path : string) (expected_hash : option string)
    (expected_size : option Z) (w : world) :
  found w path ->
  exists (ok : bool) (msg : message),
    validate_file_integrity path expected_hash expected_size w
    = (Ok (ok, msg), w).
Proof.
  intros Hp.
  destruct (stat_size_found _ _ Hp) as [a Hstat].
  assert (size_passes w path expected_size
          \/ exists n, expected_size = Some n /\ a <> n) as [Hsize|Hsize].
  { destruct expected_size as [n|]; [|left; by intros n].
    destruct (decide (a = n)) as [->|Hne]; [|right; eauto].
    left. by intros n' [= <-]. }
  2:{ destruct Hsize as (n & -> & Hne).
      rewrite (validate_size_mismatch _ _ _ n a) by done. eauto. }
  destruct (calculate_file_hash_total path w) as [d Hcalc].
  assert (hash_passes w path expected_hash
          \/ exists e, expected_hash = Some e /\ e <> ""
                       /\ Py.lower d <> Py.lower e) as [Hh|Hh].
  { destruct expected_hash as [e|]; [|left; by intros e].
    destruct (decide (Py.lower d = Py.lower e)) as [Heq|Hne].
    - left. intros e' [= <-] _. eauto.
    - destruct (decide (e = "")) as [->|He]; [|right; eauto].
      left. by intros e' [= <-]. }
  - rewrite validate_passes by done.
    destruct (open_read path w) as [[data|x] w']; eauto.
  - destruct Hh as (e & He & Hne & Hlow).
    erewrite validate_hash_rejects by done. eauto.
Qed.

(** The validator either answers with a pair or raises what [exists()]
    raised; the world stays as it was. *)
Lemma validate_answers (path : string) (expected_hash : option string)
    (expected_size : option Z) (w : world) :
  (exists (ok : bool) (msg : message),
      validate_file_integrity path expected_hash expected_size w
      = (Ok (ok, msg), w))
  \/ (exists e : exn,
        refused w path e /\
        validate_file_integrity path expected_hash expected_size w
        = (Raise e, w)).
Proof.
  destruct (path_exists_cases w path)
    as [(Hfound & _)|[[_ Hno]|(e & _ & Href)]].
  - left. by apply validate_found.
  - left. rewrite validate_missing by done. eauto.
  - right. exists e. split; [done|]. by apply validate_refused.
Qed.

(** A verdict on something that is there means that [exists()] found
    it. *)
Lemma answered_found (path : string) (expected_hash : option string)
    (expected_size : option Z) (w w' : world) (r : bool * message) :
  validate_file_integrity path expected_hash expected_size w = (Ok r, w') ->
  present w path -> found w path.
Proof.
  intros Hv Hp.
  destruct (path_exists_cases w path)
    as [(Hfound & _)|[[_ Hno]|(e & _ & Href)]]; [done|done|].
  rewrite (validate_refused _ _ _ _ _ Href) in Hv. discriminate.
Qed.

(** C1, as amended: for a file on disk and a non-empty expected hash that
    differs from the digest computed from the file (compared in lower
    case), the validator answers not-ok and leaves the world as it is.
    The message names the hash mismatch, with both digests, when the
    size check lets the file through (no expected size, or the size of
    the file); when an expected size is given that is not the size of
    the file, the size is what the message names, the comparison of the
    sizes coming first. *)
Theorem hash_mismatch_rejected (path : string) (f : file) (e d : string)
    (expected_size : option Z) (w : world) :
  files w !! path = Some f ->
  e <> "" ->
  calculate_file_hash path w = (Ok d, w) ->
  Py.lower d <> Py.lower e ->
  (size_passes w path expected_size ->
   validate_file_integrity path (Some e) expected_size w
   = (Ok (false, MsgHashMismatch e d), w))
  /\ (forall n : Z,
        expected_size = Some n -> n <> Z.of_nat (length (f_data f)) ->
        validate_file_integrity path (Some e) expected_size w
        = (Ok (false, MsgSizeMismatch n (Z.of_nat (length (f_data f)))), w)).
Proof.
  intros Hf He Hcalc Hne.
  pose proof (path_exists_file _ _ _ Hf) as Hfound. split.
  - intros Hsize. by apply (validate_hash_rejects _ _ _ _ e d).
  - intros n -> Hn.
    apply validate_size_mismatch; [done|by apply stat_size_file|done].
Qed.

End ValidatorProperties.

(** C1, as stated, fails: the file holds [ac] where the hash [AB] is
    expected, and two bytes where three are expected; the answer names
    the sizes and no hash. *)
Lemma size_mismatch_hides_hash :
  @calculate_file_hash Reference.library Samples.tool_path
    Samples.wrong_hash_world = (Ok "ac", Samples.wrong_hash_world)
  /\ Py.lower "ac" <> Py.lower "AB"
  /\ @validate_file_integrity Reference.library Samples.tool_path
       (Some "AB") (Some 3) Samples.wrong_hash_world
     = (Ok (false, MsgSizeMismatch 3 2), Samples.wrong_hash_world)
  /\ ~ names_hash_mismatch (MsgSizeMismatch 3 2).
Proof.
  split; [vm_compute; reflexivity|].
  split; [vm_compute; discriminate|].
  split; [vm_compute; reflexivity|].
  by intros (expected & actual & ?).
Qed.

Lemma hash_mismatch_rejected_witness :
  (size_passes Samples.wrong_hash_world Samples.tool_path (Some 2) ->
   @validate_file_integrity Reference.library Samples.tool_path
     (Some "AB") (Some 2) Samples.wrong_hash_world
   = (Ok (false, MsgHashMismatch "AB" "ac"), Samples.wrong_hash_world))
  /\ (forall n : Z,
        Some 2 = Some n ->
        n <> Z.of_nat (length (f_data (fresh_file [Byte.x61; Byte.x63]))) ->
        @validate_file_integrity Reference.library Samples.tool_path
          (Some "AB") (Some 2) Samples.wrong_hash_world
        = (Ok (false,
               MsgSizeMismatch n
                 (Z.of_nat
                    (length (f_data (fresh_file [Byte.x61; Byte.x63]))))),
           Samples.wrong_hash_world)).
Proof.
  apply (@hash_mismatch_rejected Reference.library Samples.tool_path
           (fresh_file [Byte.x61; Byte.x63]) "AB" "ac" (Some 2)
           Samples.wrong_hash_world).
  - reflexivity.
  - discriminate.
  - vm_compute. reflexivity.
  - vm_compute. discriminate.
Defined.

(** C5: the validator raises where [exists()] raises, its call standing
    before the [try]: on a path with a name longer than the file system
    takes ([stat] fails with ENAMETOOLONG) no pair is returned, whatever
    hash and size are expected; and so on every path that the system
    refuses to examine, for every instance of the library. *)
Theorem validator_raises_where_exists_raises :
  refused Samples.long_name_world Samples.long_path OSError
  /\ @validate_file_integrity Reference.library Samples.long_path
       (Some "AB") (Some 2) Samples.long_name_world
     = (Raise OSError, Samples.long_name_world)
  /\ forall (L : PyLibrary) (path : string) (expected_hash : option string)
       (expected_size : option Z) (w : world) (e : exn),
      refused w path e ->
      validate_file_integrity path expected_hash expected_size w
      = (Raise e, w).
Proof.
  assert (refused Samples.long_name_world Samples.long_path OSError) as Href.
  { split; [reflexivity|]. split; [|vm_compute; reflexivity].
    apply elem_of_union. right. by apply elem_of_singleton. }
  split; [done|]. split; [by apply validate_refused|].
  intros L. apply validate_refused.
Qed.

(* ===================================================================== *)
(** * Properties of the retry loop *)
(* ===================================================================== *)

Local Open Scope list_scope.

(** Counting the GET requests of explicit event lists. *)
Ltac count_gets := unfold http_gets in *; simpl in *; lia.

Lemma http_gets_app (evs1 evs2 : list event) :
  http_gets (evs1 ++ evs2) = (http_gets evs1 + http_gets evs2)%nat.
Proof. unfold http_gets. by rewrite List.filter_app, length_app. Qed.

Lemma range_length (n : Z) : length (Py.range n) = Z.to_nat n.
Proof. unfold Py.range. by rewrite length_fmap, length_seq. Qed.

Lemma range_positive (n : Z) :
  0 < n -> exists later : list Z, Py.range n = 0 :: later.
Proof.
  intros Hn. unfold Py.range.
  destruct (Z.to_nat n) as [|k] eqn:Hk; [lia|]. simpl. eauto.
Qed.

(** The first unlink of [path] comes before every GET, in the words of
    positions in the list. *)
Lemma unlink_first_before_get (path : string) (evs : list event) :
  unlink_first path evs = true ->
  forall (pre : list event) (u : string) (post : list event),
    evs = pre ++ EvGet u :: post -> EvUnlink path ∈ pre.
Proof.
  induction evs as [|ev evs IH]; intros Hfirst pre u post Heq.
  - by destruct pre.
  - destruct pre as [|ev' pre]; simpl in Heq; simplify_eq; simpl in Hfirst.
    apply elem_of_cons.
    destruct ev'; try discriminate; try (right; by eapply IH).
    apply orb_true_iff in Hfirst as [Hq|Hrest].
    + apply bool_decide_eq_true in Hq as ->. by left.
    + right. by eapply IH.
Qed.

Lemma unlink_present (path : string) (w : world) :
  present w path ->
  (exists e : exn, unlink true path w = (Raise e, w))
  \/ (exists w1 : world,
        unlink true path w = (Ok tt, w1) /\
        trace w1 = trace w ++ [EvUnlink path] /\
        files w1 !! path = None).
Proof.
  intros Hp. unfold unlink.
  destruct (files w !! path) as [f|] eqn:Hf.
  - destruct (f_removable f); [right|left; eauto].
    eexists. split; [done|]. split; [done|]. simpl. apply lookup_delete_eq.
  - destruct Hp as [[f Hp]|Hp]; [congruence|].
    rewrite bool_decide_eq_true_2 by done.
    destruct (stat_fault w path); left; eauto.
Qed.

Section RetryProperties.
Context {L : PyLibrary}.

Lemma validate_returns (info : software_info) (file_path : string)
    (w : world) :
  found w file_path ->
  accepts info file_path w \/ rejects info file_path w.
Proof.
  intros Hfound.
  destruct (validate_found file_path (si_hash info) (si_size info) w Hfound)
    as ([|] & msg & Hv); [left|right]; by exists msg.
Qed.

Lemma accepts_found (info : software_info) (file_path : string)
    (w : world) :
  present w file_path -> accepts info file_path w -> found w file_path.
Proof. intros Hp [msg Hv]. by eapply answered_found. Qed.

Lemma rejects_found (info : software_info) (file_path : string)
    (w : world) :
  present w file_path -> rejects info file_path w -> found w file_path.
Proof. intros Hp [msg Hv]. by eapply answered_found. Qed.

(** [_download_file] raises nothing and issues exactly one GET, the first
    thing it does. *)
Lemma download_file_spec (url file_path : string) (expected_size : Z)
    (w : world) :
  exists (b : bool) (m : message) (w' : world) (tl : list event),
    _download_file url file_path expected_size w = (Ok (b, m), w') /\
    trace w' = trace w ++ EvGet url :: tl /\
    http_gets tl = 0%nat.
Proof.
  unfold _download_file, try_except, bind, requests_get, mkdir_parents,
    write_file, raise, ret.
  destruct (network w (http_gets (trace w)) url) as [e|chunks abort]; simpl.
  { by eexists _, _, _, []. }
  repeat case_match; simplify_eq/=;
    eexists _, _, _, _; (split; [reflexivity|]);
    cbn [trace record_event set_files set_dirs];
    rewrite <- ?app_assoc; split; reflexivity.
Qed.

(** A download that reports success has left a file at the target. *)
Lemma download_file_found (url file_path : string) (expected_size : Z)
    (w w' : world) (m : message) :
  _download_file url file_path expected_size w = (Ok (true, m), w') ->
  found w' file_path.
Proof.
  unfold _download_file, try_except, bind, requests_get, mkdir_parents,
    write_file, raise, ret.
  destruct (network w (http_gets (trace w)) url) as [e|chunks abort]; simpl;
    [discriminate|].
  repeat case_match; simplify_eq/=; intros; simplify_eq;
    apply (path_exists_file _ _ (fresh_file (received chunks)));
    simpl; apply lookup_insert_eq.
Qed.

(** The re-download raises nothing, issues one GET, and reports success
    only for a file the validator accepted. *)
Lemma redownload_spec (info : software_info) (file_path : string)
    (w : world) :
  exists (r : option (bool * message)) (w' : world) (tl : list event),
    redownload info file_path w = (Ok r, w') /\
    trace w' = trace w ++ EvGet (default "" (si_url info)) :: tl /\
    http_gets tl = 0%nat /\
    (forall out : bool * message,
        r = Some out -> out = (true, MsgCorrected) /\ accepts info file_path w').
Proof.
  unfold redownload, bind at 1.
  destruct (download_file_spec (default "" (si_url info)) file_path
              (default 0 (si_size info)) w)
    as (b & m & w' & tl & Hdown & Htrace & Hgets).
  rewrite Hdown. destruct b.
  - unfold bind, ret.
    destruct (validate_returns info file_path w'
                (download_file_found _ _ _ _ _ _ Hdown))
      as [[msg Hv]|[msg Hv]];
      rewrite Hv; eexists _, w', tl; (split; [done|]);
      (split; [done|]); (split; [done|]).
    + intros out [= <-]. split; [done|by exists msg].
    + by intros out.
  - unfold ret. eexists _, w', tl. repeat split; done.
Qed.

Lemma attempt_body_accepts (info : software_info) (file_path : string)
    (w : world) :
  present w file_path -> accepts info file_path w ->
  attempt_body info file_path w = (Ok (Some (true, MsgFileOk)), w).
Proof.
  intros Hp Hacc. pose proof (accepts_found _ _ _ Hp Hacc) as Hfound.
  destruct Hacc as [msg Hv]. unfold attempt_body, try_except, bind.
  unfold found in Hfound. by rewrite Hfound, Hv.
Qed.

Lemma attempt_body_rejects (info : software_info) (file_path : string)
    (w : world) :
  present w file_path -> rejects info file_path w ->
  ((exists e : exn, unlink true file_path w = (Raise e, w)) /\
   attempt_body info file_path w = (Ok None, w))
  \/ (exists w1 : world,
        unlink true file_path w = (Ok tt, w1) /\
        trace w1 = trace w ++ [EvUnlink file_path] /\
        files w1 !! file_path = None /\
        attempt_body info file_path w = redownload info file_path w1).
Proof.
  intros Hp Hrej. pose proof (rejects_found _ _ _ Hp Hrej) as Hfound.
  destruct Hrej as [msg Hv]. unfold attempt_body, try_except, bind.
  unfold found in Hfound. rewrite Hfound, Hv.
  destruct (unlink_present _ _ Hp) as [[e He]|(w1 & Hu & Htrace & Hgone)];
    [left|right].
  - rewrite He. split; [eauto|done].
  - exists w1. rewrite Hu. repeat split; try done.
    by destruct (redownload_spec info file_path w1) as (r & w' & tl & -> & _).
Qed.

(** An attempt on a target that the system refuses to examine ends in
    the handler of its [try], with nothing done. *)
Lemma attempt_body_refused (info : software_info) (file_path : string)
    (w : world) (e : exn) :
  refused w file_path e -> attempt_body info file_path w = (Ok None, w).
Proof.
  intros Href. unfold attempt_body, try_except, bind.
  by rewrite (path_exists_refused _ _ _ Href).
Qed.

Lemma attempt_body_absent (info : software_info) (file_path : string)
    (w : world) :
  ~ present w file_path ->
  attempt_body info file_path w = redownload info file_path w.
Proof.
  intros Hp. unfold attempt_body, try_except, bind.
  rewrite (path_exists_false _ _ Hp).
  by destruct (redownload_spec info file_path w) as (r & w' & tl & -> & _).
Qed.

(** One attempt raises nothing, issues at most one GET, and returns from
    the function only with success on an accepted file. *)
Lemma attempt_body_spec (info : software_info) (file_path : string)
    (w : world) :
  exists (r : option (bool * message)) (w' : world) (evs : list event),
    attempt_body info file_path w = (Ok r, w') /\
    trace w' = trace w ++ evs /\
    (http_gets evs <= 1)%nat /\
    (forall out : bool * message,
        r = Some out -> fst out = true /\ accepts info file_path w').
Proof.
  destruct (path_exists_cases w file_path)
    as [(Hfound & Hp & _)|[[_ Hp]|(e & _ & Href)]].
  3:{ rewrite (attempt_body_refused _ _ _ _ Href).
      eexists _, w, []. rewrite app_nil_r.
      split; [done|]. split; [done|]. split; [count_gets|done]. }
  - destruct (validate_returns info file_path w Hfound) as [Hv|Hv].
    + rewrite attempt_body_accepts by done.
      eexists _, w, []. rewrite app_nil_r.
      split; [done|]. split; [done|]. split; [count_gets|].
      by intros out [= <-].
    + destruct (attempt_body_rejects _ _ _ Hp Hv)
        as [[_ ->]|(w1 & _ & Htrace1 & _ & ->)].
      * eexists _, w, []. rewrite app_nil_r.
        split; [done|]. split; [done|]. split; [count_gets|done].
      * destruct (redownload_spec info file_path w1)
          as (r & w' & tl & -> & Htrace & Hgets & Hout).
        eexists r, w', _. split; [done|]. split.
        { rewrite Htrace, Htrace1, <- app_assoc. reflexivity. }
        split; [|intros out Hr; by destruct (Hout out Hr) as [-> ?]].
        rewrite http_gets_app. count_gets.
  - rewrite attempt_body_absent by done.
    destruct (redownload_spec info file_path w)
      as (r & w' & tl & -> & Htrace & Hgets & Hout).
    eexists r, w', _. split; [done|]. split; [done|].
    split; [|intros out Hr; by destruct (Hout out Hr) as [-> ?]].
    count_gets.
Qed.

(** The loop raises nothing, issues at most one GET per remaining attempt,
    and answers success only when the validator accepts what is on
    disk. *)
Lemma attempts_spec (info : software_info) (file_path : string)
    (max_retries : Z) (remaining : list Z) (w : world) :
  exists (b : bool) (m : message) (w' : world) (evs : list event),
    attempts info file_path max_retries remaining w = (Ok (b, m), w') /\
    trace w' = trace w ++ evs /\
    (http_gets evs <= length remaining)%nat /\
    (b = true -> accepts info file_path w').
Proof.
  revert w. induction remaining as [|attempt later IH]; intros w; simpl.
  - eexists false, _, w, []. rewrite app_nil_r.
    split; [done|]. split; [done|]. split; [count_gets|done].
  - unfold bind at 1.
    destruct (attempt_body_spec info file_path w)
      as (r & w1 & evs1 & -> & Htrace1 & Hgets1 & Hout).
    destruct r as [[b m]|].
    + destruct (Hout _ eq_refl) as [Hb Hacc]. simpl in Hb. subst b.
      eexists true, m, w1, evs1.
      split; [done|]. split; [done|]. split; [count_gets|done].
    + unfold bind.
      set (pause := if bool_decide (attempt < max_retries - 1)
                    then sleep (2 ^ attempt) else ret tt).
      assert (exists (w2 : world) (evs2 : list event),
                 pause w1 = (Ok tt, w2) /\ trace w2 = trace w1 ++ evs2 /\
                 http_gets evs2 = 0%nat) as (w2 & evs2 & -> & Htrace2 & Hgets2).
      { unfold pause. case_bool_decide.
        - by eexists _, [EvSleep _].
        - eexists w1, []. by rewrite app_nil_r. }
      destruct (IH w2) as (b & m & w' & evs & -> & Htrace & Hgets & Hacc).
      eexists b, m, w', (evs1 ++ evs2 ++ evs). split; [done|].
      split; [by rewrite Htrace, Htrace2, Htrace1, <- !app_assoc|].
      split; [|done]. rewrite !http_gets_app. simpl.
      clear -Hgets1 Hgets2 Hgets. lia.
Qed.

(** C2: one invocation issues at most [max_retries] GET requests (none
    when [max_retries] is zero or negative), whatever the record, the
    directory, the file system and the server do. *)
Theorem http_attempts_bounded (info : software_info)
    (download_path : string) (max_retries : Z) (w : world) :
  exists evs : list event,
    trace (snd (auto_correct_download info download_path max_retries w))
    = trace w ++ evs /\
    Z.of_nat (http_gets evs) <= Z.max 0 max_retries.
Proof.
  unfold auto_correct_download, bind, pure_call.
  destruct (_generate_filename info) as [filename|e]; simpl.
  - destruct (attempts_spec info (joinpath download_path filename)
                max_retries (Py.range max_retries) w)
      as (b & m & w' & evs & -> & Htrace & Hgets & _).
    exists evs. split; [done|]. rewrite range_length in Hgets. lia.
  - exists []. rewrite app_nil_r. split; [done|]. count_gets.
Qed.

(** C4: at the start of an attempt, a target that exists and that the
    validator accepts makes the attempt return success with the message of
    the existing-file branch, and with the world exactly as it was: no GET
    and no change of any file.  The same holds of the loop entered at any
    attempt, and of the whole call when it makes at least one attempt. *)
Theorem valid_file_returns_immediately (info : software_info)
    (file_path : string) (w : world) :
  present w file_path -> accepts info file_path w ->
  attempt_body info file_path w = (Ok (Some (true, MsgFileOk)), w)
  /\ (forall (max_retries attempt : Z) (later : list Z),
        attempts info file_path max_retries (attempt :: later) w
        = (Ok (true, MsgFileOk), w))
  /\ (forall (download_path filename : string) (max_retries : Z),
        _generate_filename info = Ok filename ->
        file_path = joinpath download_path filename ->
        0 < max_retries ->
        auto_correct_download info download_path max_retries w
        = (Ok (true, MsgFileOk), w)).
Proof.
  intros Hp Hacc.
  pose proof (attempt_body_accepts _ _ _ Hp Hacc) as Hbody.
  assert (forall (max_retries attempt : Z) (later : list Z),
             attempts info file_path max_retries (attempt :: later) w
             = (Ok (true, MsgFileOk), w)) as Hloop.
  { intros max_retries attempt later. simpl. unfold bind. by rewrite Hbody. }
  repeat split; try done.
  intros download_path filename max_retries Hgen -> Hpos.
  unfold auto_correct_download, bind, pure_call. rewrite Hgen.
  destruct (range_positive _ Hpos) as [later ->]. apply Hloop.
Qed.

End RetryProperties.

Lemma same_entry_present (path : string) (w1 w2 : world) :
  same_entry path w1 w2 -> present w1 path -> present w2 path.
Proof.
  intros [Hfile Hdir] [Hf|Hd]; unfold present.
  - left. by rewrite <- Hfile.
  - destruct (files w1 !! path) as [f|] eqn:Hf.
    + left. rewrite <- Hfile. eauto.
    + right. by apply (Hdir eq_refl).
Qed.

Lemma same_entry_sym (path : string) (w1 w2 : world) :
  same_entry path w1 w2 -> same_entry path w2 w1.
Proof.
  intros [Hfile Hdir]. split; [done|]. intros Hnone.
  rewrite <- Hfile in Hnone. destruct (Hdir Hnone) as (Hin & Hfault & Hsize).
  split; [tauto|]. by split.
Qed.

Lemma same_entry_exists (path : string) (w1 w2 : world) :
  same_entry path w1 w2 ->
  fst (path_exists path w1) = fst (path_exists path w2).
Proof.
  intros [Hfile Hdir]. unfold path_exists. rewrite <- Hfile.
  destruct (files w1 !! path) as [f|]; [done|].
  destruct (Hdir eq_refl) as (Hin & Hfault & _). rewrite <- Hfault.
  destruct (decide (path ∈ dirs w1)) as [Hd|Hd].
  - rewrite !bool_decide_eq_true_2 by tauto.
    by destruct (stat_fault w1 path).
  - by rewrite !bool_decide_eq_false_2 by tauto.
Qed.

Lemma path_exists_unchanged (path : string) (w : world) :
  snd (path_exists path w) = w.
Proof. unfold path_exists. by repeat case_match. Qed.

Lemma same_entry_found (path : string) (w1 w2 : world) :
  same_entry path w1 w2 -> found w1 path -> found w2 path.
Proof.
  intros Hsame Hfound. pose proof (same_entry_exists _ _ _ Hsame) as Hex.
  pose proof (path_exists_unchanged path w2) as Hw.
  unfold found in *. rewrite Hfound in Hex. simpl in Hex.
  destruct (path_exists path w2) as [r w']. simpl in *. by subst.
Qed.

Lemma same_entry_refused (path : string) (w1 w2 : world) (e : exn) :
  same_entry path w1 w2 -> refused w1 path e -> refused w2 path e.
Proof.
  intros [Hfile Hdir] (Hf & Hd & He).
  destruct (Hdir Hf) as (Hin & Hfault & _).
  split; [by rewrite <- Hfile|]. split; [tauto|by rewrite <- Hfault].
Qed.

Lemma same_entry_stat (path : string) (w1 w2 : world) (a : Z) :
  same_entry path w1 w2 ->
  stat_size path w1 = (Ok a, w1) -> stat_size path w2 = (Ok a, w2).
Proof.
  intros [Hfile Hdir]. unfold stat_size. rewrite <- Hfile.
  destruct (files w1 !! path) as [f|]; [by intros [= <-]|].
  destruct (Hdir eq_refl) as (Hin & Hfault & Hsize).
  rewrite <- Hsize, <- Hfault.
  destruct (decide (path ∈ dirs w1)) as [Hd|Hd].
  - rewrite !bool_decide_eq_true_2 by tauto.
    destruct (stat_fault w1 path); [discriminate|by intros [= <-]].
  - rewrite bool_decide_eq_false_2 by tauto. discriminate.
Qed.

Lemma same_entry_open (path : string) (w1 w2 : world) :
  same_entry path w1 w2 ->
  fst (open_read path w1) = fst (open_read path w2).
Proof.
  intros [Hfile Hdir]. unfold open_read. rewrite <- Hfile.
  destruct (files w1 !! path) as [f|]; [by destruct (f_readable f)|].
  destruct (Hdir eq_refl) as (Hin & Hfault & _). rewrite <- Hfault.
  destruct (decide (path ∈ dirs w1)) as [Hd|Hd].
  - rewrite !bool_decide_eq_true_2 by tauto.
    by destruct (stat_fault w1 path).
  - by rewrite !bool_decide_eq_false_2 by tauto.
Qed.

Section StaleFile.
Context {L : PyLibrary}.

Lemma same_entry_hash (path : string) (w1 w2 : world) (d : string) :
  same_entry path w1 w2 ->
  calculate_file_hash path w1 = (Ok d, w1) ->
  calculate_file_hash path w2 = (Ok d, w2).
Proof.
  intros Hsame. pose proof (same_entry_open _ _ _ Hsame) as Hopen.
  unfold calculate_file_hash, try_except, bind, ret.
  destruct (open_read_unchanged path w1) as [r1 Hr1].
  destruct (open_read_unchanged path w2) as [r2 Hr2].
  rewrite Hr1, Hr2 in *. simpl in Hopen. subst r2.
  destruct r1; by intros [= <-].
Qed.

(** The verdict depends on the world only through what the path holds. *)
Lemma validate_same_entry (path : string) (expected_hash : option string)
    (expected_size : option Z) (w1 w2 : world) :
  same_entry path w1 w2 ->
  fst (validate_file_integrity path expected_hash expected_size w1)
  = fst (validate_file_integrity path expected_hash expected_size w2).
Proof.
  intros Hsame.
  destruct (path_exists_cases w1 path)
    as [(Hp1 & _)|[[_ Hp1]|(e & _ & Href)]].
  2:{ assert (~ present w2 path) as Hp2.
      { intros Hp2. apply Hp1.
        by apply (same_entry_present path w2 w1); [apply same_entry_sym|]. }
      by rewrite !validate_missing. }
  2:{ pose proof (same_entry_refused _ _ _ _ Hsame Href) as Href2.
      by rewrite !(validate_refused _ _ _ _ e). }
  pose proof (same_entry_found _ _ _ Hsame Hp1) as Hp2.
  destruct (stat_size_found _ _ Hp1) as [a Hstat1].
  pose proof (same_entry_stat _ _ _ _ Hsame Hstat1) as Hstat2.
  assert (fst (validate_file_integrity path expected_hash None w1)
          = fst (validate_file_integrity path expected_hash None w2)) as Hrest.
  { destruct (calculate_file_hash_total path w1) as [d Hcalc1].
    pose proof (same_entry_hash _ _ _ _ Hsame Hcalc1) as Hcalc2.
    assert ((exists e, expected_hash = Some e /\ e <> ""
                       /\ Py.lower d <> Py.lower e)
            \/ (hash_passes w1 path expected_hash
                /\ hash_passes w2 path expected_hash)) as [Hbad|[Hh1 Hh2]].
    { destruct expected_hash as [e|]; [|right; split; by intros e].
      destruct (decide (Py.lower d = Py.lower e)) as [Heq|Hne].
      - right. split; intros e' [= <-] _; eauto.
      - destruct (decide (e = "")) as [->|He]; [|left; eauto].
        right. split; by intros e' [= <-]. }
    - destruct Hbad as (e & -> & He & Hne).
      by rewrite !(validate_hash_mismatch _ _ e d).
    - rewrite !validate_checks_pass by done.
      pose proof (same_entry_open _ _ _ Hsame) as Hopen.
      destruct (open_read_unchanged path w1) as [r1 Hr1].
      destruct (open_read_unchanged path w2) as [r2 Hr2].
      rewrite Hr1, Hr2 in *. simpl in Hopen. subst r2. by destruct r1. }
  destruct expected_size as [n|]; [|done].
  destruct (decide (a = n)) as [->|Hne].
  - assert (forall w, stat_size path w = (Ok n, w) ->
                      size_passes w path (Some n)) as Hsz
      by (by intros w Hw n' [= <-]).
    rewrite (validate_size_passes path expected_hash (Some n) w1),
      (validate_size_passes path expected_hash (Some n) w2); auto.
  - by rewrite !(validate_size_mismatch _ _ _ n a).
Qed.

Lemma accepts_is_file (info : software_info) (file_path : string)
    (w : world) :
  accepts info file_path w -> is_Some (files w !! file_path).
Proof.
  intros [msg Hv].
  destruct (files w !! file_path) as [f|] eqn:Hf; [eauto|]. exfalso.
  destruct (path_exists_cases w file_path)
    as [(Hfound & Hp & _)|[[_ Hp]|(e & _ & Href)]];
    [|rewrite validate_missing in Hv by done; congruence
     |rewrite (validate_refused _ _ _ _ e) in Hv by done; congruence].
  assert (exists x : exn, open_read file_path w = (Raise x, w)) as [x Hopen].
  { unfold open_read. rewrite Hf.
    destruct Hp as [[f Hp]|Hp]; [congruence|].
    rewrite bool_decide_eq_true_2 by done.
    destruct (stat_fault w file_path); eauto. }
  destruct (stat_size_found _ _ Hfound) as [a Hstat].
  destruct (calculate_file_hash_total file_path w) as [d Hcalc].
  assert (size_passes w file_path (si_size info)) as Hsz.
  { intros n Hn. destruct (decide (a = n)) as [->|Hne]; [done|].
    rewrite Hn, (validate_size_mismatch _ _ _ n a) in Hv by done.
    congruence. }
  assert (hash_passes w file_path (si_hash info)) as Hh.
  { intros e He Hne. exists d. split; [done|].
    destruct (decide (Py.lower d = Py.lower e)) as [Heq|Hdiff]; [done|].
    rewrite (validate_hash_rejects _ _ _ _ e d) in Hv by done. congruence. }
  rewrite validate_passes, Hopen in Hv by done. congruence.
Qed.

(** A file the validator rejects and a file it accepts are not the same
    file. *)
Lemma accepted_file_differs (info : software_info) (file_path : string)
    (w w' : world) :
  rejects info file_path w -> accepts info file_path w' ->
  files w' !! file_path <> files w !! file_path.
Proof.
  intros [m Hrej] Hacc Hsame.
  destruct (accepts_is_file _ _ _ Hacc) as [f Hf].
  destruct Hacc as [m' Hacc].
  assert (same_entry file_path w' w) as Hentry.
  { split; [done|]. rewrite Hf. discriminate. }
  pose proof (validate_same_entry file_path (si_hash info) (si_size info)
                _ _ Hentry) as Hv.
  rewrite Hrej, Hacc in Hv. simpl in Hv. congruence.
Qed.

End StaleFile.

Section StaleLoop.
Context {L : PyLibrary}.

Lemma rejects_same_entry (info : software_info) (file_path : string)
    (w1 w2 : world) :
  same_entry file_path w1 w2 ->
  rejects info file_path w1 -> rejects info file_path w2.
Proof.
  intros Hsame [m Hrej].
  pose proof (validate_same_entry file_path (si_hash info) (si_size info)
                _ _ Hsame) as Hv.
  rewrite Hrej in Hv. simpl in Hv. exists m.
  destruct (validate_answers file_path (si_hash info) (si_size info) w2)
    as [(ok & msg & Hw2)|(e & _ & Hw2)];
    rewrite Hw2 in Hv |- *; simpl in Hv; congruence.
Qed.

(** The pause between two attempts only adds a sleep to the trace. *)
Lemma pause_spec (attempt max_retries : Z) (file_path : string) (w : world) :
  exists (w2 : world) (evs2 : list event),
    (if bool_decide (attempt < max_retries - 1)
     then sleep (2 ^ attempt) else ret tt) w = (Ok tt, w2) /\
    trace w2 = trace w ++ evs2 /\
    http_gets evs2 = 0%nat /\
    (forall evs : list event,
        unlink_first file_path (evs2 ++ evs) = unlink_first file_path evs) /\
    same_entry file_path w w2 /\
    (present w file_path -> present w2 file_path).
Proof.
  case_bool_decide.
  - eexists _, [EvSleep _]. by repeat split.
  - eexists w, []. rewrite app_nil_r. by repeat split.
Qed.

(** Entered with a target that exists and is rejected, the loop issues no
    GET before it has unlinked the target, and answers success only after
    that unlink and for a file the validator accepts. *)
Lemma attempts_stale (info : software_info) (file_path : string)
    (max_retries : Z) (remaining : list Z) (w : world) :
  present w file_path -> rejects info file_path w ->
  exists (b : bool) (m : message) (w' : world) (evs : list event),
    attempts info file_path max_retries remaining w = (Ok (b, m), w') /\
    trace w' = trace w ++ evs /\
    unlink_first file_path evs = true /\
    (b = true -> EvUnlink file_path ∈ evs /\ accepts info file_path w').
Proof.
  revert w. induction remaining as [|attempt later IH]; intros w Hp Hrej.
  - simpl. eexists false, _, w, []. rewrite app_nil_r.
    split; [done|]. split; [done|]. split; [done|]. discriminate.
  - simpl. unfold bind at 1.
    destruct (attempt_body_rejects _ _ _ Hp Hrej)
      as [[_ ->]|(w1 & _ & Htrace1 & _ & ->)].
    + unfold bind.
      destruct (pause_spec attempt max_retries file_path w)
        as (w2 & evs2 & -> & Htrace2 & _ & Hfirst & Hsame & Hp2).
      destruct (IH w2 (Hp2 Hp) (rejects_same_entry _ _ _ _ Hsame Hrej))
        as (b & m & w' & evs & -> & Htrace & Hguard & Hsucc).
      eexists b, m, w', (evs2 ++ evs). split; [done|].
      split; [by rewrite Htrace, Htrace2, <- app_assoc|].
      split; [by rewrite Hfirst|].
      intros Hb. destruct (Hsucc Hb) as [Hin Hacc].
      split; [|done]. apply elem_of_app. by right.
    + destruct (redownload_spec info file_path w1)
        as (r & w2 & tl & -> & Htrace2 & _ & Hout).
      assert (forall rest : list event,
                 unlink_first file_path
                   (EvUnlink file_path :: rest) = true) as Hguard.
      { intros rest. simpl. by rewrite bool_decide_eq_true_2. }
      destruct r as [out|].
      * destruct (Hout out eq_refl) as [-> Hacc].
        eexists true, _, w2, (EvUnlink file_path :: _).
        split; [done|].
        split; [rewrite Htrace2, Htrace1, <- app_assoc; reflexivity|].
        split; [apply Hguard|]. intros _.
        split; [apply elem_of_cons; by left|done].
      * unfold bind.
        destruct (pause_spec attempt max_retries file_path w2)
          as (w3 & evs3 & -> & Htrace3 & _).
        destruct (attempts_spec info file_path max_retries later w3)
          as (b & m & w' & evs & -> & Htrace & _ & Hacc).
        eexists b, m, w',
          (EvUnlink file_path
             :: (EvGet (default "" (si_url info)) :: tl) ++ evs3 ++ evs).
        split; [done|].
        split.
        { rewrite Htrace, Htrace3, Htrace2, Htrace1, <- !app_assoc.
          reflexivity. }
        split; [apply Hguard|]. intros Hb.
        split; [apply elem_of_cons; by left|by apply Hacc].
Qed.

(** C3: an attempt that finds the target present and rejected either
    fails to unlink it, and then downloads nothing and leaves the world
    as it is, or unlinks it first and only then issues the GET.  A call
    that starts from such a target issues no GET before the unlink, and
    when it answers success the unlink has happened and the file at the
    target is another one than the rejected file. *)
Theorem stale_file_deleted_before_download (info : software_info)
    (file_path : string) (w : world) :
  present w file_path -> rejects info file_path w ->
  (((exists e : exn, unlink true file_path w = (Raise e, w)) /\
    attempt_body info file_path w = (Ok None, w))
   \/ (exists (w1 : world) (r : option (bool * message)) (w' : world)
              (tl : list event),
          unlink true file_path w = (Ok tt, w1) /\
          files w1 !! file_path = None /\
          attempt_body info file_path w = (Ok r, w') /\
          trace w' = trace w ++ EvUnlink file_path
                               :: EvGet (default "" (si_url info)) :: tl))
  /\ (forall (max_retries : Z) (remaining : list Z),
        exists (b : bool) (m : message) (w' : world) (evs : list event),
          attempts info file_path max_retries remaining w = (Ok (b, m), w') /\
          trace w' = trace w ++ evs /\
          (forall (pre : list event) (u : string) (post : list event),
              evs = pre ++ EvGet u :: post -> EvUnlink file_path ∈ pre) /\
          (b = true ->
           EvUnlink file_path ∈ evs /\
           files w' !! file_path <> files w !! file_path))
  /\ (forall (download_path filename : string) (max_retries : Z),
        _generate_filename info = Ok filename ->
        file_path = joinpath download_path filename ->
        auto_correct_download info download_path max_retries w
        = attempts info file_path max_retries (Py.range max_retries) w).
Proof.
  intros Hp Hrej. split; [|split].
  - destruct (attempt_body_rejects _ _ _ Hp Hrej)
      as [Hfail|(w1 & Hu & Htrace1 & Hgone & Hbody)]; [by left|right].
    destruct (redownload_spec info file_path w1)
      as (r & w' & tl & Hre & Htrace & _).
    exists w1, r, w', tl. split; [done|]. split; [done|].
    split; [by rewrite Hbody|].
    rewrite Htrace, Htrace1, <- app_assoc. reflexivity.
  - intros max_retries remaining.
    destruct (attempts_stale info file_path max_retries remaining w Hp Hrej)
      as (b & m & w' & evs & Hrun & Htrace & Hguard & Hsucc).
    exists b, m, w', evs. split; [done|]. split; [done|].
    split; [by apply unlink_first_before_get|].
    intros Hb. destruct (Hsucc Hb) as [Hin Hacc].
    split; [done|by apply (accepted_file_differs info)].
  - intros download_path filename max_retries Hgen ->.
    unfold auto_correct_download, bind, pure_call. by rewrite Hgen.
Qed.

End StaleLoop.

Lemma valid_file_returns_immediately_witness :
  @attempt_body Reference.library Samples.tool Samples.tool_path
    Samples.good_world
  = (Ok (Some (true, MsgFileOk)), Samples.good_world)
  /\ (forall (max_retries attempt : Z) (later : list Z),
        @attempts Reference.library Samples.tool Samples.tool_path
          max_retries (attempt :: later) Samples.good_world
        = (Ok (true, MsgFileOk), Samples.good_world))
  /\ (forall (download_path filename : string) (max_retries : Z),
        @_generate_filename Reference.library Samples.tool = Ok filename ->
        Samples.tool_path = @joinpath Reference.library download_path filename ->
        0 < max_retries ->
        @auto_correct_download Reference.library Samples.tool download_path
          max_retries Samples.good_world
        = (Ok (true, MsgFileOk), Samples.good_world)).
Proof.
  apply (@valid_file_returns_immediately Reference.library Samples.tool
           Samples.tool_path Samples.good_world).
  - left. exists (fresh_file [Byte.x61; Byte.x62]). vm_compute. reflexivity.
  - exists MsgFileOk. vm_compute. reflexivity.
Defined.

Lemma stale_file_deleted_before_download_witness :
  exists (b : bool) (m : message) (w' : world) (evs : list event),
    @attempts Reference.library Samples.tool Samples.tool_path 3
      (Py.range 3) Samples.stale_world = (Ok (b, m), w') /\
    trace w' = trace Samples.stale_world ++ evs /\
    (forall (pre : list event) (u : string) (post : list event),
        evs = pre ++ EvGet u :: post -> EvUnlink Samples.tool_path ∈ pre) /\
    (b = true ->
     EvUnlink Samples.tool_path ∈ evs /\
     files w' !! Samples.tool_path
     <> files Samples.stale_world !! Samples.tool_path).
Proof.
  refine (proj1 (proj2 (@stale_file_deleted_before_download Reference.library
                          Samples.tool Samples.tool_path Samples.stale_world
                          _ _)) 3 (Py.range 3)).
  - left. exists (fresh_file [Byte.x00]). vm_compute. reflexivity.
  - exists (MsgSizeMismatch 2 1). vm_compute. reflexivity.
Defined.

(* ===================================================================== *)
(** * Properties of the batch *)
(* ===================================================================== *)

Lemma all_failed_lookup (software_list : list string) (msg : message)
    (name : string) :
  name ∈ software_list -> is_Some (all_failed software_list msg !! name).
Proof.
  unfold all_failed.
  assert (forall (d : gmap string (bool * message)),
             name ∈ software_list \/ is_Some (d !! name) ->
             is_Some (foldl (fun d software => <[software := (false, msg)]> d)
                        d software_list !! name)) as Hgen.
  { induction software_list as [|s l IH]; intros d Hin; simpl.
    - destruct Hin as [Hin|Hin]; [by apply elem_of_nil in Hin|done].
    - apply IH. destruct Hin as [Hin|Hin].
      + apply elem_of_cons in Hin as [->|Hin]; [right|by left].
        rewrite lookup_insert_eq. eauto.
      + right. destruct (decide (s = name)) as [->|Hne].
        * rewrite lookup_insert_eq. eauto.
        * by rewrite lookup_insert_ne. }
  intros Hin. apply Hgen. by left.
Qed.

Section BatchProperties.
Context {L : PyLibrary}.

(** The path check answers with a pair whatever the file system does. *)
Lemma correct_path_issues_total (download_path : string) (w : world) :
  exists (b : bool) (m : message) (w' : world),
    correct_path_issues download_path w = (Ok (b, m), w').
Proof.
  unfold correct_path_issues, try_except, bind, ret, raise.
  destruct (path_exists download_path w) as [[present|e] w1]; [|eauto].
  destruct ((if negb present then mkdir_parents download_path
             else fun w0 => (Ok tt, w0)) w1) as [[[]|e] w2]; [|eauto].
  destruct (write_file (joinpath download_path "test_write.tmp")
              test_bytes w2) as [[[]|e] w3].
  - destruct (unlink false (joinpath download_path "test_write.tmp") w3)
      as [[[]|e] w4]; [eauto|]. destruct e; eauto.
  - destruct e; eauto.
Qed.

(** With a filename, the repair of one record answers with a pair. *)
Lemma auto_correct_download_returns (info : software_info)
    (download_path filename : string) (max_retries : Z) (w : world) :
  _generate_filename info = Ok filename ->
  exists (b : bool) (m : message) (w' : world),
    auto_correct_download info download_path max_retries w = (Ok (b, m), w').
Proof.
  intros Hgen. unfold auto_correct_download, bind, pure_call. rewrite Hgen.
  destruct (attempts_spec info (joinpath download_path filename) max_retries
              (Py.range max_retries) w) as (b & m & w' & evs & -> & _).
  eauto.
Qed.

(** X1: where every requested record of the catalog has a filename and the
    progress callback raises nothing, the batch returns a map that holds
    an entry for every requested name; a record that fails, and a name
    the catalog lacks, are entries of that map. *)
Lemma download_software_reports_all (software_list : list string)
    (download_path : string) (software_data : gmap string software_info)
    (progress_callback : option callback) (w : world) :
  (forall (name : string) (info : software_info),
      name ∈ software_list -> software_data !! name = Some info ->
      exists filename : string, _generate_filename info = Ok filename) ->
  (forall (cb : callback) (completed total : Z) (name : string) (ok : bool),
      progress_callback = Some cb -> cb completed total name ok = None) ->
  exists (results : gmap string (bool * message)) (w' : world),
    download_software software_list download_path software_data
      progress_callback w = (Ok results, w') /\
    forall name : string, name ∈ software_list -> is_Some (results !! name).
Proof.
  intros Hnames Hcb. unfold download_software, bind at 1.
  destruct (correct_path_issues_total download_path w) as (b & m & w1 & ->).
  destruct b; simpl.
  2:{ unfold ret. eexists _, w1. split; [done|]. apply all_failed_lookup. }
  generalize (Z.of_nat (length software_list)) as total. intros total.
  assert (forall (remaining : list string) (completed : Z)
                 (results : gmap string (bool * message)) (w0 : world),
             (forall name, name ∈ remaining -> name ∈ software_list) ->
             exists (res : gmap string (bool * message)) (w' : world),
               download_each remaining download_path software_data
                 progress_callback total completed results w0 = (Ok res, w') /\
               forall name : string,
                 name ∈ remaining \/ is_Some (results !! name) ->
                 is_Some (res !! name)) as Hloop.
  { induction remaining as [|name later IH];
      intros completed results w0 Hsub; simpl.
    - unfold ret. eexists results, w0. split; [done|].
      intros name [Hin|Hin]; [by apply elem_of_nil in Hin|done].
    - assert (forall n, n ∈ later -> n ∈ software_list) as Hsub'.
      { intros n Hn. apply Hsub. apply elem_of_cons. by right. }
      assert (forall (v : bool * message) (res : gmap string (bool * message))
                     (n : string),
                 (forall n', n' ∈ later \/ is_Some (<[name := v]> results !! n')
                             -> is_Some (res !! n')) ->
                 n ∈ name :: later \/ is_Some (results !! n) ->
                 is_Some (res !! n)) as Hstep.
      { intros v res n Hres [Hin|Hin].
        - apply elem_of_cons in Hin as [->|Hin]; apply Hres; [right|by left].
          rewrite lookup_insert_eq. eauto.
        - apply Hres. right. destruct (decide (name = n)) as [->|Hne].
          + rewrite lookup_insert_eq. eauto.
          + by rewrite lookup_insert_ne. }
      destruct (software_data !! name) as [info|] eqn:Hinfo.
      + destruct (Hnames name info) as [filename Hgen];
          [apply Hsub, elem_of_cons; by left|done|].
        unfold bind at 1.
        destruct (auto_correct_download_returns info download_path filename
                    3 w0 Hgen) as (ok & msg & w2 & ->).
        unfold bind at 1.
        assert (exists w3 : world,
                   notify progress_callback (completed + 1) total name ok w2
                   = (Ok tt, w3)) as [w3 ->].
        { unfold notify. destruct progress_callback as [cb|]; [|by eexists].
          rewrite (Hcb cb) by done. by eexists. }
        destruct (IH (completed + 1) (<[name := (ok, msg)]> results) w3 Hsub')
          as (res & w' & -> & Hres).
        exists res, w'. split; [done|]. intros n. by apply (Hstep (ok, msg)).
      + destruct (IH completed (<[name := (false, MsgNoInfo)]> results) w0
                    Hsub') as (res & w' & -> & Hres).
        exists res, w'. split; [done|].
        intros n. by apply (Hstep (false, MsgNoInfo)). }
  destruct (Hloop software_list 0 ∅ w1) as (res & w' & -> & Hres); [done|].
  exists res, w'. split; [done|]. intros name Hin. apply Hres. by left.
Qed.

End BatchProperties.

(** C9, on the code: a record whose URL the parser refuses makes the
    filename derivation raise before the first attempt, outside every
    [try]; the exception leaves [download_software], no map is returned,
    and the record that follows is never tried. *)
Theorem batch_aborted_by_unparseable_url :
  fst (@download_software Reference.library ["broken"; "tool"] "/dl"
         Samples.catalog None Samples.empty_world)
  = Raise ValueError
  /\ http_gets
       (trace (snd (@download_software Reference.library ["broken"; "tool"]
                      "/dl" Samples.catalog None Samples.empty_world)))
     = 0%nat
  /\ (exists w' : world,
         @download_software Reference.library ["tool"; "absent"] "/dl"
           Samples.catalog None Samples.empty_world
         = (Ok (<["absent" := (false, MsgNoInfo)]>
                  (<["tool" := (true, MsgCorrected)]> ∅)), w')).
Proof.
  split; [vm_compute; reflexivity|].
  split; [vm_compute; reflexivity|].
  eexists. vm_compute. reflexivity.
Qed.

Lemma download_software_reports_all_witness :
  exists (results : gmap string (bool * message)) (w' : world),
    @download_software Reference.library ["tool"; "absent"] "/dl"
      Samples.catalog None Samples.empty_world = (Ok results, w') /\
    forall name : string,
      name ∈ ["tool"; "absent"] -> is_Some (results !! name).
Proof.
  apply (@download_software_reports_all Reference.library).
  - intros name info Hin Hinfo.
    apply elem_of_cons in Hin as [->|Hin].
    + vm_compute in Hinfo. injection Hinfo as <-. eexists. vm_compute.
      reflexivity.
    + apply elem_of_cons in Hin as [->|Hin];
        [vm_compute in Hinfo; discriminate|by apply elem_of_nil in Hin].
  - discriminate.
Defined.

(* ===================================================================== *)
(** * How computations compose *)
(* ===================================================================== *)

Lemma same_files_except_refl (path : string) (w : world) :
  same_files_except path w w.
Proof. by intros q Hq. Qed.

Lemma same_files_except_trans (path : string) (w1 w2 w3 : world) :
  same_files_except path w1 w2 -> same_files_except path w2 w3 ->
  same_files_except path w1 w3.
Proof. intros H12 H23 q Hq. by rewrite H23, H12. Qed.

Lemma same_files_except_eq (path : string) (w w' : world) :
  files w' = files w -> same_files_except path w w'.
Proof. intros Heq q Hq. by rewrite Heq. Qed.

Section Composition.
Context {A B : Type}.

Lemma touches_only_ret (path : string) (a : A) : touches_only path (ret a).
Proof. intros w. apply same_files_except_refl. Qed.

Lemma touches_only_raise (path : string) (e : exn) :
  touches_only path (@raise A e).
Proof. intros w. apply same_files_except_refl. Qed.

Lemma touches_only_pure (path : string) (r : result A) :
  touches_only path (pure_call r).
Proof. intros w. apply same_files_except_refl. Qed.

Lemma touches_only_bind (path : string) (m : M A) (k : A -> M B) :
  touches_only path m -> (forall a, touches_only path (k a)) ->
  touches_only path (bind m k).
Proof.
  intros Hm Hk w. unfold bind. specialize (Hm w).
  destruct (m w) as [[a|e] w1]; simpl in *; [|done].
  eapply same_files_except_trans; [done|apply Hk].
Qed.

Lemma touches_only_try (path : string) (m : M A) (h : exn -> M A) :
  touches_only path m -> (forall e, touches_only path (h e)) ->
  touches_only path (try_except m h).
Proof.
  intros Hm Hh w. unfold try_except. specialize (Hm w).
  destruct (m w) as [[a|e] w1]; simpl in *; [done|].
  eapply same_files_except_trans; [done|apply Hh].
Qed.

Lemma only_events_ret (ok : event -> Prop) (a : A) : only_events ok (ret a).
Proof. intros w. exists []. by rewrite app_nil_r. Qed.

Lemma only_events_raise (ok : event -> Prop) (e : exn) :
  only_events ok (@raise A e).
Proof. intros w. exists []. by rewrite app_nil_r. Qed.

Lemma only_events_pure (ok : event -> Prop) (r : result A) :
  only_events ok (pure_call r).
Proof. intros w. exists []. by rewrite app_nil_r. Qed.

Lemma only_events_bind (ok : event -> Prop) (m : M A) (k : A -> M B) :
  only_events ok m -> (forall a, only_events ok (k a)) ->
  only_events ok (bind m k).
Proof.
  intros Hm Hk w. unfold bind. destruct (Hm w) as (evs1 & Ht1 & Hok1).
  destruct (m w) as [[a|e] w1]; simpl in *; [|by exists evs1].
  destruct (Hk a w1) as (evs2 & Ht2 & Hok2).
  exists (evs1 ++ evs2). split; [by rewrite Ht2, Ht1, <- app_assoc|].
  by apply Forall_app.
Qed.

Lemma only_events_try (ok : event -> Prop) (m : M A) (h : exn -> M A) :
  only_events ok m -> (forall e, only_events ok (h e)) ->
  only_events ok (try_except m h).
Proof.
  intros Hm Hh w. unfold try_except. destruct (Hm w) as (evs1 & Ht1 & Hok1).
  destruct (m w) as [[a|e] w1]; simpl in *; [by exists evs1|].
  destruct (Hh e w1) as (evs2 & Ht2 & Hok2).
  exists (evs1 ++ evs2). split; [by rewrite Ht2, Ht1, <- app_assoc|].
  by apply Forall_app.
Qed.

Lemma issues_at_most_ret (a : A) : issues_at_most 0 (ret a).
Proof. intros w. exists []. rewrite app_nil_r. split; [done|count_gets]. Qed.

Lemma issues_at_most_pure (r : result A) : issues_at_most 0 (pure_call r).
Proof. intros w. exists []. rewrite app_nil_r. split; [done|count_gets]. Qed.

Lemma issues_at_most_weaken (n n' : nat) (m : M A) :
  (n <= n')%nat -> issues_at_most n m -> issues_at_most n' m.
Proof.
  intros Hle Hm w. destruct (Hm w) as (evs & Ht & Hn).
  exists evs. split; [done|lia].
Qed.

Lemma issues_at_most_bind (n1 n2 : nat) (m : M A) (k : A -> M B) :
  issues_at_most n1 m -> (forall a, issues_at_most n2 (k a)) ->
  issues_at_most (n1 + n2) (bind m k).
Proof.
  intros Hm Hk w. unfold bind. destruct (Hm w) as (evs1 & Ht1 & Hn1).
  destruct (m w) as [[a|e] w1]; simpl in *;
    [|exists evs1; split; [done|lia]].
  destruct (Hk a w1) as (evs2 & Ht2 & Hn2).
  exists (evs1 ++ evs2). split; [by rewrite Ht2, Ht1, <- app_assoc|].
  rewrite http_gets_app. lia.
Qed.

Lemma issues_at_most_try (n1 n2 : nat) (m : M A) (h : exn -> M A) :
  issues_at_most n1 m -> (forall e, issues_at_most n2 (h e)) ->
  issues_at_most (n1 + n2) (try_except m h).
Proof.
  intros Hm Hh w. unfold try_except. destruct (Hm w) as (evs1 & Ht1 & Hn1).
  destruct (m w) as [[a|e] w1]; simpl in *;
    [exists evs1; split; [done|lia]|].
  destruct (Hh e w1) as (evs2 & Ht2 & Hn2).
  exists (evs1 ++ evs2). split; [by rewrite Ht2, Ht1, <- app_assoc|].
  rewrite http_gets_app. lia.
Qed.

End Composition.

(** ** The operations of the world *)

Lemma only_events_by_gets {A} (ok : event -> Prop) (m : M A) :
  (forall w, snd (m w) = w) -> only_events ok m.
Proof. intros Hm w. exists []. by rewrite Hm, app_nil_r. Qed.

Lemma stat_size_unchanged (path : string) (w : world) :
  snd (stat_size path w) = w.
Proof. unfold stat_size. by repeat case_match. Qed.

Lemma open_read_snd (path : string) (w : world) :
  snd (open_read path w) = w.
Proof. by destruct (open_read_unchanged path w) as [r ->]. Qed.

Lemma unlink_frame (missing_ok : bool) (path : string) :
  touches_only path (unlink missing_ok path).
Proof.
  intros w q Hq. unfold unlink. repeat case_match; simpl; try done.
  by rewrite lookup_delete_ne.
Qed.

Lemma unlink_events (missing_ok : bool) (path : string) :
  only_events (fun ev => about path ev /\ not_sleep ev /\ is_get ev = false)
    (unlink missing_ok path).
Proof.
  intros w. unfold unlink.
  repeat case_match; simpl;
    try (exists []; by rewrite app_nil_r).
  exists [EvUnlink path]. split; [done|]. by repeat constructor.
Qed.

Lemma write_file_frame (path : string) (data : list Byte.byte) :
  touches_only path (write_file path data).
Proof.
  intros w q Hq. unfold write_file. repeat case_match; simpl; try done.
  by rewrite lookup_insert_ne.
Qed.

Lemma write_file_events (path : string) (data : list Byte.byte) :
  only_events (fun ev => about path ev /\ not_sleep ev /\ is_get ev = false)
    (write_file path data).
Proof.
  intros w. unfold write_file.
  repeat case_match; simpl;
    try (exists []; by rewrite app_nil_r).
  exists [EvWrite path data]. split; [done|]. by repeat constructor.
Qed.

Lemma mkdir_parents_files (path : string) (w : world) :
  files (snd (mkdir_parents path w)) = files w /\
  trace (snd (mkdir_parents path w)) = trace w.
Proof. unfold mkdir_parents. by repeat case_match. Qed.

Lemma requests_get_files (url : string) (w : world) :
  files (snd (requests_get url w)) = files w /\
  trace (snd (requests_get url w)) = trace w ++ [EvGet url].
Proof. unfold requests_get. by repeat case_match. Qed.

Lemma touches_only_files {A} (path : string) (m : M A) :
  (forall w, files (snd (m w)) = files w) -> touches_only path m.
Proof. intros Hm w. by apply same_files_except_eq. Qed.

Lemma sleep_events (seconds : Z) :
  only_events (fun ev => forall path, about path ev /\ is_get ev = false)
    (sleep seconds).
Proof. intros w. exists [EvSleep seconds]. split; [done|]. by repeat constructor. Qed.

Lemma only_events_weaken {A} (ok ok' : event -> Prop) (m : M A) :
  (forall ev, ok ev -> ok' ev) -> only_events ok m -> only_events ok' m.
Proof.
  intros Himp Hm w. destruct (Hm w) as (evs & Ht & Hok).
  exists evs. split; [done|]. by eapply Forall_impl.
Qed.

Lemma no_gets_count (evs : list event) :
  Forall (fun ev => is_get ev = false) evs -> http_gets evs = 0%nat.
Proof.
  induction 1 as [|ev evs Hev _ IH]; [done|].
  unfold http_gets in *. simpl. by rewrite Hev.
Qed.

Lemma no_sleeps (evs : list event) : Forall not_sleep evs -> sleeps evs = [].
Proof.
  induction 1 as [|ev evs Hev _ IH]; [done|].
  unfold sleeps in *. simpl. by destruct ev.
Qed.

(** Steps of a proof by composition: the rule of the construct at the
    head of the computation, or a case analysis of what it matches on. *)
Ltac compose_with rule :=
  repeat (intros;
          first [ progress rule
                | match goal with
                  | |- context [match ?x with _ => _ end] => destruct x
                  end ]).

Ltac frame_rule :=
  first [ apply touches_only_ret | apply touches_only_raise
        | apply touches_only_pure | apply unlink_frame
        | apply write_file_frame
        | apply touches_only_bind | apply touches_only_try ].

Ltac events_rule :=
  first [ apply only_events_ret | apply only_events_raise
        | apply only_events_pure
        | apply only_events_bind | apply only_events_try ].

Section ProgramFrames.
Context {L : PyLibrary}.

Lemma validate_snd (path : string) (expected_hash : option string)
    (expected_size : option Z) (w : world) :
  snd (validate_file_integrity path expected_hash expected_size w) = w.
Proof.
  by destruct (validate_answers path expected_hash expected_size w)
    as [(ok & msg & ->)|(e & _ & ->)].
Qed.

Lemma validate_frame (path file_path : string)
    (expected_hash : option string) (expected_size : option Z) :
  touches_only path
    (validate_file_integrity file_path expected_hash expected_size).
Proof. apply touches_only_files. intros w. by rewrite validate_snd. Qed.

Lemma validate_events (ok : event -> Prop) (file_path : string)
    (expected_hash : option string) (expected_size : option Z) :
  only_events ok
    (validate_file_integrity file_path expected_hash expected_size).
Proof. apply only_events_by_gets. apply validate_snd. Qed.

Lemma requests_get_frame (path url : string) :
  touches_only path (requests_get url).
Proof. apply touches_only_files. intros w. apply requests_get_files. Qed.

Lemma mkdir_parents_frame (path dir : string) :
  touches_only path (mkdir_parents dir).
Proof. apply touches_only_files. intros w. apply mkdir_parents_files. Qed.

Lemma path_exists_frame (path q : string) : touches_only path (path_exists q).
Proof.
  apply touches_only_files. intros w. by rewrite path_exists_unchanged.
Qed.

Lemma requests_get_events (path url : string) :
  only_events (fun ev => about path ev /\ not_sleep ev) (requests_get url).
Proof.
  intros w. exists [EvGet url]. split; [apply requests_get_files|].
  by repeat constructor.
Qed.

Lemma mkdir_parents_events (ok : event -> Prop) (dir : string) :
  only_events ok (mkdir_parents dir).
Proof.
  intros w. exists []. rewrite app_nil_r. split; [|done].
  apply mkdir_parents_files.
Qed.

Lemma path_exists_events (ok : event -> Prop) (q : string) :
  only_events ok (path_exists q).
Proof. apply only_events_by_gets. apply path_exists_unchanged. Qed.

Lemma unlink_events_target (missing_ok : bool) (path : string) :
  only_events (fun ev => about path ev /\ not_sleep ev)
    (unlink missing_ok path).
Proof.
  eapply only_events_weaken; [|apply unlink_events]. by intros ev (? & ? & ?).
Qed.

Lemma write_file_events_target (path : string) (data : list Byte.byte) :
  only_events (fun ev => about path ev /\ not_sleep ev)
    (write_file path data).
Proof.
  eapply only_events_weaken; [|apply write_file_events].
  by intros ev (? & ? & ?).
Qed.

Ltac program_frame :=
  compose_with
    ltac:(first [ apply validate_frame | apply requests_get_frame
                | apply mkdir_parents_frame | apply path_exists_frame
                | frame_rule ]).

Ltac program_events :=
  compose_with
    ltac:(first [ apply validate_events
                | apply requests_get_events | apply mkdir_parents_events
                | apply path_exists_events | apply unlink_events_target
                | apply write_file_events_target | events_rule ]).

Lemma download_file_frame (url file_path : string) (expected_size : Z) :
  touches_only file_path (_download_file url file_path expected_size).
Proof. unfold _download_file. program_frame. Qed.

Lemma download_file_events (url file_path : string) (expected_size : Z) :
  only_events (fun ev => about file_path ev /\ not_sleep ev)
    (_download_file url file_path expected_size).
Proof. unfold _download_file. program_events. Qed.

Lemma attempt_body_frame (info : software_info) (file_path : string) :
  touches_only file_path (attempt_body info file_path).
Proof.
  unfold attempt_body, redownload.
  compose_with
    ltac:(first [ apply validate_frame | apply path_exists_frame
                | apply download_file_frame | frame_rule ]).
Qed.

Lemma attempt_body_events (info : software_info) (file_path : string) :
  only_events (fun ev => about file_path ev /\ not_sleep ev)
    (attempt_body info file_path).
Proof.
  unfold attempt_body, redownload.
  compose_with
    ltac:(first [ apply validate_events
                | apply path_exists_events | apply unlink_events_target
                | apply download_file_events | events_rule ]).
Qed.

End ProgramFrames.

(* ===================================================================== *)
(** * Further properties of the retry loop *)
(* ===================================================================== *)

Lemma sleeps_app (evs1 evs2 : list event) :
  sleeps (evs1 ++ evs2) = sleeps evs1 ++ sleeps evs2.
Proof. apply omap_app. Qed.



Section RetryOutcome.
Context {L : PyLibrary}.

Lemma attempt_body_outcome (info : software_info) (file_path : string)
    (w : world) :
  exists (r : option (bool * message)) (w' : world),
    attempt_body info file_path w = (Ok r, w') /\
    forall out : bool * message,
      r = Some out ->
      (out = (true, MsgFileOk) \/ out = (true, MsgCorrected)) /\
      accepts info file_path w'.
Proof.
  destruct (path_exists_cases w file_path)
    as [(Hfound & Hp & _)|[[_ Hp]|(e & _ & Href)]].
  3:{ rewrite (attempt_body_refused _ _ _ _ Href). by eexists _, w. }
  - destruct (validate_returns info file_path w Hfound) as [Hv|Hv].
    + rewrite attempt_body_accepts by done. eexists _, w. split; [done|].
      intros out [= <-]. split; [by left|done].
    + destruct (attempt_body_rejects _ _ _ Hp Hv)
        as [[_ ->]|(w1 & _ & _ & _ & ->)]; [by eexists _, w|].
      destruct (redownload_spec info file_path w1)
        as (r & w' & tl & -> & _ & _ & Hout).
      exists r, w'. split; [done|]. intros out Hr.
      destruct (Hout out Hr) as [-> Hacc]. split; [by right|done].
  - rewrite attempt_body_absent by done.
    destruct (redownload_spec info file_path w)
      as (r & w' & tl & -> & _ & _ & Hout).
    exists r, w'. split; [done|]. intros out Hr.
    destruct (Hout out Hr) as [-> Hacc]. split; [by right|done].
Qed.

(** Everything the properties below need to know of one run of the
    loop. *)
Lemma attempts_run (info : software_info) (file_path : string)
    (max_retries : Z) (remaining : list Z) (w : world) :
  exists (b : bool) (m : message) (w' : world) (evs : list event),
    attempts info file_path max_retries remaining w = (Ok (b, m), w') /\
    trace w' = trace w ++ evs /\
    same_files_except file_path w w' /\
    Forall (about file_path) evs /\
    sleeps evs `prefix_of`
      ((fun a => 2 ^ a)
         <$> List.filter (fun a => bool_decide (a < max_retries - 1))
               remaining) /\
    (b = true ->
     accepts info file_path w' /\ (m = MsgFileOk \/ m = MsgCorrected)) /\
    (b = false ->
     m = MsgExhausted max_retries /\
     sleeps evs
     = (fun a => 2 ^ a)
         <$> List.filter (fun a => bool_decide (a < max_retries - 1))
               remaining).
Proof.
  revert w. induction remaining as [|attempt later IH]; intros w.
  - simpl. eexists false, _, w, []. rewrite app_nil_r.
    split; [done|]. split; [done|].
    split; [apply same_files_except_refl|]. split; [done|].
    split; [done|]. split; [discriminate|done].
  - simpl attempts. unfold bind at 1.
    pose proof (attempt_body_frame info file_path w) as Hframe1.
    destruct (attempt_body_events info file_path w) as (evs1 & Ht1 & Hev1).
    destruct (attempt_body_outcome info file_path w) as (r & w1 & Hbody & Hout).
    rewrite Hbody in *. simpl in Hframe1, Ht1.
    assert (Forall (about file_path) evs1) as Habout1
        by (eapply Forall_impl; [exact Hev1|by intros ev [? ?]]).
    assert (sleeps evs1 = []) as Hs1.
    { apply no_sleeps. eapply Forall_impl; [exact Hev1|by intros ev [? ?]]. }
    destruct r as [[b m]|].
    + destruct (Hout _ eq_refl) as [Hm Hacc].
      assert (b = true) as -> by (destruct Hm as [Hm|Hm]; by injection Hm).
      eexists true, m, w1, evs1. split; [done|]. split; [done|].
      split; [done|]. split; [done|].
      split; [rewrite Hs1; apply prefix_nil|].
      split; [|discriminate]. intros _. split; [done|].
      destruct Hm as [Hm|Hm]; injection Hm as ->; tauto.
    + unfold bind.
      assert (exists (w2 : world) (evs2 : list event),
                 (if bool_decide (attempt < max_retries - 1)
                  then sleep (2 ^ attempt) else ret tt) w1 = (Ok tt, w2) /\
                 trace w2 = trace w1 ++ evs2 /\ files w2 = files w1 /\
                 Forall (about file_path) evs2 /\
                 sleeps evs2
                 = (fun a => 2 ^ a)
                     <$> (if bool_decide (attempt < max_retries - 1)
                          then [attempt] else []))
        as (w2 & evs2 & -> & Ht2 & Hf2 & Habout2 & Hs2).
      { case_bool_decide.
        - eexists _, [EvSleep _]. repeat split; try done. by repeat constructor.
        - eexists w1, []. rewrite app_nil_r. by repeat split. }
      destruct (IH w2)
        as (b & m & w' & evs & -> & Ht & Hframe & Habout & Hpre & Hok & Hfail).
      assert (sleeps (evs1 ++ evs2 ++ evs)
              = ((fun a => 2 ^ a)
                   <$> (if bool_decide (attempt < max_retries - 1)
                        then [attempt] else []))
                ++ sleeps evs) as Hs.
      { by rewrite !sleeps_app, Hs1, Hs2. }
      assert ((fun a => 2 ^ a)
                <$> List.filter (fun a => bool_decide (a < max_retries - 1))
                      (attempt :: later)
              = ((fun a => 2 ^ a)
                   <$> (if bool_decide (attempt < max_retries - 1)
                        then [attempt] else []))
                ++ ((fun a => 2 ^ a)
                      <$> List.filter
                            (fun a => bool_decide (a < max_retries - 1))
                            later)) as Hsched.
      { simpl. by case_bool_decide. }
      eexists b, m, w', (evs1 ++ evs2 ++ evs). split; [done|].
      split; [by rewrite Ht, Ht2, Ht1, <- !app_assoc|].
      split.
      { eapply same_files_except_trans; [done|].
        eapply same_files_except_trans; [|done].
        by apply same_files_except_eq. }
      split; [by rewrite !Forall_app|].
      split; [rewrite Hs, Hsched; by apply prefix_app|].
      split; [done|]. intros Hb. destruct (Hfail Hb) as [-> Hsl].
      split; [done|]. by rewrite Hs, Hsched, Hsl.
Qed.


(** X3: with [max_retries] zero or negative no attempt is made: the call
    answers failure at once and leaves the world untouched, also when a
    file that the validator would accept is already in place. *)
Theorem no_attempt_without_retries (info : software_info)
    (download_path filename : string) (max_retries : Z) (w : world) :
  _generate_filename info = Ok filename -> max_retries <= 0 ->
  auto_correct_download info download_path max_retries w
  = (Ok (false, MsgExhausted max_retries), w).
Proof.
  intros Hgen Hn. unfold auto_correct_download, bind, pure_call.
  rewrite Hgen. unfold Py.range.
  by replace (Z.to_nat max_retries) with 0%nat by lia.
Qed.


(** X5: whatever happens, a call changes no file other than its target
    [download_path / filename], and every unlink and every write it does
    is of that target. *)
Theorem repair_touches_only_target (info : software_info)
    (download_path filename : string) (max_retries : Z) (w : world) :
  _generate_filename info = Ok filename ->
  exists evs : list event,
    trace (snd (auto_correct_download info download_path max_retries w))
    = trace w ++ evs /\
    Forall (about (joinpath download_path filename)) evs /\
    same_files_except (joinpath download_path filename) w
      (snd (auto_correct_download info download_path max_retries w)).
Proof.
  intros Hgen. unfold auto_correct_download, bind, pure_call. rewrite Hgen.
  destruct (attempts_run info (joinpath download_path filename) max_retries
              (Py.range max_retries) w)
    as (b & m & w' & evs & -> & Ht & Hframe & Habout & _).
  by exists evs.
Qed.

End RetryOutcome.


Lemma no_attempt_without_retries_witness :
  @auto_correct_download Reference.library Samples.tool "/dl" 0
    Samples.good_world
  = (Ok (false, MsgExhausted 0), Samples.good_world).
Proof.
  apply (@no_attempt_without_retries Reference.library Samples.tool "/dl"
           "Demo Tool.exe" 0 Samples.good_world); [|lia].
  vm_compute. reflexivity.
Defined.


Lemma repair_touches_only_target_witness :
  exists evs : list event,
    trace (snd (@auto_correct_download Reference.library Samples.tool "/dl" 3
                  Samples.stale_world))
    = trace Samples.stale_world ++ evs /\
    Forall (about (@joinpath Reference.library "/dl" "Demo Tool.exe")) evs /\
    same_files_except (@joinpath Reference.library "/dl" "Demo Tool.exe")
      Samples.stale_world
      (snd (@auto_correct_download Reference.library Samples.tool "/dl" 3
              Samples.stale_world)).
Proof.
  apply (@repair_touches_only_target Reference.library Samples.tool "/dl"
           "Demo Tool.exe" 3 Samples.stale_world).
  vm_compute. reflexivity.
Defined.

(* ===================================================================== *)
(** * What a download leaves on disk *)
(* ===================================================================== *)

(** Skipping the empty chunks changes nothing: what is written is the
    concatenation of the chunks. *)
Lemma received_concat (chunks : list (list Byte.byte)) :
  received chunks = concat chunks.
Proof.
  unfold received.
  assert (forall acc : list Byte.byte,
             foldl (fun written chunk =>
                      match chunk with
                      | [] => written
                      | _ => written ++ chunk
                      end) acc chunks
             = acc ++ concat chunks) as Hgen.
  { induction chunks as [|c chunks IH]; intros acc; simpl.
    - by rewrite app_nil_r.
    - rewrite IH. destruct c; simpl; [done|by rewrite <- app_assoc]. }
  apply Hgen.
Qed.

Lemma range_two (n : Z) :
  2 <= n -> exists later : list Z, Py.range n = 0 :: 1 :: later.
Proof.
  intros Hn. unfold Py.range.
  destruct (Z.to_nat n) as [|[|k]] eqn:Hk; [lia..|]. simpl. eauto.
Qed.

Section DownloadOutcome.
Context {L : PyLibrary}.

(** A body that arrives, into a place where a file can be created. *)
Lemma download_file_streams (url file_path : string) (expected_size : Z)
    (w : world) (chunks : list (list Byte.byte)) (abort : option exn) :
  network w (http_gets (trace w)) url = Streams chunks abort ->
  parent file_path ∈ dirs w -> deny w file_path = None ->
  file_path ∉ dirs w ->
  _download_file url file_path expected_size w
  = (Ok (match abort with
         | None => (true, MsgDownloaded)
         | Some e => (false, MsgStr e)
         end),
     record_event (EvWrite file_path (received chunks))
       (set_files (<[file_path := fresh_file (received chunks)]> (files w))
          (record_event (EvGet url) w))).
Proof.
  intros Hnet Hparent Hdeny Hnodir.
  unfold _download_file, try_except, bind, requests_get. rewrite Hnet.
  unfold mkdir_parents. simpl.
  rewrite (bool_decide_eq_true_2 (parent file_path ∈ dirs w)) by done.
  unfold write_file. simpl. rewrite Hdeny.
  rewrite (bool_decide_eq_false_2 (file_path ∈ dirs w)) by done.
  by destruct abort.
Qed.

(** X6: what [_download_file] leaves behind.  A request that fails
    changes no file and is reported with the text of its exception.  A
    body that arrives is written to the target as it is, chunk borders
    and empty chunks leaving no mark; when the transfer breaks off after
    some chunks the call reports failure and the part received stays on
    disk. *)
Theorem download_file_outcome (url file_path : string) (expected_size : Z)
    (w : world) :
  (forall e : exn,
      network w (http_gets (trace w)) url = RequestFails e ->
      exists w' : world,
        _download_file url file_path expected_size w
        = (Ok (false, MsgStr e), w') /\ files w' = files w)
  /\ (forall (chunks : list (list Byte.byte)) (abort : option exn),
        network w (http_gets (trace w)) url = Streams chunks abort ->
        parent file_path ∈ dirs w -> deny w file_path = None ->
        file_path ∉ dirs w ->
        exists w' : world,
          _download_file url file_path expected_size w
          = (Ok (match abort with
                 | None => (true, MsgDownloaded)
                 | Some e => (false, MsgStr e)
                 end), w') /\
          files w' = <[file_path := fresh_file (concat chunks)]> (files w)).
Proof.
  split.
  - intros e Hnet. unfold _download_file, try_except, bind, requests_get.
    rewrite Hnet. by eexists.
  - intros chunks abort Hnet Hparent Hdeny Hnodir.
    rewrite (download_file_streams _ _ _ _ chunks abort) by done.
    eexists. split; [done|]. simpl. by rewrite received_concat.
Qed.

(** X7: a record that carries neither size nor hash gets no check of its
    content.  When the transfer of the first attempt breaks off, the call
    with two or more retries sleeps one second, finds the partial file at
    the second attempt, and answers success for it: one GET, and the
    part received is what stays on disk. *)
Theorem truncated_download_accepted (info : software_info)
    (download_path filename : string) (max_retries : Z) (w : world)
    (chunks : list (list Byte.byte)) (e : exn) :
  _generate_filename info = Ok filename ->
  unchecked info ->
  ~ present w (joinpath download_path filename) ->
  network w (http_gets (trace w)) (default "" (si_url info))
  = Streams chunks (Some e) ->
  parent (joinpath download_path filename) ∈ dirs w ->
  deny w (joinpath download_path filename) = None ->
  2 <= max_retries ->
  exists w' : world,
    auto_correct_download info download_path max_retries w
    = (Ok (true, MsgFileOk), w') /\
    files w' = <[joinpath download_path filename
                 := fresh_file (concat chunks)]> (files w) /\
    trace w' = trace w
               ++ [EvGet (default "" (si_url info));
                   EvWrite (joinpath download_path filename) (concat chunks);
                   EvSleep 1].
Proof.
  intros Hgen [Hsize Hhash] Hp Hnet Hparent Hdeny Hn.
  set (file_path := joinpath download_path filename) in *.
  unfold auto_correct_download, bind at 1, pure_call. rewrite Hgen.
  fold file_path. destruct (range_two _ Hn) as [later ->].
  assert (file_path ∉ dirs w) as Hnodir by (intros Hd; apply Hp; by right).
  set (w1 := record_event (EvWrite file_path (received chunks))
               (set_files
                  (<[file_path := fresh_file (received chunks)]> (files w))
                  (record_event (EvGet (default "" (si_url info))) w))).
  assert (attempt_body info file_path w = (Ok None, w1)) as Hfirst.
  { rewrite attempt_body_absent by done. unfold redownload, bind.
    by rewrite (download_file_streams _ _ _ _ chunks (Some e)). }
  set (w2 := record_event (EvSleep 1) w1).
  assert (present w2 file_path) as Hp2.
  { left. simpl. rewrite lookup_insert_eq. eauto. }
  assert (found w2 file_path) as Hfound2.
  { apply (path_exists_file _ _ (fresh_file (received chunks))).
    simpl. apply lookup_insert_eq. }
  assert (accepts info file_path w2) as Hacc.
  { exists MsgFileOk. rewrite validate_passes; try done.
    - unfold open_read. simpl. by rewrite lookup_insert_eq.
    - intros n Hsz. congruence.
    - intros h Hh Hne. destruct Hhash as [Hhash|Hhash]; congruence. }
  simpl attempts. unfold bind at 1. rewrite Hfirst. unfold bind at 1.
  rewrite bool_decide_eq_true_2 by lia.
  change (sleep (2 ^ 0) w1) with (Ok tt, w2).
  unfold bind. rewrite (attempt_body_accepts _ _ _ Hp2 Hacc).
  exists w2. split; [done|]. simpl. rewrite received_concat.
  split; [done|]. by rewrite <- !app_assoc.
Qed.

(** X8: a file that cannot be opened never passes, and what is reported
    depends on the record: with a non-empty expected hash (and a size
    that agrees or none) the message is a hash mismatch with an empty
    actual digest, the failed read being hidden behind it; without a hash
    to check it is the validation failure carrying the exception. *)
Theorem unreadable_file_report (path : string) (f : file)
    (expected_hash : option string) (expected_size : option Z) (w : world) :
  files w !! path = Some f -> f_readable f = false ->
  size_passes w path expected_size ->
  (forall e : string,
      expected_hash = Some e -> e <> "" ->
      validate_file_integrity path expected_hash expected_size w
      = (Ok (false, MsgHashMismatch e ""), w))
  /\ (expected_hash = None \/ expected_hash = Some "" ->
      validate_file_integrity path expected_hash expected_size w
      = (Ok (false, MsgValidationFailed PermissionError), w)).
Proof.
  intros Hf Hread Hsize.
  assert (found w path) as Hp by (by eapply path_exists_file).
  assert (open_read path w = (Raise PermissionError, w)) as Hopen.
  { unfold open_read. by rewrite Hf, Hread. }
  split.
  - intros e -> He. apply validate_hash_rejects; try done.
    + unfold calculate_file_hash, try_except, bind. by rewrite Hopen.
    + destruct e; [done|discriminate].
  - intros Hnone. rewrite validate_passes, Hopen; try done.
    intros e He Hne. destruct Hnone; congruence.
Qed.

End DownloadOutcome.

Lemma truncated_download_accepted_witness :
  exists w' : world,
    @auto_correct_download Reference.library MoreSamples.plain "/dl" 3
      MoreSamples.broken_transfer_world = (Ok (true, MsgFileOk), w') /\
    files w' = <[@joinpath Reference.library "/dl" "plain.zip"
                 := fresh_file (concat [[Byte.x61]])]>
                 (files MoreSamples.broken_transfer_world) /\
    trace w' = trace MoreSamples.broken_transfer_world
               ++ [EvGet (default "" (si_url MoreSamples.plain));
                   EvWrite (@joinpath Reference.library "/dl" "plain.zip")
                     (concat [[Byte.x61]]);
                   EvSleep 1].
Proof.
  apply (@truncated_download_accepted Reference.library MoreSamples.plain
           "/dl" "plain.zip" 3 MoreSamples.broken_transfer_world
           [[Byte.x61]] RequestException).
  - vm_compute. reflexivity.
  - split; [reflexivity|by left].
  - intros [[f Hf]|Hd]; [vm_compute in Hf; discriminate|].
    vm_compute in Hd. set_solver.
  - reflexivity.
  - vm_compute. set_solver.
  - reflexivity.
  - lia.
Defined.

Lemma unreadable_file_report_witness :
  (forall e : string,
      Some "AB" = Some e -> e <> "" ->
      @validate_file_integrity Reference.library Samples.tool_path
        (Some "AB") (Some 2) MoreSamples.unreadable_world
      = (Ok (false, MsgHashMismatch e ""), MoreSamples.unreadable_world))
  /\ (Some "AB" = None \/ Some "AB" = Some "" ->
      @validate_file_integrity Reference.library Samples.tool_path
        (Some "AB") (Some 2) MoreSamples.unreadable_world
      = (Ok (false, MsgValidationFailed PermissionError),
         MoreSamples.unreadable_world)).
Proof.
  apply (@unreadable_file_report Reference.library Samples.tool_path
           {| f_data := [Byte.x61; Byte.x62]; f_readable := false;
              f_removable := true |}).
  - vm_compute. reflexivity.
  - reflexivity.
  - intros n [= <-]. vm_compute. reflexivity.
Defined.

(* ===================================================================== *)
(** * Further properties of the batch *)
(* ===================================================================== *)

Lemma only_events_no_gets {A} (m : M A) :
  only_events (fun ev => is_get ev = false) m -> issues_at_most 0 m.
Proof.
  intros Hm w. destruct (Hm w) as (evs & Ht & Hev).
  exists evs. split; [done|]. by rewrite no_gets_count.
Qed.

Lemma unlink_ok_gone (missing_ok : bool) (path : string) (w w' : world) :
  unlink missing_ok path w = (Ok tt, w') ->
  files w' !! path = None.
Proof.
  unfold unlink. intros Hu.
  repeat case_match; simplify_eq/=; try done. apply lookup_delete_eq.
Qed.

Lemma all_failed_lookup_eq (software_list : list string) (msg : message)
    (name : string) :
  all_failed software_list msg !! name
  = if bool_decide (name ∈ software_list) then Some (false, msg) else None.
Proof.
  unfold all_failed.
  assert (forall (d : gmap string (bool * message)),
             foldl (fun d software => <[software := (false, msg)]> d)
               d software_list !! name
             = if bool_decide (name ∈ software_list) then Some (false, msg)
               else d !! name) as Hgen.
  { induction software_list as [|s l IH]; intros d; simpl.
    - done.
    - rewrite IH. destruct (decide (name ∈ l)) as [Hin|Hin].
      + rewrite !bool_decide_eq_true_2; [done| |done].
        apply elem_of_cons. by right.
      + rewrite (bool_decide_eq_false_2 (name ∈ l)) by done.
        destruct (decide (s = name)) as [->|Hne].
        * rewrite lookup_insert_eq, bool_decide_eq_true_2; [done|].
          apply elem_of_cons. by left.
        * rewrite lookup_insert_ne by done.
          rewrite bool_decide_eq_false_2; [done|].
          intros Hc. apply elem_of_cons in Hc as [Hc|Hc]; congruence. }
  rewrite Hgen. by case_bool_decide.
Qed.

Section BatchEffects.
Context {L : PyLibrary}.

Lemma correct_path_issues_events (download_path : string) :
  only_events
    (fun ev => about (joinpath download_path "test_write.tmp") ev
               /\ not_sleep ev /\ is_get ev = false)
    (correct_path_issues download_path).
Proof.
  unfold correct_path_issues.
  compose_with
    ltac:(first [ apply path_exists_events | apply mkdir_parents_events
                | apply unlink_events | apply write_file_events
                | events_rule ]).
Qed.

Lemma correct_path_issues_frame (download_path : string) :
  touches_only (joinpath download_path "test_write.tmp")
    (correct_path_issues download_path).
Proof.
  unfold correct_path_issues.
  compose_with
    ltac:(first [ apply path_exists_frame | apply mkdir_parents_frame
                | frame_rule ]).
Qed.

(** X9: the check of the download path issues no GET and changes no file
    other than its probe [test_write.tmp]; when it reports the path as
    writable the probe is gone, and so is any file of that name that was
    in the directory before. *)
Theorem correct_path_issues_effects (download_path : string) (w : world) :
  exists (b : bool) (m : message) (w' : world) (evs : list event),
    correct_path_issues download_path w = (Ok (b, m), w') /\
    trace w' = trace w ++ evs /\
    http_gets evs = 0%nat /\
    same_files_except (joinpath download_path "test_write.tmp") w w' /\
    (b = true -> files w' !! joinpath download_path "test_write.tmp" = None).
Proof.
  destruct (correct_path_issues_total download_path w) as (b & m & w' & Hrun).
  destruct (correct_path_issues_events download_path w) as (evs & Ht & Hev).
  pose proof (correct_path_issues_frame download_path w) as Hframe.
  rewrite Hrun in Ht, Hframe. simpl in Ht, Hframe.
  exists b, m, w', evs. split; [done|]. split; [done|].
  split; [apply no_gets_count; eapply Forall_impl;
          [exact Hev|by intros ev (? & ? & ?)]|].
  split; [done|]. intros ->. revert Hrun.
  unfold correct_path_issues, try_except, bind, ret, raise.
  destruct (path_exists download_path w) as [[present|e] w1]; [|discriminate].
  destruct ((if negb present then mkdir_parents download_path
             else fun w0 => (Ok tt, w0)) w1) as [[[]|e] w2]; [|discriminate].
  destruct (write_file (joinpath download_path "test_write.tmp")
              test_bytes w2) as [[[]|e] w3]; [|destruct e; discriminate].
  destruct (unlink false (joinpath download_path "test_write.tmp") w3)
    as [[[]|e] w4] eqn:Hu; [|destruct e; discriminate].
  intros [= <- <-]. by eapply unlink_ok_gone.
Qed.

(** X10: when the check of the download path fails, the batch downloads
    nothing: every requested name, and no other, is reported as failed
    with the message of the check, no record is looked at, and the world
    is the one the check left. *)
Theorem unusable_directory_fails_all (software_list : list string)
    (download_path : string) (software_data : gmap string software_info)
    (progress_callback : option callback) (w w1 : world) (m : message) :
  correct_path_issues download_path w = (Ok (false, m), w1) ->
  exists results : gmap string (bool * message),
    download_software software_list download_path software_data
      progress_callback w = (Ok results, w1) /\
    (forall name : string,
        results !! name
        = if bool_decide (name ∈ software_list) then Some (false, m)
          else None) /\
    exists evs : list event,
      trace w1 = trace w ++ evs /\ http_gets evs = 0%nat.
Proof.
  intros Hcheck. unfold download_software, bind. rewrite Hcheck. simpl.
  eexists. split; [done|]. split; [apply all_failed_lookup_eq|].
  destruct (correct_path_issues_events download_path w) as (evs & Ht & Hev).
  rewrite Hcheck in Ht. exists evs. split; [done|].
  apply no_gets_count. eapply Forall_impl; [exact Hev|by intros ev (? & ? & ?)].
Qed.

Lemma auto_correct_download_gets (info : software_info)
    (download_path : string) :
  issues_at_most 3 (auto_correct_download info download_path 3).
Proof.
  intros w. unfold auto_correct_download, bind, pure_call.
  destruct (_generate_filename info) as [filename|e]; cbv beta iota.
  - destruct (attempts_spec info (joinpath download_path filename) 3
                (Py.range 3) w) as (b & m & w' & evs & -> & Ht & Hgets & _).
    exists evs. split; [done|]. rewrite range_length in Hgets. lia.
  - exists []. rewrite app_nil_r. split; [done|count_gets].
Qed.

Lemma notify_gets (progress_callback : option callback)
    (completed total : Z) (name : string) (success : bool) :
  issues_at_most 0 (notify progress_callback completed total name success).
Proof.
  intros w. unfold notify. destruct progress_callback as [cb|].
  - exists [EvProgress completed total name success].
    split; [by destruct (cb _ _ _ _)|count_gets].
  - exists []. rewrite app_nil_r. split; [done|count_gets].
Qed.

Lemma download_each_gets (remaining : list string) (download_path : string)
    (software_data : gmap string software_info)
    (progress_callback : option callback) (total completed : Z)
    (results : gmap string (bool * message)) :
  issues_at_most (3 * length remaining)
    (download_each remaining download_path software_data progress_callback
       total completed results).
Proof.
  revert completed results.
  induction remaining as [|name later IH]; intros completed results; simpl.
  - apply issues_at_most_ret.
  - destruct (software_data !! name) as [info|].
    + eapply issues_at_most_weaken;
        [|apply issues_at_most_bind;
          [apply auto_correct_download_gets|]].
      2:{ intros [success msg].
          apply issues_at_most_bind; [apply notify_gets|].
          intros _. apply IH. }
      lia.
    + eapply issues_at_most_weaken; [|apply IH]. lia.
Qed.

(** X11: a batch issues at most three GETs for each requested name,
    whatever the catalog, the callback, the file system and the server
    do: every record is repaired with the default of three retries. *)
Theorem batch_gets_bounded (software_list : list string)
    (download_path : string) (software_data : gmap string software_info)
    (progress_callback : option callback) (w : world) :
  exists evs : list event,
    trace (snd (download_software software_list download_path software_data
                  progress_callback w))
    = trace w ++ evs /\
    (http_gets evs <= 3 * length software_list)%nat.
Proof.
  assert (issues_at_most (0 + 3 * length software_list)
            (download_software software_list download_path software_data
               progress_callback)) as Hbound.
  { unfold download_software. apply issues_at_most_bind.
    - apply only_events_no_gets. eapply only_events_weaken;
        [|apply correct_path_issues_events]. by intros ev (? & ? & ?).
    - intros [path_valid path_message]. destruct path_valid; simpl.
      + apply download_each_gets.
      + eapply issues_at_most_weaken; [|apply issues_at_most_ret]. lia. }
  apply Hbound.
Qed.

Lemma download_each_keys (remaining : list string) (download_path : string)
    (software_data : gmap string software_info)
    (progress_callback : option callback) (total completed : Z)
    (results res : gmap string (bool * message)) (w w' : world) :
  download_each remaining download_path software_data progress_callback
    total completed results w = (Ok res, w') ->
  forall name : string,
    (is_Some (res !! name) ->
     name ∈ remaining \/ is_Some (results !! name)) /\
    (software_data !! name = None ->
     res !! name
     = if bool_decide (name ∈ remaining) then Some (false, MsgNoInfo)
       else results !! name).
Proof.
  revert completed results w.
  induction remaining as [|s later IH]; intros completed results w Hrun name.
  - simpl in Hrun. injection Hrun as <- <-.
    split; [by right|]. intros _.
    rewrite bool_decide_eq_false_2; [done|apply not_elem_of_nil].
  - simpl in Hrun.
    assert (forall (v : bool * message),
               (software_data !! s = None -> v = (false, MsgNoInfo)) ->
               (is_Some (res !! name) ->
                name ∈ later \/ is_Some (<[s := v]> results !! name)) /\
               (software_data !! name = None ->
                res !! name
                = if bool_decide (name ∈ later) then Some (false, MsgNoInfo)
                  else <[s := v]> results !! name) ->
               (is_Some (res !! name) ->
                name ∈ s :: later \/ is_Some (results !! name)) /\
               (software_data !! name = None ->
                res !! name
                = if bool_decide (name ∈ s :: later)
                  then Some (false, MsgNoInfo) else results !! name)) as Hstep.
    { intros v Hv [Hkeys Habsent]. split.
      - intros Hsome. destruct (Hkeys Hsome) as [Hin|Hin].
        + left. apply elem_of_cons. by right.
        + destruct (decide (s = name)) as [->|Hne].
          * left. apply elem_of_cons. by left.
          * right. by rewrite lookup_insert_ne in Hin.
      - intros Hnone. rewrite (Habsent Hnone).
        destruct (decide (name ∈ later)) as [Hin|Hin].
        + rewrite !bool_decide_eq_true_2; [done| |done].
          apply elem_of_cons. by right.
        + rewrite (bool_decide_eq_false_2 (name ∈ later)) by done.
          destruct (decide (s = name)) as [->|Hne].
          * rewrite lookup_insert_eq, bool_decide_eq_true_2;
              [by rewrite (Hv Hnone)|apply elem_of_cons; by left].
          * rewrite lookup_insert_ne by done.
            rewrite bool_decide_eq_false_2; [done|].
            intros Hc. apply elem_of_cons in Hc as [Hc|Hc]; congruence. }
    destruct (software_data !! s) as [info|] eqn:Hs.
    + unfold bind at 1 in Hrun.
      destruct (auto_correct_download info download_path 3 w)
        as [[[success msg]|e] w1]; [|discriminate].
      unfold bind at 1 in Hrun.
      destruct (notify progress_callback (completed + 1) total s success w1)
        as [[[]|e] w2]; [|discriminate].
      apply (Hstep (success, msg)); [discriminate|].
      by eapply IH.
    + apply (Hstep (false, MsgNoInfo)); [done|]. by eapply IH.
Qed.

(** X12: the map a batch returns holds entries for requested names only,
    and a requested name that the catalog lacks is an entry that reports
    failure. *)
Theorem batch_reports_requested_only (software_list : list string)
    (download_path : string) (software_data : gmap string software_info)
    (progress_callback : option callback) (w w' : world)
    (results : gmap string (bool * message)) :
  download_software software_list download_path software_data
    progress_callback w = (Ok results, w') ->
  (forall name : string,
      is_Some (results !! name) -> name ∈ software_list) /\
  (forall name : string,
      name ∈ software_list -> software_data !! name = None ->
      exists m : message, results !! name = Some (false, m)).
Proof.
  unfold download_software, bind at 1.
  destruct (correct_path_issues download_path w)
    as [[[path_valid path_message]|e] w1]; [|discriminate].
  destruct path_valid; simpl.
  - intros Hrun. split.
    + intros name Hsome.
      destruct (proj1 (download_each_keys _ _ _ _ _ _ _ _ _ _ Hrun name) Hsome)
        as [Hin|[v Hv]]; [done|]. by rewrite lookup_empty in Hv.
    + intros name Hin Hnone.
      rewrite (proj2 (download_each_keys _ _ _ _ _ _ _ _ _ _ Hrun name) Hnone).
      rewrite bool_decide_eq_true_2 by done. eauto.
  - unfold ret. intros [= <- <-]. split.
    + intros name [v Hv]. rewrite all_failed_lookup_eq in Hv.
      by case_bool_decide.
    + intros name Hin _. rewrite all_failed_lookup_eq.
      rewrite bool_decide_eq_true_2 by done. eauto.
Qed.

End BatchEffects.

Lemma unusable_directory_fails_all_witness :
  exists results : gmap string (bool * message),
    @download_software Reference.library ["tool"; "absent"] "/dl"
      Samples.catalog None MoreSamples.readonly_world
    = (Ok results, MoreSamples.readonly_world) /\
    (forall name : string,
        results !! name
        = if bool_decide (name ∈ ["tool"; "absent"])
          then Some (false, MsgStr PermissionError) else None) /\
    exists evs : list event,
      trace MoreSamples.readonly_world
      = trace MoreSamples.readonly_world ++ evs /\ http_gets evs = 0%nat.
Proof.
  apply (@unusable_directory_fails_all Reference.library).
  vm_compute. reflexivity.
Defined.

Lemma batch_reports_requested_only_witness :
  (forall name : string,
      is_Some ((<["absent" := (false, MsgNoInfo)]>
                  (<["tool" := (true, MsgCorrected)]> ∅)
                : gmap string (bool * message)) !! name) ->
      name ∈ ["tool"; "absent"]) /\
  (forall name : string,
      name ∈ ["tool"; "absent"] -> Samples.catalog !! name = None ->
      exists m : message,
        (<["absent" := (false, MsgNoInfo)]>
           (<["tool" := (true, MsgCorrected)]> ∅)
         : gmap string (bool * message)) !! name = Some (false, m)).
Proof.
  eapply (@batch_reports_requested_only Reference.library ["tool"; "absent"]
            "/dl" Samples.catalog None Samples.empty_world).
  vm_compute. reflexivity.
Defined.

(* ===================================================================== *)
(** * Properties of the executable check and of existing downloads *)
(* ===================================================================== *)

Lemma open_read_ok (path : string) (w w' : world) (data : list Byte.byte) :
  open_read path w = (Ok data, w') ->
  exists f : file,
    files w !! path = Some f /\ f_readable f = true /\ data = f_data f.
Proof.
  unfold open_read. destruct (files w !! path) as [f|].
  - destruct (f_readable f) eqn:Hr; [|discriminate].
    intros [= <- <-]. eauto.
  - case_bool_decide; [destruct (stat_fault w path)|]; discriminate.
Qed.

Section ExecutableProperties.
Context {L : PyLibrary} {S : PathSuffix}.

Lemma validate_executable_found (file_path : string) (w : world) :
  found w file_path ->
  exists (b : bool) (m : exec_message),
    validate_executable file_path w = (Ok (b, m), w).
Proof.
  intros Hp. unfold validate_executable, bind at 1.
  pose proof Hp as Hex. unfold found in Hex. rewrite Hex.
  simpl. unfold try_except.
  case_bool_decide; simpl; [|unfold ret; eauto].
  unfold bind at 1. destruct (stat_size_found _ _ Hp) as [a ->].
  case_bool_decide; [unfold ret; eauto|].
  case_bool_decide; [|unfold ret; eauto].
  unfold bind. destruct (open_read_unchanged file_path w) as [[data|e] ->];
    [|unfold ret; eauto].
  case_bool_decide; unfold ret; eauto.
Qed.

(** The call of [exists()] stands before the [try]: what it raises
    leaves the executable check. *)
Lemma validate_executable_refused (file_path : string) (w : world)
    (e : exn) :
  refused w file_path e -> validate_executable file_path w = (Raise e, w).
Proof.
  intros Href. unfold validate_executable, bind at 1.
  by rewrite (path_exists_refused _ _ _ Href).
Qed.

Lemma validate_executable_answers (file_path : string) (w : world) :
  (exists (b : bool) (m : exec_message),
      validate_executable file_path w = (Ok (b, m), w))
  \/ (exists e : exn,
        refused w file_path e /\
        validate_executable file_path w = (Raise e, w)).
Proof.
  destruct (path_exists_cases w file_path)
    as [(Hfound & _)|[[Hex _]|(e & _ & Href)]].
  - left. by apply validate_executable_found.
  - left. unfold validate_executable, bind at 1. rewrite Hex. simpl.
    unfold ret. eauto.
  - right. exists e. split; [done|]. by apply validate_executable_refused.
Qed.

Lemma validate_executable_snd (file_path : string) (w : world) :
  snd (validate_executable file_path w) = w.
Proof.
  by destruct (validate_executable_answers file_path w)
    as [(b & m & ->)|(e & _ & ->)].
Qed.

Lemma validate_executable_accepted (file_path : string) (w : world)
    (m : exec_message) :
  validate_executable file_path w = (Ok (true, m), w) ->
  m = ExecValid /\
  present w file_path /\
  Py.lower (suffix file_path) ∈ valid_extensions /\
  (exists a : Z, stat_size file_path w = (Ok a, w) /\ a <> 0) /\
  (Py.lower (suffix file_path) = ".exe" ->
   exists f : file,
     files w !! file_path = Some f /\ f_readable f = true /\
     take 2 (f_data f) = mz_header).
Proof.
  unfold validate_executable, bind at 1.
  destruct (path_exists_cases w file_path)
    as [(Hfound & Hp & _)|[[Hex _]|(e & Hex & _)]].
  2:{ rewrite Hex. simpl. discriminate. }
  2:{ rewrite Hex. discriminate. }
  pose proof Hfound as Hex. unfold found in Hex. rewrite Hex.
  simpl. unfold try_except.
  case_bool_decide as Hext; simpl; [|discriminate].
  unfold bind at 1. destruct (stat_size_found _ _ Hfound) as [a Hstat].
  rewrite Hstat. case_bool_decide as Hsize; [discriminate|].
  case_bool_decide as Hexe.
  - unfold bind.
    destruct (open_read file_path w) as [[data|e] w1] eqn:Hopen;
      [|discriminate].
    case_bool_decide as Hhead; [discriminate|].
    intros [= <-]. split; [done|]. split; [done|]. split; [done|].
    split; [eauto|]. intros _.
    destruct (open_read_ok _ _ _ _ Hopen) as (f & Hf & Hr & ->).
    exists f. split; [done|]. split; [done|].
    by destruct (decide (take 2 (f_data f) = mz_header)).
  - intros [= <-]. split; [done|]. split; [done|]. split; [done|].
    split; [eauto|]. intros Hc. by rewrite Hc in Hexe.
Qed.

(** X13: the executable check changes nothing.  It raises what
    [exists()] raises on the path, the call standing before the [try],
    and returns a pair in every other case.  It accepts a path only if
    the path exists, its suffix in lower case is one of
    [.exe .msi .zip .rar .7z], its size is not zero and, for the suffix
    [.exe], the file can be read and starts with the two bytes [MZ]. *)
Theorem validate_executable_sound (file_path : string) (w : world) :
  snd (validate_executable file_path w) = w
  /\ (forall e : exn,
        refused w file_path e ->
        validate_executable file_path w = (Raise e, w))
  /\ (examinable w file_path ->
      exists (b : bool) (m : exec_message),
        validate_executable file_path w = (Ok (b, m), w))
  /\ (forall m : exec_message,
        validate_executable file_path w = (Ok (true, m), w) ->
        m = ExecValid /\
        present w file_path /\
        Py.lower (suffix file_path) ∈ valid_extensions /\
        (exists a : Z, stat_size file_path w = (Ok a, w) /\ a <> 0) /\
        (Py.lower (suffix file_path) = ".exe" ->
         exists f : file,
           files w !! file_path = Some f /\ f_readable f = true /\
           take 2 (f_data f) = mz_header)).
Proof.
  split; [apply validate_executable_snd|].
  split; [intros e; apply validate_executable_refused|].
  split; [|intros m; apply validate_executable_accepted].
  intros Hex.
  destruct (validate_executable_answers file_path w)
    as [Hok|(e & Href & _)]; [done|by destruct (Hex e)].
Qed.

End ExecutableProperties.

Lemma odict_get_set_eq {V} (k : string) (v : V) (d : odict V) :
  odict_get k (odict_set k v d) = Some v.
Proof.
  induction d as [|[k' v'] d IH]; simpl.
  - by rewrite bool_decide_eq_true_2.
  - case_bool_decide as Hk; simpl.
    + by rewrite bool_decide_eq_true_2.
    + by rewrite bool_decide_eq_false_2.
Qed.

Lemma odict_get_set_ne {V} (k k' : string) (v : V) (d : odict V) :
  k <> k' -> odict_get k' (odict_set k v d) = odict_get k' d.
Proof.
  intros Hne. induction d as [|[k0 v0] d IH]; simpl.
  - by rewrite bool_decide_eq_false_2.
  - case_bool_decide as Hk; simpl.
    + subst k0. by rewrite !bool_decide_eq_false_2.
    + case_bool_decide; [done|apply IH].
Qed.

Section ExistingDownloads.
Context {L : PyLibrary} {S : PathSuffix}.

(** One item of the catalog: the derivation raises; or [exists()] raises
    on the target, no [try] being around it; or an entry is set.  The
    world stays as it is, and an entry that says valid stands for a file
    that both checks accepted. *)
Lemma validate_existing_item_spec (download_path name : string)
    (info : software_info) (results : odict (bool * report)) (w : world) :
  (exists e : exn,
      _generate_filename info = Raise e /\
      validate_existing_item download_path name info results w = (Raise e, w))
  \/ (exists (filename : string) (e : exn),
         _generate_filename info = Ok filename /\
         refused w (joinpath download_path filename) e /\
         validate_existing_item download_path name info results w
         = (Raise e, w))
  \/ (exists (filename : string) (entry : bool * report),
         _generate_filename info = Ok filename /\
         examinable w (joinpath download_path filename) /\
         validate_existing_item download_path name info results w
         = (Ok (odict_set name entry results), w) /\
         (fst entry = true ->
          present w (joinpath download_path filename) /\
          accepts info (joinpath download_path filename) w /\
          validate_executable (joinpath download_path filename) w
          = (Ok (true, ExecValid), w)) /\
         (~ present w (joinpath download_path filename) ->
          entry = (false, Integrity MsgFileMissing))).
Proof.
  unfold validate_existing_item, pure_call, bind.
  destruct (_generate_filename info) as [filename|e]; [right|left; eauto].
  destruct (path_exists_cases w (joinpath download_path filename))
    as [(Hfound & Hp & Hexam)|[[Hex Hp]|(e & Hex & Href)]].
  3:{ left. exists filename, e. by rewrite Hex. }
  2:{ right. exists filename. rewrite Hex. unfold ret.
      eexists. split; [done|].
      split; [intros e Href; apply Hp; by eapply refused_present|].
      split; [done|]. split; [discriminate|done]. }
  right. exists filename.
  pose proof Hfound as Hex. unfold found in Hex. rewrite Hex.
  destruct (validate_executable_found (joinpath download_path filename) w
              Hfound) as (b & m & Hexec).
  destruct (validate_returns info (joinpath download_path filename) w Hfound)
    as [[msg Hv]|[msg Hv]]; rewrite Hv.
  - rewrite Hexec. destruct b; unfold ret; simpl.
    + assert (m = ExecValid) as ->.
      { by destruct (validate_executable_accepted _ _ _ Hexec). }
      eexists. split; [done|]. split; [done|]. split; [done|].
      split; [|done]. intros _. split; [done|]. split; [by exists msg|done].
    + eexists. split; [done|]. split; [done|]. split; [done|].
      split; [discriminate|done].
  - unfold ret. simpl.
    eexists. split; [done|]. split; [done|]. split; [done|].
    split; [discriminate|done].
Qed.

Lemma validate_existing_loop_unchanged (download_path : string)
    (items : odict software_info) (results : odict (bool * report))
    (w : world) :
  snd (validate_existing_loop download_path items results w) = w.
Proof.
  revert results. induction items as [|[name info] later IH];
    intros results; simpl; [done|].
  unfold bind.
  destruct (validate_existing_item_spec download_path name info results w)
    as [(e & _ & ->)|[(f & e & _ & _ & ->)|(f & entry & _ & _ & -> & _)]];
    [done|done|apply IH].
Qed.

Lemma validate_existing_loop_keeps (download_path : string)
    (items : odict software_info) (results res : odict (bool * report))
    (w w' : world) (name : string) :
  validate_existing_loop download_path items results w = (Ok res, w') ->
  name ∉ items.*1 ->
  odict_get name res = odict_get name results.
Proof.
  revert results. induction items as [|[s info] later IH];
    intros results Hrun Hnot; simpl in *.
  - by injection Hrun as <- <-.
  - unfold bind in Hrun.
    destruct (validate_existing_item_spec download_path s info results w)
      as [(e & _ & Hitem)|[(f & e & _ & _ & Hitem)
                          |(f & entry & _ & _ & Hitem & _)]];
      rewrite Hitem in Hrun; [discriminate|discriminate|].
    apply not_elem_of_cons in Hnot as [Hne Hnot].
    rewrite (IH _ Hrun Hnot). by apply odict_get_set_ne.
Qed.

Lemma validate_existing_loop_entries (download_path : string)
    (items : odict software_info) (results res : odict (bool * report))
    (w w' : world) :
  validate_existing_loop download_path items results w = (Ok res, w') ->
  NoDup items.*1 ->
  forall (name : string) (info : software_info) (m : report),
    (name, info) ∈ items -> odict_get name res = Some (true, m) ->
    exists filename : string,
      _generate_filename info = Ok filename /\
      present w (joinpath download_path filename) /\
      accepts info (joinpath download_path filename) w /\
      validate_executable (joinpath download_path filename) w
      = (Ok (true, ExecValid), w).
Proof.
  revert results. induction items as [|[s i] later IH];
    intros results Hrun Hnodup name info m Hin Hget; simpl in *.
  - by apply elem_of_nil in Hin.
  - unfold bind in Hrun.
    destruct (validate_existing_item_spec download_path s i results w)
      as [(e & _ & Hitem)|[(f & e & _ & _ & Hitem)
                          |(f & entry & Hgen & _ & Hitem & Hvalid & _)]];
      rewrite Hitem in Hrun; [discriminate|discriminate|].
    apply NoDup_cons in Hnodup as [Hfresh Hnodup].
    apply elem_of_cons in Hin as [[= -> ->]|Hin].
    + rewrite (validate_existing_loop_keeps _ _ _ _ _ _ _ Hrun Hfresh) in Hget.
      rewrite odict_get_set_eq in Hget. injection Hget as ->.
      exists f. split; [done|]. by apply Hvalid.
    + by eapply IH.
Qed.

Lemma validate_existing_loop_keys (download_path : string)
    (items : odict software_info) (results : odict (bool * report))
    (w : world) :
  (forall (name : string) (info : software_info),
      (name, info) ∈ items ->
      exists filename : string,
        _generate_filename info = Ok filename /\
        examinable w (joinpath download_path filename)) ->
  exists res : odict (bool * report),
    validate_existing_loop download_path items results w = (Ok res, w) /\
    forall name : string,
      is_Some (odict_get name res)
      <-> name ∈ items.*1 \/ is_Some (odict_get name results).
Proof.
  revert results. induction items as [|[s i] later IH];
    intros results Hnames; simpl.
  - exists results. split; [done|]. intros name. split; [by right|].
    intros [Hin|Hin]; [by apply elem_of_nil in Hin|done].
  - unfold bind.
    destruct (Hnames s i) as (f0 & Hf0 & Hexam0);
      [apply elem_of_cons; by left|].
    destruct (validate_existing_item_spec download_path s i results w)
      as [(e & Hgen & _)|[(f & e & Hgen & Href & _)
                         |(f & entry & _ & _ & -> & _)]].
    { congruence. }
    { assert (f = f0) as -> by congruence. by destruct (Hexam0 e). }
    destruct (IH (odict_set s entry results)) as (res & -> & Hkeys).
    { intros name info Hin. apply (Hnames name info).
      apply elem_of_cons. by right. }
    exists res. split; [done|]. intros name. rewrite Hkeys.
    rewrite elem_of_cons.
    destruct (decide (s = name)) as [->|Hne].
    + rewrite odict_get_set_eq. split; [intros _; by left; left|eauto].
    + rewrite odict_get_set_ne by done. split.
      * intros [Hin|Hin]; [left; by right|by right].
      * intros [[Heq|Hin]|Hin]; [congruence|by left|by right].
Qed.

(** One target that the system refuses to examine makes the loop
    raise. *)
Lemma validate_existing_loop_raises (download_path : string)
    (items : odict software_info) (results : odict (bool * report))
    (w : world) (name filename : string) (info : software_info) (e : exn) :
  (name, info) ∈ items -> _generate_filename info = Ok filename ->
  refused w (joinpath download_path filename) e ->
  exists e' : exn,
    validate_existing_loop download_path items results w = (Raise e', w).
Proof.
  intros Hin Hgen Href. revert results.
  induction items as [|[s i] later IH]; intros results; simpl.
  - by apply elem_of_nil in Hin.
  - unfold bind.
    destruct (validate_existing_item_spec download_path s i results w)
      as [(e' & _ & ->)|[(f & e' & _ & _ & ->)
                        |(f & entry & Hgen' & Hexam & -> & _)]];
      [eauto|eauto|].
    apply elem_of_cons in Hin as [[= -> ->]|Hin]; [|by apply IH].
    assert (f = filename) as -> by congruence. by destruct (Hexam e).
Qed.

Lemma validate_existing_downloads_unchanged (download_path : string)
    (software_data : odict software_info) (w : world) :
  snd (validate_existing_downloads download_path software_data w) = w.
Proof.
  unfold validate_existing_downloads, bind.
  destruct (path_exists_cases w download_path)
    as [(Hfound & _)|[[Hex _]|(e & Hex & _)]].
  - unfold found in Hfound. rewrite Hfound. simpl.
    apply validate_existing_loop_unchanged.
  - by rewrite Hex.
  - by rewrite Hex.
Qed.

(** X14: looking at the existing downloads changes nothing in the world,
    whatever it finds.  Without the download directory the answer is the
    empty dictionary.  What [exists()] raises on the directory or on the
    target of a record leaves the survey, no [try] being around these
    calls: one target that the system refuses to examine and no answer is
    returned.  With a directory and targets that can all be examined, and
    a filename derived for every record, the answer has an entry for
    exactly the names of the catalog. *)
Theorem existing_downloads_survey (download_path : string)
    (software_data : odict software_info) (w : world) :
  snd (validate_existing_downloads download_path software_data w) = w
  /\ (~ present w download_path ->
      validate_existing_downloads download_path software_data w = (Ok [], w))
  /\ (forall e : exn,
        refused w download_path e ->
        validate_existing_downloads download_path software_data w
        = (Raise e, w))
  /\ (forall (name filename : string) (info : software_info) (e : exn),
        found w download_path ->
        (name, info) ∈ software_data ->
        _generate_filename info = Ok filename ->
        refused w (joinpath download_path filename) e ->
        exists e' : exn,
          validate_existing_downloads download_path software_data w
          = (Raise e', w))
  /\ (found w download_path ->
      (forall (name : string) (info : software_info),
          (name, info) ∈ software_data ->
          exists filename : string,
            _generate_filename info = Ok filename /\
            examinable w (joinpath download_path filename)) ->
      exists results : odict (bool * report),
        validate_existing_downloads download_path software_data w
        = (Ok results, w) /\
        forall name : string,
          is_Some (odict_get name results) <-> name ∈ software_data.*1).
Proof.
  split; [apply validate_existing_downloads_unchanged|].
  unfold validate_existing_downloads, bind.
  split; [intros Hp; by rewrite (path_exists_false _ _ Hp)|].
  split; [intros e Href; by rewrite (path_exists_refused _ _ _ Href)|].
  split.
  - intros name filename info e Hfound Hin Hgen Href.
    unfold found in Hfound. rewrite Hfound. simpl.
    by eapply validate_existing_loop_raises.
  - intros Hfound Hnames. unfold found in Hfound. rewrite Hfound. simpl.
    destruct (validate_existing_loop_keys download_path software_data [] w
                Hnames) as (res & -> & Hkeys).
    exists res. split; [done|]. intros name. rewrite Hkeys. split.
    + intros [Hin|[v Hv]]; [done|discriminate].
    + by left.
Qed.

(** X15: a record that the survey of existing downloads reports as valid
    needs no download: its file passed the integrity check and the
    executable check, and a repair of that record with at least one
    attempt answers success at once, with no GET and the world
    unchanged. *)
Theorem reported_valid_needs_no_download (download_path : string)
    (software_data : odict software_info) (w w' : world)
    (results : odict (bool * report)) (name : string) (info : software_info)
    (m : report) (max_retries : Z) :
  validate_existing_downloads download_path software_data w
  = (Ok results, w') ->
  NoDup software_data.*1 ->
  (name, info) ∈ software_data ->
  odict_get name results = Some (true, m) ->
  0 < max_retries ->
  auto_correct_download info download_path max_retries w
  = (Ok (true, MsgFileOk), w)
  /\ exists filename : string,
      _generate_filename info = Ok filename /\
      validate_executable (joinpath download_path filename) w
      = (Ok (true, ExecValid), w).
Proof.
  unfold validate_existing_downloads, bind.
  destruct (path_exists download_path w) as [[[|]|e] w1] eqn:Hex;
    simpl; try discriminate.
  2:{ intros [= <- <-]. discriminate. }
  assert (w1 = w) as ->.
  { pose proof (path_exists_unchanged download_path w) as Hw.
    by rewrite Hex in Hw. }
  intros Hrun Hnodup Hin Hget Hn.
  destruct (validate_existing_loop_entries _ _ _ _ _ _ Hrun Hnodup
              name info m Hin Hget) as (f & Hgen & Hp & Hacc & Hexec).
  split; [|eauto].
  unfold auto_correct_download, bind, pure_call. rewrite Hgen.
  destruct (range_positive _ Hn) as [later ->]. simpl. unfold bind.
  by rewrite (attempt_body_accepts _ _ _ Hp Hacc).
Qed.

End ExistingDownloads.

Lemma reported_valid_needs_no_download_witness :
  @auto_correct_download Reference.library MoreSamples.plain "/dl" 3
    MoreSamples.installer_world
  = (Ok (true, MsgFileOk), MoreSamples.installer_world)
  /\ exists filename : string,
      @_generate_filename Reference.library MoreSamples.plain = Ok filename /\
      @validate_executable ReferenceSuffix.path_suffix
        (@joinpath Reference.library "/dl" filename)
        MoreSamples.installer_world
      = (Ok (true, ExecValid), MoreSamples.installer_world).
Proof.
  apply (@reported_valid_needs_no_download Reference.library
           ReferenceSuffix.path_suffix "/dl" MoreSamples.plain_catalog
           MoreSamples.installer_world MoreSamples.installer_world
           [("Plain", (true, Integrity MsgFileOk))] "Plain" MoreSamples.plain
           (Integrity MsgFileOk) 3).
  - vm_compute. reflexivity.
  - apply NoDup_singleton.
  - apply list_elem_of_singleton. reflexivity.
  - reflexivity.
  - lia.
Defined.

(* ===================================================================== *)
(** * The download statistics *)
(* ===================================================================== *)

Lemma listed_size_snoc (l : list file_stat) (f : file_stat) :
  listed_size (l ++ [f]) = listed_size l + fs_size f.
Proof.
  unfold listed_size. induction l as [|x l IH]; simpl; [lia|].
  rewrite IH. lia.
Qed.

Lemma listed_valid_snoc (l : list file_stat) (f : file_stat) :
  listed_valid (l ++ [f])
  = listed_valid l + (if fs_valid f then 1 else 0).
Proof.
  unfold listed_valid. rewrite List.filter_app, length_app. simpl.
  destruct (fs_valid f); simpl; lia.
Qed.

Lemma count_file_consistent (st : statistics) (name filename : string)
    (size : Z) (valid : bool) (msg : report) :
  consistent st -> consistent (count_file st name filename size valid msg).
Proof.
  intros (Htotal & Hsum & Hvalid & Hsize). unfold consistent, count_file.
  simpl. rewrite length_app, listed_valid_snoc, listed_size_snoc. simpl.
  destruct valid; repeat split; lia.
Qed.

Section Statistics.
Context {L : PyLibrary} {S : PathSuffix}.

Lemma statistics_loop_consistent (path : string)
    (software_data : odict software_info)
    (validation_results : odict (bool * report)) (stats st : statistics)
    (w w' : world) :
  statistics_loop path software_data validation_results stats w = (Ok st, w')
  -> consistent stats -> consistent st /\ w' = w.
Proof.
  revert stats. induction validation_results as [|[name [valid msg]] later IH];
    intros stats Hrun Hstats; simpl in Hrun.
  - by injection Hrun as <- <-.
  - destruct (odict_get name software_data) as [info|]; [|by eapply IH].
    unfold bind, pure_call in Hrun.
    destruct (_generate_filename info) as [filename|e]; [|discriminate].
    destruct (path_exists_cases w (joinpath path filename))
      as [(Hfound & _)|[[Hex _]|(e & Hex & _)]].
    + pose proof Hfound as Hex. unfold found in Hex. rewrite Hex in Hrun.
      destruct (stat_size_found _ _ Hfound) as [a Hstat].
      rewrite Hstat in Hrun.
      eapply IH; [done|]. by apply count_file_consistent.
    + rewrite Hex in Hrun. by eapply IH.
    + rewrite Hex in Hrun. discriminate.
Qed.

(** X16: the statistics of a download directory are consistent and cost
    nothing: the world is unchanged, [total_files] is the number of listed
    files, [valid_files] and [invalid_files] add up to it, [valid_files]
    counts the listed files reported valid, and [total_size] is the sum
    of the listed sizes. *)
Theorem statistics_consistent (software_data : odict software_info)
    (download_path : string) (w w' : world) (st : statistics) :
  get_download_statistics software_data download_path w = (Ok st, w') ->
  w' = w /\
  total_files st = Z.of_nat (length (stat_files st)) /\
  valid_files st + invalid_files st = total_files st /\
  valid_files st = listed_valid (stat_files st) /\
  total_size st = listed_size (stat_files st).
Proof.
  assert (consistent empty_statistics) as Hempty by done.
  unfold get_download_statistics, bind at 1.
  destruct (path_exists_cases w download_path)
    as [(Hfound & _)|[[Hex _]|(e & Hex & _)]].
  3:{ rewrite Hex. discriminate. }
  - unfold found in Hfound. rewrite Hfound. simpl. unfold bind.
    pose proof (validate_existing_downloads_unchanged download_path
                  software_data w) as Hsame.
    destruct (validate_existing_downloads download_path software_data w)
      as [[results|e] w1]; [|discriminate].
    simpl in Hsame. subst w1. intros Hrun.
    destruct (statistics_loop_consistent _ _ _ _ _ _ _ Hrun Hempty)
      as [Hst ->].
    split; [done|apply Hst].
  - rewrite Hex. simpl. intros [= <- <-].
    split; [done|apply Hempty].
Qed.

End Statistics.

Lemma statistics_consistent_witness :
  MoreSamples.installer_world = MoreSamples.installer_world /\
  total_files
    {| total_files := 1; valid_files := 1; invalid_files := 0;
       total_size := 3;
       stat_files := [{| fs_name := "Plain"; fs_filename := "plain.zip";
                         fs_size := 3; fs_valid := true;
                         fs_message := Integrity MsgFileOk |}] |}
  = Z.of_nat 1 /\
  1 + 0 = 1 /\
  1 = listed_valid [{| fs_name := "Plain"; fs_filename := "plain.zip";
                       fs_size := 3; fs_valid := true;
                       fs_message := Integrity MsgFileOk |}] /\
  3 = listed_size [{| fs_name := "Plain"; fs_filename := "plain.zip";
                      fs_size := 3; fs_valid := true;
                      fs_message := Integrity MsgFileOk |}].
Proof.
  apply (@statistics_consistent Reference.library ReferenceSuffix.path_suffix
           MoreSamples.plain_catalog "/dl" MoreSamples.installer_world
           MoreSamples.installer_world
           {| total_files := 1; valid_files := 1; invalid_files := 0;
              total_size := 3;
              stat_files := [{| fs_name := "Plain";
                                fs_filename := "plain.zip";
                                fs_size := 3; fs_valid := true;
                                fs_message := Integrity MsgFileOk |}] |}).
  vm_compute. reflexivity.
Defined.

(* ===================================================================== *)
(** * The wizard: page gating *)
(* ===================================================================== *)

(** X17: the gate of the wizard is cumulative.  Going back, or staying,
    is always allowed; a page that may be entered going forward lets every
    page before it be entered too; and the completion page is open, from
    any other page, exactly when the five steps are all done. *)
Theorem gating_is_cumulative (self : Wizard.steps) (target : Wizard.PageType) :
  ((Wizard.index_or_zero target Wizard.page_flow
    <= Wizard.index_or_zero (Wizard.current_page self) Wizard.page_flow)%nat ->
   Wizard.can_proceed_to_page self target = (true, Wizard.NoRefusal))
  /\ (fst (Wizard.can_proceed_to_page self target) = true ->
      forall earlier : Wizard.PageType,
        (Wizard.index_or_zero earlier Wizard.page_flow
         <= Wizard.index_or_zero target Wizard.page_flow)%nat ->
        fst (Wizard.can_proceed_to_page self earlier) = true)
  /\ (Wizard.current_page self <> Wizard.COMPLETION ->
      (fst (Wizard.can_proceed_to_page self Wizard.COMPLETION) = true <->
       Wizard.software_selected self = true /\
       Wizard.download_path_set self = true /\
       Wizard.connectivity_checked self = true /\
       Wizard.download_completed self = true /\
       Wizard.validation_completed self = true)).
Proof.
  split; [|split].
  - unfold Wizard.can_proceed_to_page. intros Hle.
    apply Nat.leb_le in Hle. by rewrite Hle.
  - destruct self as [cur [|] [|] [|] [|] [|]]; destruct cur, target;
      vm_compute; intros Hok; try discriminate;
      intros earlier; destruct earlier; vm_compute; intros Hle;
      try reflexivity; exfalso; lia.
  - destruct self as [cur [|] [|] [|] [|] [|]]; destruct cur;
      vm_compute; intros Hcur; try (exfalso; by apply Hcur);
      split; try discriminate; try (intros _; by repeat split);
      intros (? & ? & ? & ? & ?); discriminate.
Qed.

(* ===================================================================== *)
(** * The wizard: automatic repair *)
(* ===================================================================== *)

Lemma only_removes_refl (w : world) : only_removes w w.
Proof. split; [done|]. by left. Qed.

Lemma only_removes_trans (w1 w2 w3 : world) :
  only_removes w1 w2 -> only_removes w2 w3 -> only_removes w1 w3.
Proof.
  intros [Hd12 Hf12] [Hd23 Hf23]. split; [congruence|]. intros q.
  destruct (Hf23 q) as [H23|(H23 & f & Hf & Hr)].
  - rewrite H23. apply Hf12.
  - right. split; [done|]. exists f. split; [|done].
    destruct (Hf12 q) as [H12|(H12 & _)]; congruence.
Qed.

Lemma only_removes_absent (w w' : world) (q : string) :
  only_removes w w' -> ~ present w q -> ~ present w' q.
Proof.
  intros [Hd Hf] Hno [[f Hq]|Hq]; apply Hno.
  - left. destruct (Hf q) as [Heq|[Heq _]]; [|congruence].
    rewrite <- Heq. eauto.
  - right. by rewrite <- Hd.
Qed.

Lemma only_removes_well_formed (w w' : world) :
  only_removes w w' -> well_formed w -> well_formed w'.
Proof.
  intros [Hd Hf] Hwf q [f Hq]. rewrite Hd. apply Hwf.
  destruct (Hf q) as [Heq|[Heq _]]; [|congruence]. rewrite <- Heq. eauto.
Qed.

(** An entry that cannot be unlinked stays. *)
Lemma only_removes_stuck (w w' : world) (q : string) (e : exn) :
  only_removes w w' -> present w q -> unlink false q w = (Raise e, w) ->
  present w' q.
Proof.
  intros [Hd Hf] Hp Hu. unfold unlink in Hu.
  destruct (files w !! q) as [f|] eqn:Hq.
  - destruct (f_removable f) eqn:Hr; [discriminate|]. left.
    destruct (Hf q) as [Heq|(_ & f' & Hf' & Hr')].
    + rewrite Heq, Hq. eauto.
    + congruence.
  - destruct Hp as [[f Hp]|Hp]; [congruence|]. right. by rewrite Hd.
Qed.

Lemma unlink_cases (path : string) (w : world) :
  well_formed w ->
  (exists e : exn, unlink false path w = (Raise e, w))
  \/ (exists w1 : world,
        unlink false path w = (Ok tt, w1) /\
        only_removes w w1 /\ same_files_except path w w1 /\
        ~ present w1 path).
Proof.
  intros Hwf. unfold unlink. destruct (files w !! path) as [f|] eqn:Hf.
  - destruct (f_removable f) eqn:Hr; [right|left; eauto].
    eexists. split; [done|]. split; [|split].
    + split; [done|]. intros q. simpl.
      destruct (decide (q = path)) as [->|Hne].
      * right. rewrite lookup_delete_eq. eauto.
      * left. by rewrite lookup_delete_ne.
    + intros q Hq. simpl. by rewrite lookup_delete_ne.
    + intros [[f' Hf']|Hd]; simpl in *.
      * by rewrite lookup_delete_eq in Hf'.
      * by apply (Hwf path); [rewrite Hf; eauto|].
  - left. case_bool_decide; [destruct (stat_fault w path)|]; eauto.
Qed.

Section WizardRepair.
Context {L : PyLibrary}.

(** One item: its name is appended exactly when nothing is at its path
    afterwards. *)
Lemma auto_repair_step (download_path : string) (item : Wizard.DownloadItem)
    (repaired : list string) (w : world) :
  well_formed w ->
  exists (w1 : world) (added : bool),
    try_except
      (let! present :=
         path_exists (Wizard.item_path download_path item) in
       run! (if present
             then unlink false (Wizard.item_path download_path item)
             else ret tt) in
       ret (repaired ++ [Wizard.item_name item]))
      (fun _ => ret repaired) w
    = (Ok (if added then repaired ++ [Wizard.item_name item] else repaired),
       w1) /\
    only_removes w w1 /\
    same_files_except (Wizard.item_path download_path item) w w1 /\
    (added = true -> ~ present w1 (Wizard.item_path download_path item)) /\
    (added = false ->
     forall w' : world,
       only_removes w1 w' ->
       present w' (Wizard.item_path download_path item)).
Proof.
  intros Hwf. unfold try_except, bind, ret.
  set (p := Wizard.item_path download_path item).
  destruct (path_exists_cases w p)
    as [(Hfound & Hp & _)|[[Hex Hp]|(e & Hex & Href)]].
  3:{ rewrite Hex. exists w, false. split; [done|].
      split; [apply only_removes_refl|].
      split; [apply same_files_except_refl|]. split; [discriminate|].
      intros _ w' [Hd _]. right. rewrite Hd. by destruct Href as (_ & ? & _). }
  - unfold found in Hfound. rewrite Hfound.
    destruct (unlink_cases p w Hwf) as [[e He]|(w1 & Hu & Hrem & Hfr & Hgone)].
    + rewrite He. exists w, false. split; [done|].
      split; [apply only_removes_refl|].
      split; [apply same_files_except_refl|]. split; [discriminate|].
      intros _ w' Hrem. by eapply only_removes_stuck.
    + rewrite Hu. exists w1, true. split; [done|]. split; [done|].
      split; [done|]. split; [done|discriminate].
  - rewrite Hex. exists w, true.
    split; [done|]. split; [apply only_removes_refl|].
    split; [apply same_files_except_refl|]. split; [done|discriminate].
Qed.

Lemma auto_repair_loop_spec (download_path : string)
    (items : list Wizard.DownloadItem) (repaired0 : list string) (w : world) :
  well_formed w ->
  exists (repaired : list string) (w' : world),
    Wizard.auto_repair_loop download_path items repaired0 w
    = (Ok repaired, w') /\
    only_removes w w' /\
    (forall q : string,
        files w' !! q <> files w !! q ->
        exists item, item ∈ items /\ q = Wizard.item_path download_path item)
    /\ (forall name : string,
          name ∈ repaired <->
          name ∈ repaired0 \/
          exists item,
            item ∈ items /\ Wizard.item_name item = name /\
            ~ present w' (Wizard.item_path download_path item)).
Proof.
  revert repaired0 w. induction items as [|item later IH];
    intros repaired0 w Hwf.
  - exists repaired0, w. split; [done|]. split; [apply only_removes_refl|].
    split; [done|]. intros name. split; [by left|].
    intros [Hin|(item & Hin & _)]; [done|by apply elem_of_nil in Hin].
  - cbn [Wizard.auto_repair_loop]. unfold bind at 1.
    destruct (auto_repair_step download_path item repaired0 w Hwf)
      as (w1 & added & Hstep & Hrem1 & Hfr1 & Hadded & Hstuck).
    rewrite Hstep.
    destruct (IH (if added then repaired0 ++ [Wizard.item_name item]
                  else repaired0) w1
                (only_removes_well_formed _ _ Hrem1 Hwf))
      as (repaired & w' & -> & Hrem & Hfr & Hnames).
    exists repaired, w'. split; [done|].
    split; [by eapply only_removes_trans|]. split.
    { intros q Hq.
      destruct (decide (q = Wizard.item_path download_path item))
        as [->|Hother].
      - exists item. split; [apply elem_of_cons; by left|done].
      - assert (files w' !! q <> files w1 !! q) as Hne
          by (by rewrite (Hfr1 q Hother)).
        destruct (Hfr q Hne) as (it & Hin & ->).
        exists it. split; [apply elem_of_cons; by right|done]. }
    intros name. rewrite Hnames. split.
    + intros [Hin|(it & Hin & Hname & Hgone)].
      * destruct added; [|by left].
        apply elem_of_app in Hin as [Hin|Hin]; [by left|].
        apply list_elem_of_singleton in Hin as ->. right.
        exists item. split; [apply elem_of_cons; by left|]. split; [done|].
        eapply only_removes_absent; [done|by apply Hadded].
      * right. exists it. split; [apply elem_of_cons; by right|done].
    + intros [Hin|(it & Hin & Hname & Hgone)].
      * left. destruct added; [apply elem_of_app; by left|done].
      * apply elem_of_cons in Hin as [->|Hin].
        -- left. destruct added.
           ++ apply elem_of_app. right. by apply list_elem_of_singleton.
           ++ exfalso. by apply Hgone, Hstuck.
        -- right. by exists it.
Qed.

(** X18: the automatic repair of the wizard raises nothing.  It removes
    files only, and only at the paths [<name>.exe] of the items it is
    given; the names it returns are exactly those of the items at whose
    path nothing is left afterwards, and for exactly those items the
    check [validate_file] then answers false. *)
Theorem auto_repair_effects (download_path : string)
    (failed_items : list Wizard.DownloadItem) (w : world) :
  well_formed w ->
  exists (repaired : list string) (w' : world),
    Wizard.auto_repair download_path failed_items w = (Ok repaired, w') /\
    only_removes w w' /\
    (forall q : string,
        files w' !! q <> files w !! q ->
        exists item,
          item ∈ failed_items /\ q = Wizard.item_path download_path item)
    /\ (forall name : string,
          name ∈ repaired <->
          exists item,
            item ∈ failed_items /\ Wizard.item_name item = name /\
            ~ present w' (Wizard.item_path download_path item))
    /\ (forall item,
          item ∈ failed_items ->
          (Wizard.item_name item ∈ repaired <->
           Wizard.validate_file (Wizard.item_path download_path item) w'
           = (Ok false, w'))).
Proof.
  intros Hwf. unfold Wizard.auto_repair.
  destruct (auto_repair_loop_spec download_path failed_items [] w Hwf)
    as (repaired & w' & Hrun & Hrem & Hfr & Hnames).
  assert (forall name : string,
             name ∈ repaired <->
             exists item,
               item ∈ failed_items /\ Wizard.item_name item = name /\
               ~ present w' (Wizard.item_path download_path item)) as Hiff.
  { intros name. rewrite Hnames. split; [|by right].
    intros [Hin|Hex]; [by apply elem_of_nil in Hin|done]. }
  exists repaired, w'. split; [done|]. split; [done|]. split; [done|].
  split; [done|]. intros item Hin. rewrite Hiff.
  unfold Wizard.validate_file, bind.
  destruct (path_exists_cases w' (Wizard.item_path download_path item))
    as [(Hfound & Hp & _)|[[Hex Hp]|(e & Hex & Href)]].
  - unfold found in Hfound. rewrite Hfound. simpl. split; [|discriminate].
    intros (it & _ & Hname & Hgone). exfalso. apply Hgone.
    unfold Wizard.item_path in *. by rewrite Hname.
  - rewrite Hex. simpl. split; [done|].
    intros _. by exists item.
  - rewrite Hex. split; [|discriminate].
    intros (it & _ & Hname & Hgone). exfalso. apply Hgone.
    unfold Wizard.item_path in *. rewrite Hname.
    by eapply refused_present.
Qed.

End WizardRepair.

Lemma auto_repair_effects_witness :
  well_formed MoreSamples.wizard_world /\
  exists (repaired : list string) (w' : world),
    Wizard.auto_repair (L := Reference.library) "/dl"
      [MoreSamples.item "a"; MoreSamples.item "b"] MoreSamples.wizard_world
    = (Ok repaired, w') /\
    only_removes MoreSamples.wizard_world w'.
Proof.
  assert (well_formed MoreSamples.wizard_world) as Hwf.
  { intros q [f Hq] Hd. simpl in Hq, Hd.
    apply lookup_singleton_Some in Hq as [<- _].
    apply elem_of_singleton in Hd. discriminate. }
  split; [exact Hwf|].
  destruct (auto_repair_effects (L := Reference.library) "/dl"
              [MoreSamples.item "a"; MoreSamples.item "b"]
              MoreSamples.wizard_world Hwf)
    as (repaired & w' & Hrun & Hrem & _).
  by exists repaired, w'.
Defined.

(* ===================================================================== *)
(** * The wizard: the survey of a directory *)
(* ===================================================================== *)

Section WizardSurvey.
Context {L : PyLibrary}.

Lemma wizard_validate_file_spec (file_path : string) (w : world) :
  (exists b : bool,
      Wizard.validate_file file_path w = (Ok b, w) /\
      examinable w file_path /\
      (b = true <-> present w file_path))
  \/ (exists e : exn,
        Wizard.validate_file file_path w = (Raise e, w) /\
        refused w file_path e).
Proof.
  unfold Wizard.validate_file, bind.
  destruct (path_exists_cases w file_path)
    as [(Hfound & Hp & Hexam)|[[Hex Hp]|(e & Hex & Href)]].
  - unfold found in Hfound. rewrite Hfound. left. by exists true.
  - rewrite Hex. left. exists false. split; [done|].
    split; [intros e Href; apply Hp; by eapply refused_present|by split].
  - rewrite Hex. right. by exists e.
Qed.

Lemma validate_directory_loop_spec (download_path : string)
    (items : list Wizard.DownloadItem) (results0 : odict bool) (w : world) :
  (forall item,
      item ∈ items -> examinable w (Wizard.item_path download_path item)) ->
  exists results : odict bool,
    Wizard.validate_directory_loop download_path items results0 w
    = (Ok results, w) /\
    (forall name : string,
        name ∈ Wizard.item_name <$> items ->
        exists b : bool,
          odict_get name results = Some b /\
          (b = true <->
           present w (joinpath download_path (name +:+ ".exe")))) /\
    (forall name : string,
        name ∉ Wizard.item_name <$> items ->
        odict_get name results = odict_get name results0).
Proof.
  revert results0. induction items as [|item later IH];
    intros results0 Hexam.
  - exists results0. split; [done|]. split; [|done].
    intros name Hin. by apply elem_of_nil in Hin.
  - cbn [Wizard.validate_directory_loop]. unfold bind at 1.
    destruct (wizard_validate_file_spec
                (Wizard.item_path download_path item) w)
      as [(ok & -> & _ & Hok)|(e & _ & Href)].
    2:{ destruct (Hexam item) with e; [apply elem_of_cons; by left|done]. }
    destruct (IH (odict_set (Wizard.item_name item) ok results0))
      as (results & -> & Hin & Hout).
    { intros it Hit. apply Hexam. apply elem_of_cons. by right. }
    exists results. split; [done|]. split.
    + intros name Hname. rewrite fmap_cons in Hname.
      destruct (decide (name ∈ Wizard.item_name <$> later)) as [Hl|Hl];
        [by apply Hin|].
      apply elem_of_cons in Hname as [->|Hname]; [|done].
      exists ok. split; [|done].
      by rewrite (Hout _ Hl), odict_get_set_eq.
    + intros name Hname. rewrite fmap_cons in Hname.
      apply not_elem_of_cons in Hname as [Hne Hl].
      rewrite (Hout _ Hl). by apply odict_get_set_ne.
Qed.

(** The survey changes nothing, and one item whose path the system
    refuses to examine makes it raise. *)
Lemma validate_directory_loop_raises (download_path : string)
    (items : list Wizard.DownloadItem) (results0 : odict bool) (w : world) :
  snd (Wizard.validate_directory_loop download_path items results0 w) = w
  /\ forall item (e : exn),
      item ∈ items -> refused w (Wizard.item_path download_path item) e ->
      exists e' : exn,
        Wizard.validate_directory_loop download_path items results0 w
        = (Raise e', w).
Proof.
  revert results0. induction items as [|item later IH]; intros results0.
  - split; [done|]. intros it e Hin. by apply elem_of_nil in Hin.
  - cbn [Wizard.validate_directory_loop]. unfold bind.
    destruct (wizard_validate_file_spec
                (Wizard.item_path download_path item) w)
      as [(ok & -> & Hexam & _)|(e & -> & _)].
    2:{ split; [done|]. eauto. }
    destruct (IH (odict_set (Wizard.item_name item) ok results0))
      as [Hsnd Hraise].
    split; [done|]. intros it e Hin Href.
    apply elem_of_cons in Hin as [->|Hin]; [by destruct (Hexam e)|].
    by eapply Hraise.
Qed.

(** X19: the directory survey of the wizard changes nothing.  What
    [exists()] raises on the path [<name>.exe] of an item leaves the
    survey, no [try] being around the call: one item whose path the
    system refuses to examine and no answer is returned.  When the paths
    of all items can be examined, the answer has an entry for every item
    and for no other name, and the entry of an item is true exactly when
    something exists at its path, also when several items bear the same
    name. *)
Theorem validate_directory_survey (download_path : string)
    (items : list Wizard.DownloadItem) (w : world) :
  snd (Wizard.validate_directory download_path items w) = w
  /\ (forall item (e : exn),
        item ∈ items -> refused w (Wizard.item_path download_path item) e ->
        exists e' : exn,
          Wizard.validate_directory download_path items w = (Raise e', w))
  /\ ((forall item,
          item ∈ items ->
          examinable w (Wizard.item_path download_path item)) ->
      exists results : odict bool,
        Wizard.validate_directory download_path items w = (Ok results, w) /\
        (forall item,
            item ∈ items ->
            exists b : bool,
              odict_get (Wizard.item_name item) results = Some b /\
              (b = true <->
               present w (Wizard.item_path download_path item))) /\
        (forall name : string,
            is_Some (odict_get name results) ->
            exists item, item ∈ items /\ Wizard.item_name item = name)).
Proof.
  unfold Wizard.validate_directory.
  destruct (validate_directory_loop_raises download_path items [] w)
    as [Hsnd Hraise].
  split; [done|]. split; [done|]. intros Hexam.
  destruct (validate_directory_loop_spec download_path items [] w Hexam)
    as (results & Hrun & Hin & Hout).
  exists results. split; [done|]. split.
  - intros item Hitem. apply Hin. by apply list_elem_of_fmap_2.
  - intros name [b Hb].
    destruct (decide (name ∈ Wizard.item_name <$> items)) as [Hl|Hl].
    + apply list_elem_of_fmap in Hl as (item & -> & Hitem). by exists item.
    + rewrite (Hout _ Hl) in Hb. discriminate.
Qed.

End WizardSurvey.
